(** * representante_medico: the Google Sheets session-and-discovery layer

    A shallow embedding of [src/google-sheets/authService.ts] and
    [src/google-sheets/googleSheetsService.ts].

    The model:
    - [Js]             the JavaScript values and conversions the two files
                       rely on (truthiness, [typeof], [String(x)],
                       [parseInt], [parseFloat]);
    - [Errors]         [extractErrorMessage];
    - [AuthService]    [initializeGoogleApi] as an event-driven state
                       machine, [signIn], [signOut], [isAuthenticated],
                       [getAccessToken] and the storage of the sheet ID;
    - [Farmacia], [Medico], [Rows]
                       the two entities and their row mappings;
    - [SheetsService]  the remote store, [initializeSheet] and its three
                       tiers, the readers and the writers;
    - [Waiting], [SheetLink]
                       [waitForGlobal] and [getSheetUrl].

    The statements ([ErrorsSpec], [AuthSpec], [RowsSpec], [SheetsSpec], then
    [DigitsSpec], [TokenSpec], [WaitingSpec], [ServiceSpec]) and their proofs
    ([ErrorsFacts], [InitFacts], [SessionFacts], [RowsFacts],
    [ResolverFacts], [StoreFacts], then [DigitsFacts], [TokenFacts],
    [WaitingFacts], [ServiceFacts], [IdFacts], [RowShapeFacts]) follow.

    An asynchronous function is modelled by the way its promise settles:
    fulfilled, rejected, or left pending for ever. *)

From Stdlib Require Import ZArith NArith String Ascii List Bool Lia DecimalString.
From Stdlib Require Import DecimalFacts DecimalPos DecimalN.
From stdpp Require Import gmap strings list.

Set Warnings "-register-all".

Open Scope string_scope.
Open Scope Z_scope.

(* ===================================================================== *)
(** * JavaScript values *)
(* ===================================================================== *)

Module Js.

(** A JavaScript number.  Finite numbers are kept as a sign, a decimal
    mantissa and a decimal exponent: [Fin neg m e] is [(-1)^neg * m * 10^e].
    The rounding of a decimal literal to binary64 is outside the model; the
    parsers below return the decimal they read, with the mantissa stripped of
    trailing zeros. *)
Inductive JsNum : Type :=
| NaN
| Inf (neg : bool)
| Fin (neg : bool) (m : N) (e : Z).

Definition digitsOf (m : N) : string := NilZero.string_of_uint (N.to_uint m).

Fixpoint zeros (n : nat) : string :=
  match n with
  | O => ""
  | S k => String "0" (zeros k)
  end.

Definition strLen (s : string) : Z := Z.of_nat (String.length s).

(** [Number::toString] (radix 10) on the digits [s] of the mantissa and the
    exponent [e]; [n] is the position of the decimal point. *)
Definition finToString (s : string) (e : Z) : string :=
  let k := strLen s in
  let n := k + e in
  if (k <=? n) && (n <=? 21) then s ++ zeros (Z.to_nat (n - k))
  else if (0 <? n) && (n <=? 21) then
    substring 0 (Z.to_nat n) s ++ "." ++ substring (Z.to_nat n) (Z.to_nat (k - n)) s
  else if (-6 <? n) && (n <=? 0) then "0." ++ zeros (Z.to_nat (- n)) ++ s
  else
    let ex := n - 1 in
    let sign := if ex <? 0 then "-" else "+" in
    let mant := if k =? 1 then s
                else substring 0 1 s ++ "." ++ substring 1 (Z.to_nat (k - 1)) s in
    mant ++ "e" ++ sign ++ digitsOf (Z.abs_N ex).

Definition numToString (x : JsNum) : string :=
  match x with
  | NaN => "NaN"
  | Inf false => "Infinity"
  | Inf true => "-Infinity"
  | Fin neg m e =>
      if (m =? 0)%N then "0"
      else (if neg then "-" else "") ++ finToString (digitsOf m) e
  end.

Definition bigintToString (z : Z) : string :=
  (if z <? 0 then "-" else "") ++ digitsOf (Z.abs_N z).

(** Values.  An object is a list of its properties (own or inherited, data
    properties only: accessors and proxies are outside the model) together
    with [conv], the outcome of converting the object to a string: [None]
    when the conversion throws (an object without [toString], or whose
    [toString] throws).  A function carries the outcome of its conversion. *)
Inductive JsValue : Type :=
| VUndefined
| VNull
| VBool (b : bool)
| VNumber (x : JsNum)
| VBigInt (z : Z)
| VString (s : string)
| VSymbol (description : string)
| VFunction (conv : option string)
| VObject (props : list (string * JsValue)) (conv : option string).

Inductive JsType : Type :=
| TUndefined | TObject | TBoolean | TNumber | TBigInt | TString | TSymbol | TFunction.

Definition typeof (v : JsValue) : JsType :=
  match v with
  | VUndefined => TUndefined
  | VNull => TObject
  | VBool _ => TBoolean
  | VNumber _ => TNumber
  | VBigInt _ => TBigInt
  | VString _ => TString
  | VSymbol _ => TSymbol
  | VFunction _ => TFunction
  | VObject _ _ => TObject
  end.

Definition isObjectType (v : JsValue) : bool :=
  match typeof v with TObject => true | _ => false end.

Definition isStringType (v : JsValue) : bool :=
  match typeof v with TString => true | _ => false end.

Definition nonEmpty (s : string) : bool :=
  match s with EmptyString => false | String _ _ => true end.

(** ToBoolean. *)
Definition truthy (v : JsValue) : bool :=
  match v with
  | VUndefined | VNull => false
  | VBool b => b
  | VNumber NaN => false
  | VNumber (Inf _) => true
  | VNumber (Fin _ m _) => negb (m =? 0)%N
  | VBigInt z => negb (z =? 0)
  | VString s => nonEmpty s
  | VSymbol _ | VFunction _ | VObject _ _ => true
  end.

(** A synchronous evaluation either completes with a value or throws. *)
Inductive Completion (A : Type) : Type :=
| Normal (a : A)
| Throw (e : JsValue).
Arguments Normal {A} a.
Arguments Throw {A} e.

(** [new Error(msg)] and [new TypeError(msg)]. *)
Definition errorString (name msg : string) : string :=
  if nonEmpty msg then name ++ ": " ++ msg else name.

Definition newError (msg : string) : JsValue :=
  VObject [("name", VString "Error"); ("message", VString msg)]
          (Some (errorString "Error" msg)).

Definition newTypeError (msg : string) : JsValue :=
  VObject [("name", VString "TypeError"); ("message", VString msg)]
          (Some (errorString "TypeError" msg)).

Fixpoint assoc (k : string) (ps : list (string * JsValue)) : option JsValue :=
  match ps with
  | [] => None
  | (k', v) :: ps' => if String.eqb k k' then Some v else assoc k ps'
  end.

(** [k in v], for [v] an object; the callers test [typeof v === 'object']
    and truthiness first, so the [TypeError] of [in] on a primitive is never
    reached. *)
Definition hasProperty (k : string) (v : JsValue) : bool :=
  match v with
  | VObject ps _ => match assoc k ps with Some _ => true | None => false end
  | _ => false
  end.

(** [v.k]: throws on [undefined] and [null], [undefined] on a missing
    property or on a primitive (none of the keys read by this program is a
    property of a primitive's prototype). *)
Definition getProperty (k : string) (v : JsValue) : Completion JsValue :=
  match v with
  | VUndefined =>
      Throw (newTypeError ("Cannot read properties of undefined (reading '" ++ k ++ "')"))
  | VNull =>
      Throw (newTypeError ("Cannot read properties of null (reading '" ++ k ++ "')"))
  | VObject ps _ => Normal (match assoc k ps with Some x => x | None => VUndefined end)
  | _ => Normal VUndefined
  end.

(** [v.k] where [v] is known not to be nullish. *)
Definition prop (k : string) (v : JsValue) : JsValue :=
  match getProperty k v with Normal x => x | Throw _ => VUndefined end.

Definition convert (conv : option string) : Completion string :=
  match conv with
  | Some s => Normal s
  | None => Throw (newTypeError "Cannot convert object to primitive value")
  end.

(** [String(v)]. *)
Definition toStringCall (v : JsValue) : Completion string :=
  match v with
  | VUndefined => Normal "undefined"
  | VNull => Normal "null"
  | VBool true => Normal "true"
  | VBool false => Normal "false"
  | VNumber x => Normal (numToString x)
  | VBigInt z => Normal (bigintToString z)
  | VString s => Normal s
  | VSymbol d => Normal ("Symbol(" ++ d ++ ")")
  | VFunction c => convert c
  | VObject _ c => convert c
  end.

(** The conversion of a template literal [`${v}`]: as [String(v)], except
    that a symbol throws. *)
Definition toStringTemplate (v : JsValue) : Completion string :=
  match v with
  | VSymbol _ => Throw (newTypeError "Cannot convert a Symbol value to a string")
  | _ => toStringCall v
  end.

(** ** Parsing numbers *)

(** StrWhiteSpaceChar, for the code points below 128 (the others take
    several bytes in a string of bytes and are not treated as blanks). *)
Definition isWhite (c : ascii) : bool :=
  let n := N_of_ascii c in
  ((9 <=? n) && (n <=? 13) || (n =? 32))%N.

Fixpoint skipWhite (s : string) : string :=
  match s with
  | String c s' => if isWhite c then skipWhite s' else s
  | EmptyString => s
  end.

Definition digitValue (c : ascii) : option N :=
  let n := N_of_ascii c in
  (if (48 <=? n) && (n <=? 57) then Some (n - 48)
   else if (97 <=? n) && (n <=? 122) then Some (n - 87)
   else if (65 <=? n) && (n <=? 90) then Some (n - 55)
   else None)%N.

(** The longest prefix of digits of the radix, as a number; [acc] is [None]
    until a first digit is read. *)
Fixpoint readDigits (radix : N) (s : string) (acc : option N) : option N * string :=
  match s with
  | String c s' =>
      match digitValue c with
      | Some d =>
          if (d <? radix)%N
          then readDigits radix s' (Some (match acc with Some a => a * radix + d | None => d end)%N)
          else (acc, s)
      | None => (acc, s)
      end
  | EmptyString => (acc, s)
  end.

Definition readSign (s : string) : bool * string :=
  match s with
  | String "-" s' => (true, s')
  | String "+" s' => (false, s')
  | _ => (false, s)
  end.

Definition stripHexPrefix (s : string) : option string :=
  match s with
  | String "0" (String "x" s') => Some s'
  | String "0" (String "X" s') => Some s'
  | _ => None
  end.

(** [parseInt(s, radix)]; [radix = None] is a call without a radix.  The
    result is [None] for [NaN].  The integer read is returned as it is (it is
    exact below 2^53). *)
Definition parseInt (s : string) (radix : option Z) : option Z :=
  let '(neg, s1) := readSign (skipWhite s) in
  let r := match radix with None => 0 | Some r => r end in
  if negb (r =? 0) && ((r <? 2) || (36 <? r)) then None
  else
    let '(r, s2) :=
      if (r =? 0) || (r =? 16)
      then match stripHexPrefix s1 with
           | Some s' => (16, s')
           | None => (if r =? 0 then 10 else r, s1)
           end
      else (r, s1) in
    match fst (readDigits (Z.to_N r) s2 None) with
    | Some n => Some (if neg then - Z.of_N n else Z.of_N n)
    | None => None
    end.

(** Strip the trailing zeros of a mantissa. *)
Fixpoint strip10 (fuel : nat) (m : N) (e : Z) : N * Z :=
  match fuel with
  | O => (m, e)
  | S f => if ((0 <? m) && (m mod 10 =? 0))%N then strip10 f (m / 10)%N (e + 1) else (m, e)
  end.

Definition normalize (neg : bool) (m : N) (e : Z) : JsNum :=
  if (m =? 0)%N then Fin neg 0 0
  else let '(m', e') := strip10 (N.to_nat (N.size m)) m e in Fin neg m' e'.

Definition ofZ (z : Z) : JsNum := normalize (z <? 0) (Z.abs_N z) 0.

(** The digits of a decimal fraction: the number read and how many digits
    were read. *)
Fixpoint readFraction (s : string) (acc : N) (len : Z) : N * Z * string :=
  match s with
  | String c s' =>
      match digitValue c with
      | Some d => if (d <? 10)%N then readFraction s' (acc * 10 + d)%N (len + 1)
                  else (acc, len, s)
      | None => (acc, len, s)
      end
  | EmptyString => (acc, len, s)
  end.

(** An exponent part [e], [e+] or [e-] followed by digits; 0 when there is
    none (an [e] without digits is not part of the literal). *)
Definition readExponent (s : string) : Z :=
  match s with
  | String c s' =>
      if (Ascii.eqb c "e" || Ascii.eqb c "E")%bool then
        let '(neg, s1) := readSign s' in
        match fst (readDigits 10 s1 None) with
        | Some n => if neg then - Z.of_N n else Z.of_N n
        | None => 0
        end
      else 0
  | EmptyString => 0
  end.

Definition startsWith (p s : string) : bool := String.prefix p s.

(** [parseFloat(s)]: the longest prefix of the trimmed string that is a
    StrDecimalLiteral, [NaN] when there is none. *)
Definition parseFloat (s : string) : JsNum :=
  let '(neg, s1) := readSign (skipWhite s) in
  if startsWith "Infinity" s1 then Inf neg
  else
    let '(int, s2) := readDigits 10 s1 None in
    match s2 with
    | String "." s3 =>
        let '(frac, len, s4) := readFraction s3 0%N 0 in
        match int, (len =? 0) with
        | None, true => NaN
        | _, _ =>
            let i := match int with Some i => i | None => 0%N end in
            normalize neg (i * 10 ^ Z.to_N len + frac)%N (readExponent s4 - len)
        end
    | _ =>
        match int with
        | Some i => normalize neg i (readExponent s2)
        | None => NaN
        end
    end.

End Js.

(* ===================================================================== *)
(** * The error normaliser *)
(* ===================================================================== *)

Module Errors.
Import Js.

(** The gapi block of [extractErrorMessage]: [Normal (Some m)] when the block
    returns [m], [Normal None] when control falls through to the next test,
    [Throw] when reading [gapiError.message] throws. *)
Definition gapiMessage (error : JsValue) : Completion (option JsValue) :=
  if hasProperty "result" error
     && truthy (prop "result" error)
     && isObjectType (prop "result" error)
     && hasProperty "error" (prop "result" error)
  then
    let gapiError := prop "error" (prop "result" error) in
    match getProperty "message" gapiError with
    | Throw e => Throw e
    | Normal m => Normal (if truthy m then Some m else None)
    end
  else Normal None.

Definition stringOf (error : JsValue) : Completion JsValue :=
  match toStringCall error with
  | Normal s => Normal (VString s)
  | Throw e => Throw e
  end.

(** The tests after the gapi block. *)
Definition standardMessage (error : JsValue) : Completion JsValue :=
  if hasProperty "message" error && isStringType (prop "message" error)
  then Normal (prop "message" error)
  else if hasProperty "statusText" error && isStringType (prop "statusText" error)
  then Normal (prop "statusText" error)
  else stringOf error.

Definition extractErrorMessage (error : JsValue) : Completion JsValue :=
  if negb (truthy error) || negb (isObjectType error) then stringOf error
  else
    match gapiMessage error with
    | Throw e => Throw e
    | Normal (Some m) => Normal m
    | Normal None => standardMessage error
    end.

End Errors.

(* ===================================================================== *)
(** * authService.ts *)
(* ===================================================================== *)

Module AuthService.
Import Js.

(** [STORAGE_KEYS]. *)
Definition ACCESS_TOKEN : string := "google_access_token".
Definition EXPIRES_AT : string := "google_token_expires_at".
Definition SHEET_ID : string := "google_sheet_id".

Inductive PromiseState : Type :=
| Pending
| Resolved
| Rejected (e : JsValue).

(** Where the body of the executor of [initPromise] stands: at its first
    [await] (for gapi), at its second (for Google Identity Services), or
    finished (normally or through its [catch]). *)
Inductive OuterPhase : Type := AwaitingGapi | AwaitingGis | OuterDone.

(** Where the callback given to [gapi.load] stands: not registered yet,
    registered or running (at one of its three [await]s), or finished. *)
Inductive InnerPhase : Type := NotLoaded | Loading | InnerDone.

(** One run of the executor: the promise it settles and its two threads of
    control. *)
Record Bootstrap : Type := mkBootstrap {
  settled : PromiseState;
  outer : OuterPhase;
  inner : InnerPhase;
}.

(** What the module does to the outside world besides storage. *)
Inductive Effect : Type :=
| RequestAccessToken (prompt : string)
| Revoke (token : string).

(** The module's globals, [localStorage], the token attached to the gapi
    client, and the bootstraps started so far; a promise is named by the
    position of its bootstrap in [boots]. *)
Record State : Type := mkState {
  localStorage : gmap string string;
  tokenClient : bool;             (* tokenClient !== null *)
  gapiInited : bool;
  gisInited : bool;
  initPromise : option nat;
  boots : list Bootstrap;
  gapiToken : option string;      (* gapi.client.getToken() *)
  effects : list Effect;
}.

Definition initial : State :=
  {| localStorage := ∅; tokenClient := false; gapiInited := false;
     gisInited := false; initPromise := None; boots := [];
     gapiToken := None; effects := [] |}.

Definition setBoots (bs : list Bootstrap) (s : State) : State :=
  {| localStorage := localStorage s; tokenClient := tokenClient s;
     gapiInited := gapiInited s; gisInited := gisInited s;
     initPromise := initPromise s; boots := bs;
     gapiToken := gapiToken s; effects := effects s |}.

Definition setInitPromise (p : option nat) (s : State) : State :=
  {| localStorage := localStorage s; tokenClient := tokenClient s;
     gapiInited := gapiInited s; gisInited := gisInited s;
     initPromise := p; boots := boots s;
     gapiToken := gapiToken s; effects := effects s |}.

Definition setGapiInited (s : State) : State :=
  {| localStorage := localStorage s; tokenClient := tokenClient s;
     gapiInited := true; gisInited := gisInited s;
     initPromise := initPromise s; boots := boots s;
     gapiToken := gapiToken s; effects := effects s |}.

Definition setGisInited (s : State) : State :=
  {| localStorage := localStorage s; tokenClient := true;
     gapiInited := gapiInited s; gisInited := true;
     initPromise := initPromise s; boots := boots s;
     gapiToken := gapiToken s; effects := effects s |}.

Definition setStorage (m : gmap string string) (s : State) : State :=
  {| localStorage := m; tokenClient := tokenClient s;
     gapiInited := gapiInited s; gisInited := gisInited s;
     initPromise := initPromise s; boots := boots s;
     gapiToken := gapiToken s; effects := effects s |}.

(** [gapi.client.setToken]. *)
Definition setToken (t : option string) (s : State) : State :=
  {| localStorage := localStorage s; tokenClient := tokenClient s;
     gapiInited := gapiInited s; gisInited := gisInited s;
     initPromise := initPromise s; boots := boots s;
     gapiToken := t; effects := effects s |}.

Definition emit (f : Effect) (s : State) : State :=
  {| localStorage := localStorage s; tokenClient := tokenClient s;
     gapiInited := gapiInited s; gisInited := gisInited s;
     initPromise := initPromise s; boots := boots s;
     gapiToken := gapiToken s; effects := (effects s ++ [f])%list |}.

(** ** initializeGoogleApi *)

(** [resolve()] and [reject(e)] of a promise: no effect once it is settled. *)
Definition settle (o : PromiseState) (b : Bootstrap) : Bootstrap :=
  match settled b with
  | Pending => {| settled := o; outer := outer b; inner := inner b |}
  | _ => b
  end.

Definition setOuter (ph : OuterPhase) (b : Bootstrap) : Bootstrap :=
  {| settled := settled b; outer := ph; inner := inner b |}.

Definition setInner (ph : InnerPhase) (b : Bootstrap) : Bootstrap :=
  {| settled := settled b; outer := outer b; inner := ph |}.

Definition updBoot (p : nat) (f : Bootstrap -> Bootstrap) (s : State) : State :=
  setBoots (alter f p (boots s)) s.

(** [checkReady] of bootstrap [p]. *)
Definition checkReady (p : nat) (s : State) : State :=
  if gapiInited s && gisInited s then updBoot p (settle Resolved) s else s.

(** What a caller of [initializeGoogleApi] is handed: the promise of a
    bootstrap, or [Promise.resolve()]. *)
Inductive Handle : Type :=
| OfBootstrap (p : nat)
| Immediate.

(** A call of [initializeGoogleApi()], up to the first [await] of the
    executor it may start. *)
Definition initializeGoogleApi (s : State) : Handle * State :=
  match initPromise s with
  | Some p => (OfBootstrap p, s)
  | None =>
      if gapiInited s && gisInited s then (Immediate, s)
      else
        let p := length (boots s) in
        (OfBootstrap p,
         setInitPromise (Some p)
           (setBoots (boots s ++ [mkBootstrap Pending AwaitingGapi NotLoaded]) s))
  end.

(** What resumes a suspended bootstrap [p]. *)
Inductive Event : Type :=
| GapiReady (p : nat)                    (* the wait for gapi resolved *)
| GapiFailed (p : nat) (e : JsValue)     (* it rejected, or gapi.load threw *)
| ClientReady (p : nat)                  (* init and both loads resolved *)
| ClientFailed (p : nat) (e : JsValue)   (* one of the three rejected *)
| GisReady (p : nat)                     (* the wait for GIS resolved *)
| GisFailed (p : nat) (e : JsValue).     (* it rejected, or initTokenClient threw *)

Definition outerAt (p : nat) (s : State) : option OuterPhase := outer <$> boots s !! p.
Definition innerAt (p : nat) (s : State) : option InnerPhase := inner <$> boots s !! p.
Definition promiseAt (p : nat) (s : State) : option PromiseState := settled <$> boots s !! p.

(** The [catch] of the executor. *)
Definition outerCatch (p : nat) (e : JsValue) (s : State) : State :=
  updBoot p (fun b => setOuter OuterDone (settle (Rejected e) b)) (setInitPromise None s).

(** An event that does not match the phase of its bootstrap cannot occur and
    leaves the state as it is. *)
Definition step (ev : Event) (s : State) : State :=
  match ev with
  | GapiReady p =>
      match outerAt p s with
      | Some AwaitingGapi => updBoot p (fun b => setInner Loading (setOuter AwaitingGis b)) s
      | _ => s
      end
  | GapiFailed p e =>
      match outerAt p s with
      | Some AwaitingGapi => outerCatch p e s
      | _ => s
      end
  | ClientReady p =>
      match innerAt p s with
      | Some Loading => checkReady p (updBoot p (setInner InnerDone) (setGapiInited s))
      | _ => s
      end
  | ClientFailed p e =>
      match innerAt p s with
      | Some Loading => updBoot p (fun b => setInner InnerDone (settle (Rejected e) b)) s
      | _ => s
      end
  | GisReady p =>
      match outerAt p s with
      | Some AwaitingGis => checkReady p (updBoot p (setOuter OuterDone) (setGisInited s))
      | _ => s
      end
  | GisFailed p e =>
      match outerAt p s with
      | Some AwaitingGis => outerCatch p e s
      | _ => s
      end
  end.

(** A history: calls of [initializeGoogleApi] interleaved with events. *)
Inductive Action : Type :=
| Call
| Occur (ev : Event).

Definition act (a : Action) (s : State) : State :=
  match a with
  | Call => snd (initializeGoogleApi s)
  | Occur ev => step ev s
  end.

Definition run (h : list Action) (s : State) : State := fold_left (fun s a => act a s) h s.

(** [n] calls in a row: the handles, in order, and the final state. *)
Fixpoint calls (n : nat) (s : State) : list Handle * State :=
  match n with
  | O => ([], s)
  | S k =>
      let '(h, s1) := initializeGoogleApi s in
      let '(hs, s2) := calls k s1 in
      (h :: hs, s2)
  end.

(** The number of bootstraps started so far. *)
Definition started (s : State) : nat := length (boots s).

(** An initialization is in flight on promise [p]. *)
Definition inFlight (p : nat) (s : State) : Prop := promiseAt p s = Some Pending.

(** The outcome a holder of the handle observes in state [s]. *)
Definition observe (h : Handle) (s : State) : option PromiseState :=
  match h with
  | OfBootstrap p => promiseAt p s
  | Immediate => Some Resolved
  end.

(** ** Sessions *)

Definition getItem (k : string) (s : State) : option string := localStorage s !! k.

Definition setItem (k v : string) (s : State) : State :=
  setStorage (<[k := v]> (localStorage s)) s.

Definition removeItem (k : string) (s : State) : State :=
  setStorage (delete k (localStorage s)) s.

(** Truthiness of what [getItem] returned ([null] or a string). *)
Definition present (o : option string) : bool :=
  match o with Some v => nonEmpty v | None => false end.

(** [a < b] on numbers that are integers or [NaN]. *)
Definition ltNum (a b : option Z) : bool :=
  match a, b with
  | Some x, Some y => x <? y
  | _, _ => false
  end.

(** [n.toString()] on an integer or [NaN]. *)
Definition intToString (n : option Z) : string :=
  match n with
  | Some z => numToString (ofZ z)
  | None => "NaN"
  end.

Definition storeTokens (accessToken : string) (expiresAt : option Z) (s : State) : State :=
  setItem EXPIRES_AT (intToString expiresAt) (setItem ACCESS_TOKEN accessToken s).

Definition clearStoredTokens (s : State) : State :=
  removeItem SHEET_ID (removeItem EXPIRES_AT (removeItem ACCESS_TOKEN s)).

Definition storeSheetId (sheetId : string) (s : State) : State := setItem SHEET_ID sheetId s.
Definition getStoredSheetId (s : State) : option string := getItem SHEET_ID s.
Definition clearSheetId (s : State) : State := removeItem SHEET_ID s.

(** How the promise of an asynchronous function ends. *)
Inductive Settled (A : Type) : Type :=
| Fulfilled (a : A)
| Failed (e : JsValue)
| Never.
Arguments Fulfilled {A} a.
Arguments Failed {A} e.
Arguments Never {A}.

(** The fields of [TokenResponse] that [signIn] reads. *)
Record TokenResponse : Type := mkTokenResponse {
  access_token : string;
  expires_in : string;
  error : option string;
}.

(** What [signIn] meets: the clock when its executor runs, and the response
    the consent flow hands to the callback together with the clock at that
    moment; [None] when the callback is never invoked. *)
Record SignInEnv : Type := mkSignInEnv {
  checkTime : Z;
  flow : option (Z * TokenResponse);
}.

Definition signIn (env : SignInEnv) (s : State) : Settled unit * State :=
  if negb (tokenClient s) then (Failed (newError "Google Auth not initialized"), s)
  else
    let storedToken := getItem ACCESS_TOKEN s in
    let expiresAt := getItem EXPIRES_AT s in
    if present storedToken && present expiresAt
       && ltNum (Some (checkTime env)) (parseInt (default "" expiresAt) None)
    then (Fulfilled tt, setToken storedToken s)
    else
      let s1 := emit (RequestAccessToken "") s in
      match flow env with
      | None => (Never, s1)
      | Some (now, response) =>
          if present (error response)
          then (Failed (newError (default "" (error response))), s1)
          else
            let expiresAt :=
              match parseInt (expires_in response) None with
              | Some n => Some (now + n * 1000)
              | None => None
              end in
            (Fulfilled tt,
             setToken (Some (access_token response))
               (storeTokens (access_token response) expiresAt s1))
      end.

(** [signOut]; [revokeThrows] is what [google.accounts.oauth2.revoke] throws
    when it is called, if it throws. *)
Definition signOut (revokeThrows : option JsValue) (s : State) : Settled unit * State :=
  match gapiToken s with
  | Some token =>
      let s1 := emit (Revoke token) s in
      match revokeThrows with
      | Some e => (Failed e, s1)
      | None => (Fulfilled tt, clearStoredTokens (setToken None s1))
      end
  | None => (Fulfilled tt, clearStoredTokens s)
  end.

Definition isAuthenticated (now : Z) (s : State) : bool :=
  let storedToken := getItem ACCESS_TOKEN s in
  let expiresAt := getItem EXPIRES_AT s in
  if negb (present storedToken) || negb (present expiresAt) then false
  else ltNum (Some now) (parseInt (default "" expiresAt) (Some 10)).

Definition getAccessToken (now : Z) (env : SignInEnv) (s : State)
  : Settled (option string) * State :=
  let storedToken := getItem ACCESS_TOKEN s in
  let expiresAt := getItem EXPIRES_AT s in
  if negb (present storedToken) || negb (present expiresAt) then (Fulfilled None, s)
  else if ltNum (Some now) (parseInt (default "" expiresAt) (Some 10))
  then (Fulfilled storedToken, s)
  else
    match signIn env s with
    | (Fulfilled _, s1) => (Fulfilled (getItem ACCESS_TOKEN s1), s1)
    | (Failed _, s1) => (Fulfilled None, s1)
    | (Never, s1) => (Never, s1)
    end.

End AuthService.

(* ===================================================================== *)
(** * The entities and their rows *)
(* ===================================================================== *)

(** [Farmacia]: the optional fields are [data]; a
    [Omit<Farmacia, 'id' | 'createdAt'>] is a [Farmacia.Data]. *)
Module Farmacia.
Import Js.

Record Data : Type := mkData {
  email : option string;
  phone : option string;
  territorio : option string;
  pais : option string;
  estado : option string;
  municipio : option string;
  colonia : option string;
  calle : option string;
  estatus : option string;
  codigoPostal : option string;
  ruta : option string;
  nombreCuenta : option string;
  plantillaClientes : option string;
  folioTienda : option string;
  cedulaProfesional : option string;
  grupoCadena : option string;
  especialidad : option string;
  categoriaMedico : option string;
  propietarioCuenta : option string;
  lat : option JsNum;
  lng : option JsNum;
  googleMapsUrl : option string;
  nombreBrick : option string;
}.

Record t : Type := mk {
  id : string;
  createdAt : string;
  data : Data;
}.

End Farmacia.

Module Medico.
Import Js.

Record Data : Type := mkData {
  email : option string;
  phone : option string;
  estado : option string;
  ciudad : option string;
  colonia : option string;
  calle : option string;
  estatus : option string;
  codigoPostal : option string;
  nombreCuenta : option string;
  especialidad : option string;
  nombreBrick : option string;
  lat : option JsNum;
  lng : option JsNum;
  googleMapsUrl : option string;
}.

Record t : Type := mk {
  id : string;
  createdAt : string;
  data : Data;
}.

End Medico.

Module Rows.
Import Js.

(** A value given to the sheet: [(string | number)]. *)
Inductive Cell : Type :=
| CStr (s : string)
| CNum (x : JsNum).

(** [row[i]]. *)
Definition at_ (row : list string) (i : nat) : option string := row !! i.
Arguments at_ row i%_nat.

(** [c || '']. *)
Definition orEmpty (c : option string) : string :=
  match c with
  | Some s => s
  | None => ""
  end.

(** [c || undefined]. *)
Definition orUndefined (c : option string) : option string :=
  match c with
  | Some s => if nonEmpty s then Some s else None
  | None => None
  end.

(** [c ? parseFloat(c) : undefined]. *)
Definition floatOrUndefined (c : option string) : option JsNum :=
  match c with
  | Some s => if nonEmpty s then Some (parseFloat s) else None
  | None => None
  end.

(** [x || ''] as a cell. *)
Definition textCell (x : option string) : Cell := CStr (orEmpty x).

(** [x ?? ''] as a cell. *)
Definition numberCell (x : option JsNum) : Cell :=
  match x with
  | Some n => CNum n
  | None => CStr ""
  end.

Definition rowToFarmacia (row : list string) : Farmacia.t :=
  {| Farmacia.id := orEmpty (at_ row 0);
     Farmacia.createdAt := orEmpty (at_ row 1);
     Farmacia.data :=
       {| Farmacia.email := orUndefined (at_ row 2);
          Farmacia.phone := orUndefined (at_ row 3);
          Farmacia.territorio := orUndefined (at_ row 4);
          Farmacia.pais := orUndefined (at_ row 5);
          Farmacia.estado := orUndefined (at_ row 6);
          Farmacia.municipio := orUndefined (at_ row 7);
          Farmacia.colonia := orUndefined (at_ row 8);
          Farmacia.calle := orUndefined (at_ row 9);
          Farmacia.estatus := orUndefined (at_ row 10);
          Farmacia.codigoPostal := orUndefined (at_ row 11);
          Farmacia.ruta := orUndefined (at_ row 12);
          Farmacia.nombreCuenta := orUndefined (at_ row 13);
          Farmacia.plantillaClientes := orUndefined (at_ row 14);
          Farmacia.folioTienda := orUndefined (at_ row 15);
          Farmacia.cedulaProfesional := orUndefined (at_ row 16);
          Farmacia.grupoCadena := orUndefined (at_ row 17);
          Farmacia.especialidad := orUndefined (at_ row 18);
          Farmacia.categoriaMedico := orUndefined (at_ row 19);
          Farmacia.propietarioCuenta := orUndefined (at_ row 20);
          Farmacia.lat := floatOrUndefined (at_ row 21);
          Farmacia.lng := floatOrUndefined (at_ row 22);
          Farmacia.googleMapsUrl := orUndefined (at_ row 23);
          Farmacia.nombreBrick := orUndefined (at_ row 24) |} |}.

Definition rowToMedico (row : list string) : Medico.t :=
  {| Medico.id := orEmpty (at_ row 0);
     Medico.createdAt := orEmpty (at_ row 1);
     Medico.data :=
       {| Medico.email := orUndefined (at_ row 2);
          Medico.phone := orUndefined (at_ row 3);
          Medico.estado := orUndefined (at_ row 4);
          Medico.ciudad := orUndefined (at_ row 5);
          Medico.colonia := orUndefined (at_ row 6);
          Medico.calle := orUndefined (at_ row 7);
          Medico.estatus := orUndefined (at_ row 8);
          Medico.codigoPostal := orUndefined (at_ row 9);
          Medico.nombreCuenta := orUndefined (at_ row 10);
          Medico.especialidad := orUndefined (at_ row 11);
          Medico.nombreBrick := orUndefined (at_ row 12);
          Medico.lat := floatOrUndefined (at_ row 13);
          Medico.lng := floatOrUndefined (at_ row 14);
          Medico.googleMapsUrl := orUndefined (at_ row 15) |} |}.

Definition farmaciaToRow (farmacia : Farmacia.t) : list Cell :=
  let d := Farmacia.data farmacia in
  [ CStr (Farmacia.id farmacia);
    CStr (Farmacia.createdAt farmacia);
    textCell (Farmacia.email d);
    textCell (Farmacia.phone d);
    textCell (Farmacia.territorio d);
    textCell (Farmacia.pais d);
    textCell (Farmacia.estado d);
    textCell (Farmacia.municipio d);
    textCell (Farmacia.colonia d);
    textCell (Farmacia.calle d);
    textCell (Farmacia.estatus d);
    textCell (Farmacia.codigoPostal d);
    textCell (Farmacia.ruta d);
    textCell (Farmacia.nombreCuenta d);
    textCell (Farmacia.plantillaClientes d);
    textCell (Farmacia.folioTienda d);
    textCell (Farmacia.cedulaProfesional d);
    textCell (Farmacia.grupoCadena d);
    textCell (Farmacia.especialidad d);
    textCell (Farmacia.categoriaMedico d);
    textCell (Farmacia.propietarioCuenta d);
    numberCell (Farmacia.lat d);
    numberCell (Farmacia.lng d);
    textCell (Farmacia.googleMapsUrl d);
    textCell (Farmacia.nombreBrick d) ].

Definition medicoToRow (medico : Medico.t) : list Cell :=
  let d := Medico.data medico in
  [ CStr (Medico.id medico);
    CStr (Medico.createdAt medico);
    textCell (Medico.email d);
    textCell (Medico.phone d);
    textCell (Medico.estado d);
    textCell (Medico.ciudad d);
    textCell (Medico.colonia d);
    textCell (Medico.calle d);
    textCell (Medico.estatus d);
    textCell (Medico.codigoPostal d);
    textCell (Medico.nombreCuenta d);
    textCell (Medico.especialidad d);
    textCell (Medico.nombreBrick d);
    numberCell (Medico.lat d);
    numberCell (Medico.lng d);
    textCell (Medico.googleMapsUrl d) ].

(** ** generateId and the timestamp *)

Definition digit36 (d : N) : ascii :=
  if (d <? 10)%N then ascii_of_N (48 + d) else ascii_of_N (87 + d).

Fixpoint toRadix36 (fuel : nat) (n : N) (acc : string) : string :=
  match fuel with
  | O => acc
  | S f =>
      let acc' := String (digit36 (n mod 36)) acc in
      if (n <? 36)%N then acc' else toRadix36 f (n / 36)%N acc'
  end.

(** [n.toString(36)] on an integer. *)
Definition toString36 (z : Z) : string :=
  (if z <? 0 then "-" else "")
  ++ toRadix36 (S (N.to_nat (N.size (Z.abs_N z)))) (Z.abs_N z) "".

(** [generateId]: [now] is [Date.now()], [random36] is
    [Math.random().toString(36)]. *)
Definition generateId (now : Z) (random36 : string) : string :=
  let timestamp := toString36 now in
  let random := substring 2 7 random36 in
  timestamp ++ "-" ++ random.

(** The instant [new Date()] holds, in UTC. *)
Record Instant : Type := mkInstant {
  year : N; month : N; day : N;
  hours : N; minutes : N; seconds : N; millis : N;
}.

Definition pad (width : nat) (n : N) : string :=
  let s := digitsOf n in
  zeros (width - String.length s) ++ s.

(** [toISOString]; a year above 9999 takes the expanded form. *)
Definition toISOString (d : Instant) : string :=
  (if (year d <=? 9999)%N then pad 4 (year d) else "+" ++ pad 6 (year d))
  ++ "-" ++ pad 2 (month d) ++ "-" ++ pad 2 (day d)
  ++ "T" ++ pad 2 (hours d) ++ ":" ++ pad 2 (minutes d) ++ ":" ++ pad 2 (seconds d)
  ++ "." ++ pad 3 (millis d) ++ "Z".

End Rows.

(* ===================================================================== *)
(** * googleSheetsService.ts *)
(* ===================================================================== *)

Module SheetsService.
Import Js Errors Rows.
Import AuthService(Settled, Fulfilled, Failed, Never, present).

Definition SHEET_TITLE : string := "representante_medico__app".
Definition FARMACIAS_TAB : string := "farmacias".
Definition MEDICOS_TAB : string := "medicos".

Definition FARMACIAS_HEADERS : list string :=
  [ "id"; "createdAt"; "email"; "phone"; "territorio"; "pais"; "estado";
    "municipio"; "colonia"; "calle"; "estatus"; "codigoPostal"; "ruta";
    "nombreCuenta"; "plantillaClientes"; "folioTienda"; "cedulaProfesional";
    "grupoCadena"; "especialidad"; "categoriaMedico"; "propietarioCuenta";
    "lat"; "lng"; "googleMapsUrl"; "nombreBrick" ].

Definition MEDICOS_HEADERS : list string :=
  [ "id"; "createdAt"; "email"; "phone"; "estado"; "ciudad"; "colonia";
    "calle"; "estatus"; "codigoPostal"; "nombreCuenta"; "especialidad";
    "nombreBrick"; "lat"; "lng"; "googleMapsUrl" ].

(** ** The remote store

    The part of Drive and Sheets the service talks to, as far as the service
    can tell them apart: the spreadsheets the credential reaches, most
    recently created first, each with its tabs as lists of rows. *)

Record Spreadsheet : Type := mkSpreadsheet {
  spreadsheetId : string;
  title : string;
  trashed : bool;
  tabs : gmap string (list (list Cell));
}.

Record Remote : Type := mkRemote {
  drive : list Spreadsheet;
  minted : N;                       (* identifiers handed out so far *)
  format : JsNum -> string;         (* how a number cell reads back *)
}.

Definition setDrive (d : list Spreadsheet) (r : Remote) : Remote :=
  {| drive := d; minted := minted r; format := format r |}.

Fixpoint lookupSheet (id : string) (d : list Spreadsheet) : option Spreadsheet :=
  match d with
  | [] => None
  | ss :: d' => if String.eqb (spreadsheetId ss) id then Some ss else lookupSheet id d'
  end.

Fixpoint updateSheet (id : string) (f : Spreadsheet -> Spreadsheet) (d : list Spreadsheet)
  : list Spreadsheet :=
  match d with
  | [] => []
  | ss :: d' => if String.eqb (spreadsheetId ss) id then f ss :: d' else ss :: updateSheet id f d'
  end.

Definition setTab (tab : string) (rows : list (list Cell)) (ss : Spreadsheet) : Spreadsheet :=
  {| spreadsheetId := spreadsheetId ss; title := title ss; trashed := trashed ss;
     tabs := <[tab := rows]> (tabs ss) |}.

(** The error values of the remote: the gapi envelope of an HTTP error. *)
Definition gapiFailure (code : N) (message status : string) : JsValue :=
  VObject
    [ ("result",
       VObject [ ("error",
                  VObject [ ("code", VNumber (ofZ (Z.of_N code)));
                            ("message", VString message);
                            ("status", VString status) ]
                          (Some "[object Object]")) ]
               (Some "[object Object]"));
      ("status", VNumber (ofZ (Z.of_N code))) ]
    (Some "[object Object]").

Definition notFound : JsValue :=
  gapiFailure 404 "Requested entity was not found." "NOT_FOUND".

Definition badRange (tab : string) : JsValue :=
  gapiFailure 400 ("Unable to parse range: " ++ tab) "INVALID_ARGUMENT".

(** [drive.files.list] with the query of [findExistingSheet]: the
    identifiers of the spreadsheets of that name that are not trashed. *)
Definition listFiles (name : string) (r : Remote) : list string :=
  spreadsheetId <$> filter (fun ss => title ss = name ∧ trashed ss = false) (drive r).

(** [spreadsheets.create]: a new spreadsheet with empty tabs. *)
Definition createFile (name : string) (tabNames : list string) (r : Remote) : string * Remote :=
  let id := "sheet-" ++ digitsOf (minted r) in
  (id,
   {| drive := {| spreadsheetId := id; title := name; trashed := false;
                  tabs := list_to_map ((fun t => (t, [])) <$> tabNames) |} :: drive r;
      minted := minted r + 1;
      format := format r |}).

(** Writing one row of values at [A1]. *)
Definition writeFirstRow (values : list Cell) (rows : list (list Cell)) : list (list Cell) :=
  match rows with
  | [] => [values]
  | r :: rest => (values ++ drop (length values) r)%list :: rest
  end.

(** [values.batchUpdate] of first rows; nothing is written unless every
    range exists. *)
Fixpoint writeFirstRows (data : list (string * list Cell)) (ss : Spreadsheet)
  : Completion Spreadsheet :=
  match data with
  | [] => Normal ss
  | (tab, values) :: rest =>
      match tabs ss !! tab with
      | Some rows => writeFirstRows rest (setTab tab (writeFirstRow values rows) ss)
      | None => Throw (badRange tab)
      end
  end.

Definition batchUpdate (id : string) (data : list (string * list Cell)) (r : Remote)
  : Completion Remote :=
  match lookupSheet id (drive r) with
  | None => Throw notFound
  | Some ss =>
      match writeFirstRows data ss with
      | Normal ss' => Normal (setDrive (updateSheet id (fun _ => ss') (drive r)) r)
      | Throw e => Throw e
      end
  end.

Definition renderCell (fmt : JsNum -> string) (c : Cell) : string :=
  match c with
  | CStr s => s
  | CNum x => fmt x
  end.

(** A range read leaves out the empty cells that end a row and the empty
    rows that end the range. *)
Fixpoint trimRow (row : list string) : list string :=
  match row with
  | [] => []
  | c :: row' =>
      match trimRow row' with
      | [] => if nonEmpty c then [c] else []
      | t => c :: t
      end
  end.

Fixpoint trimRows (rows : list (list string)) : list (list string) :=
  match rows with
  | [] => []
  | r :: rows' =>
      match trimRows rows' with
      | [] => match r with [] => [] | _ => [r] end
      | t => r :: t
      end
  end.

(** [values.get] on [tab!A2:Z]. *)
Definition readFromRow2 (id tab : string) (r : Remote) : Completion (list (list string)) :=
  match lookupSheet id (drive r) with
  | None => Throw notFound
  | Some ss =>
      match tabs ss !! tab with
      | None => Throw (badRange tab)
      | Some rows =>
          Normal (trimRows ((fun row => trimRow (renderCell (format r) <$> row)) <$> drop 1 rows))
      end
  end.

(** [values.append] on [tab!A:Z]: the row goes below the rows of the tab. *)
Definition appendRow (id tab : string) (row : list Cell) (r : Remote) : Completion Remote :=
  match lookupSheet id (drive r) with
  | None => Throw notFound
  | Some ss =>
      match tabs ss !! tab with
      | None => Throw (badRange tab)
      | Some rows =>
          Normal (setDrive (updateSheet id (setTab tab (rows ++ [row])%list) (drive r)) r)
      end
  end.

(** [spreadsheets.get]. *)
Definition getFile (id : string) (r : Remote) : Completion unit :=
  match lookupSheet id (drive r) with
  | None => Throw notFound
  | Some _ => Normal tt
  end.

(** ** The world

    Each primitive that depends on the outside reads the oracle at the
    current tick and advances the tick. *)

Inductive Disposition : Type :=
| Served                      (* the request reaches the store *)
| Refused (e : JsValue)       (* the request is rejected with [e] *)
| Unanswered.                 (* the request never settles *)

Record Oracle : Type := mkOracle {
  clock : Z;                              (* Date.now() *)
  signInEnv : AuthService.SignInEnv;      (* what a sign-in would meet *)
  disposition : Disposition;              (* the fate of a remote request *)
  random36 : string;                      (* Math.random().toString(36) *)
  instant : Instant;                      (* new Date() *)
}.

Inductive Tier : Type := Verify | Search | Create.

(** How a tier ended: with a handle, with no match, with a failure, or not
    at all. *)
Inductive TierOutcome : Type :=
| Yielded (id : string)
| NoMatch
| Broke (e : JsValue)
| Stalled.

Record World : Type := mkWorld {
  auth : AuthService.State;
  remote : Remote;
  oracle : nat -> Oracle;
  tick : nat;
  tiers : list (Tier * TierOutcome);      (* ghost: the tiers entered, in order *)
}.

Definition M (A : Type) : Type := World -> Settled A * World.

Definition ret {A} (a : A) : M A := fun w => (Fulfilled a, w).
Definition throw {A} (e : JsValue) : M A := fun w => (Failed e, w).

Definition bind {A B} (m : M A) (k : A -> M B) : M B :=
  fun w =>
    match m w with
    | (Fulfilled a, w1) => k a w1
    | (Failed e, w1) => (Failed e, w1)
    | (Never, w1) => (Never, w1)
    end.

(** [try { m } catch (error) { h error }]. *)
Definition catch {A} (m : M A) (h : JsValue -> M A) : M A :=
  fun w =>
    match m w with
    | (Failed e, w1) => h e w1
    | r => r
    end.

Notation "'let!' x := m 'in' k" := (bind m (fun x => k))
  (at level 10, x name, m at level 200, k at level 200).
Notation "m ;;; k" := (bind m (fun _ => k))
  (at level 100, k at level 200, right associativity).

Definition lift {A} (c : Completion A) : M A :=
  match c with
  | Normal a => ret a
  | Throw e => throw e
  end.

Definition tock : M Oracle :=
  fun w =>
    (Fulfilled (oracle w (tick w)),
     {| auth := auth w; remote := remote w; oracle := oracle w;
        tick := S (tick w); tiers := tiers w |}).

Definition setAuth (a : AuthService.State) (w : World) : World :=
  {| auth := a; remote := remote w; oracle := oracle w; tick := tick w; tiers := tiers w |}.

Definition setRemote (r : Remote) (w : World) : World :=
  {| auth := auth w; remote := r; oracle := oracle w; tick := tick w; tiers := tiers w |}.

Definition note (t : Tier) (o : TierOutcome) (w : World) : World :=
  {| auth := auth w; remote := remote w; oracle := oracle w; tick := tick w;
     tiers := (tiers w ++ [(t, o)])%list |}.

(** A request to the remote store. *)
Definition request {A} (serve : Remote -> Completion (A * Remote)) : M A :=
  let! o := tock in
  match disposition o with
  | Refused e => throw e
  | Unanswered => fun w => (Never, w)
  | Served =>
      fun w =>
        match serve (remote w) with
        | Normal (a, r) => (Fulfilled a, setRemote r w)
        | Throw e => (Failed e, w)
        end
  end.

Definition getAccessToken : M (option string) :=
  let! o := tock in
  fun w =>
    let '(r, a) := AuthService.getAccessToken (clock o) (signInEnv o) (auth w) in
    (r, setAuth a w).

Definition getStoredSheetId : M (option string) :=
  fun w => (Fulfilled (AuthService.getStoredSheetId (auth w)), w).

Definition storeSheetId (sheetId : string) : M unit :=
  fun w => (Fulfilled tt, setAuth (AuthService.storeSheetId sheetId (auth w)) w).

(** [catch (error) { const errorMessage = extractErrorMessage(error);
    throw new Error(`<prefix>${errorMessage}`) }]. *)
Definition rethrow {A} (prefix : string) (error : JsValue) : M A :=
  let! errorMessage := lift (extractErrorMessage error) in
  let! text := lift (toStringTemplate errorMessage) in
  throw (newError (prefix ++ text)).

Definition ensureAuthenticated : M unit :=
  let! accessToken := getAccessToken in
  if negb (present accessToken) then throw (newError "Not authenticated")
  else fun w => (Fulfilled tt, setAuth (AuthService.setToken accessToken (auth w)) w).

Definition findExistingSheet : M (option string) :=
  ensureAuthenticated ;;;
  catch
    (let! files := request (fun r => Normal (listFiles SHEET_TITLE r, r)) in
     match files with
     | first :: _ => ret (if nonEmpty first then Some first else None)
     | [] => ret None
     end)
    (rethrow "Failed to search for existing sheet: ").

Definition writeHeaders (spreadsheetId : string) : M unit :=
  ensureAuthenticated ;;;
  catch
    (request (fun r =>
       match batchUpdate spreadsheetId
               [ (FARMACIAS_TAB, CStr <$> FARMACIAS_HEADERS);
                 (MEDICOS_TAB, CStr <$> MEDICOS_HEADERS) ] r with
       | Normal r' => Normal (tt, r')
       | Throw e => Throw e
       end))
    (rethrow "Failed to write headers: ").

Definition createSheet : M string :=
  ensureAuthenticated ;;;
  catch
    (let! spreadsheetId :=
       request (fun r => Normal (createFile SHEET_TITLE [FARMACIAS_TAB; MEDICOS_TAB] r)) in
     if negb (nonEmpty spreadsheetId)
     then throw (newError "Failed to create sheet - no spreadsheet ID returned")
     else (writeHeaders spreadsheetId ;;; ret spreadsheetId))
    (rethrow "Failed to create sheet: ").

Definition verifySheetExists (spreadsheetId : string) : M unit :=
  ensureAuthenticated ;;;
  catch
    (request (fun r =>
       match getFile spreadsheetId r with
       | Normal _ => Normal (tt, r)
       | Throw e => Throw e
       end))
    (rethrow ("Sheet not found or not accessible (" ++ spreadsheetId ++ "): ")).

(** Ghost: run a tier and note how it ended. *)
Definition entering {A} (t : Tier) (summary : A -> TierOutcome) (m : M A) : M A :=
  fun w =>
    match m w with
    | (Fulfilled a, w1) => (Fulfilled a, note t (summary a) w1)
    | (Failed e, w1) => (Failed e, note t (Broke e) w1)
    | (Never, w1) => (Never, note t Stalled w1)
    end.

Definition found (o : option string) : TierOutcome :=
  match o with
  | Some id => Yielded id
  | None => NoMatch
  end.

Definition initializeSheet : M string :=
  let! storedSheetId := getStoredSheetId in
  let! cached :=
    (if present storedSheetId then
       catch
         (entering Verify (fun _ => Yielded (default "" storedSheetId))
            (verifySheetExists (default "" storedSheetId)) ;;;
          ret storedSheetId)
         (fun _ => ret None)
     else ret None) in
  match cached with
  | Some id => ret id
  | None =>
      let! searched :=
        catch
          (let! existingSheetId := entering Search found findExistingSheet in
           match existingSheetId with
           | Some id => storeSheetId id ;;; ret (Some id)
           | None => ret None
           end)
          (fun _ => ret None) in
      match searched with
      | Some id => ret id
      | None =>
          catch
            (let! sheetId := entering Create Yielded createSheet in
             storeSheetId sheetId ;;;
             ret sheetId)
            throw
      end
  end.

Definition readFarmacias : M (list Farmacia.t) :=
  catch
    (let! sheetId := initializeSheet in
     ensureAuthenticated ;;;
     let! rows := request (fun r =>
               match readFromRow2 sheetId FARMACIAS_TAB r with
               | Normal rows => Normal (rows, r)
               | Throw e => Throw e
               end) in
     ret (rowToFarmacia <$> rows))
    (rethrow "Failed to read farmacias: ").

Definition readMedicos : M (list Medico.t) :=
  catch
    (let! sheetId := initializeSheet in
     ensureAuthenticated ;;;
     let! rows := request (fun r =>
               match readFromRow2 sheetId MEDICOS_TAB r with
               | Normal rows => Normal (rows, r)
               | Throw e => Throw e
               end) in
     ret (rowToMedico <$> rows))
    (rethrow "Failed to read medicos: ").

(** [generateId()] then [new Date().toISOString()]. *)
Definition stamp : M (string * string) :=
  let! o := tock in
  ret (generateId (clock o) (random36 o), toISOString (instant o)).

Definition writeFarmacia (farmacia : Farmacia.Data) : M Farmacia.t :=
  catch
    (let! sheetId := initializeSheet in
     ensureAuthenticated ;;;
     let! ids := stamp in
     let newFarmacia :=
       {| Farmacia.id := fst ids; Farmacia.createdAt := snd ids;
          Farmacia.data := farmacia |} in
     let row := farmaciaToRow newFarmacia in
     request (fun r =>
       match appendRow sheetId FARMACIAS_TAB row r with
       | Normal r' => Normal (tt, r')
       | Throw e => Throw e
       end) ;;;
     ret newFarmacia)
    (rethrow "Failed to write farmacia: ").

Definition writeMedico (medico : Medico.Data) : M Medico.t :=
  catch
    (let! sheetId := initializeSheet in
     ensureAuthenticated ;;;
     let! ids := stamp in
     let newMedico :=
       {| Medico.id := fst ids; Medico.createdAt := snd ids;
          Medico.data := medico |} in
     let row := medicoToRow newMedico in
     request (fun r =>
       match appendRow sheetId MEDICOS_TAB row r with
       | Normal r' => Normal (tt, r')
       | Throw e => Throw e
       end) ;;;
     ret newMedico)
    (rethrow "Failed to write medico: ").

End SheetsService.

(* ===================================================================== *)
(** * The helpers around the two services *)
(* ===================================================================== *)

(** [waitForGlobal] of [authService.ts]. *)
Module Waiting.
Import Js AuthService(PromiseState, Pending, Resolved, Rejected).

(** What one firing of the interval meets: the result of [check()] and, when
    the check fails, the clock [Date.now()] gives. *)
Record Firing : Type := mkFiring {
  ready : bool;
  clockAt : Z;
}.

(** The promise after the firings that have taken place: a firing whose
    check holds resolves it; one whose check fails later than [timeout]
    after the start rejects it; the interval is cleared in both cases, and
    runs on otherwise. *)
Fixpoint poll (name : string) (timeout startTime : Z) (firings : list Firing) : PromiseState :=
  match firings with
  | [] => Pending
  | f :: rest =>
      if ready f then Resolved
      else if timeout <? clockAt f - startTime
      then Rejected (newError ("Timeout waiting for " ++ name ++ " to load"))
      else poll name timeout startTime rest
  end.

(** [waitForGlobal(name, check, timeout = 10000)]; [None] is a call without
    the third argument. *)
Definition waitForGlobal (name : string) (timeout : option Z) (startTime : Z)
    (firings : list Firing) : PromiseState :=
  poll name (default 10000 timeout) startTime firings.

End Waiting.

(** [getSheetUrl] of [googleSheetsService.ts]. *)
Module SheetLink.
Import Js.

Definition getSheetUrl (s : AuthService.State) : option string :=
  let sheetId := AuthService.getStoredSheetId s in
  if AuthService.present sheetId
  then Some ("https://docs.google.com/spreadsheets/d/" ++ default "" sheetId ++ "/edit")
  else None.

End SheetLink.

(* ===================================================================== *)
(** * Statements about the error normaliser *)
(* ===================================================================== *)

Module ErrorsSpec.
Import Js Errors.

Definition plainObject (ps : list (string * JsValue)) : JsValue :=
  VObject ps (Some "[object Object]").

(** A gapi envelope whose nested error is [null]:
    [{ result: { error: null } }]. *)
Definition nullEnvelope : JsValue :=
  plainObject [("result", plainObject [("error", VNull)])].

(** [{ message: '' }]. *)
Definition emptyMessageError : JsValue := plainObject [("message", VString "")].

(** [{ code: 500 }]: an error object with none of the known fields. *)
Definition malformedError : JsValue := plainObject [("code", VNumber (ofZ 500))].

(** "The normaliser returns a non-empty string on [v]". *)
Definition returnsNonEmptyString (v : JsValue) : Prop :=
  exists s, extractErrorMessage v = Normal (VString s) /\ s <> "".

Definition isEmptyString (v : JsValue) : bool :=
  match v with
  | VString s => negb (nonEmpty s)
  | _ => false
  end.

Definition convertsToEmpty (conv : option string) : bool :=
  match conv with
  | Some s => negb (nonEmpty s)
  | None => false
  end.

(** The inputs on which the string selected after the gapi block is empty:
    the empty string itself; an object whose string-valued [message] is
    empty, or which has no string-valued [message] and an empty string-valued
    [statusText], or which has neither and converts to the empty string; a
    function that converts to the empty string. *)
Definition selectsEmpty (v : JsValue) : bool :=
  match v with
  | VString s => negb (nonEmpty s)
  | VFunction c => convertsToEmpty c
  | VObject _ c =>
      if hasProperty "message" v && isStringType (prop "message" v)
      then isEmptyString (prop "message" v)
      else if hasProperty "statusText" v && isStringType (prop "statusText" v)
      then isEmptyString (prop "statusText" v)
      else convertsToEmpty c
  | _ => false
  end.

End ErrorsSpec.

(* ===================================================================== *)
(** * Statements about authService.ts *)
(* ===================================================================== *)

Module AuthSpec.
Import Js AuthService.

(** The state of the module when the page has just loaded, with whatever
    [localStorage] kept from earlier visits. *)
Definition pageLoad (storage : gmap string string) : State := setStorage storage initial.

(** A bootstrap that can still act on the globals or be waited for. *)
Definition live (b : Bootstrap) : Prop := settled b = Pending \/ outer b <> OuterDone.

(** What holds of every state a history of calls and events leads to. *)
Record Consistent (s : State) : Prop := mkConsistent {
  live_is_current :
    forall p b, boots s !! p = Some b -> live b -> initPromise s = Some p;
  gis_is_final :
    gisInited s = true ->
    is_Some (initPromise s)
    /\ forall p b, boots s !! p = Some b -> outer b = OuterDone;
  resolved_is_current :
    forall p b, boots s !! p = Some b -> settled b = Resolved ->
    initPromise s = Some p /\ gisInited s = true;
}.

(** An initialization has succeeded: some bootstrap resolved its promise. *)
Definition succeeded (p : nat) (s : State) : Prop := promiseAt p s = Some Resolved.

(** The three persisted entries are gone. *)
Definition cleared (s : State) : Prop :=
  getItem ACCESS_TOKEN s = None
  /\ getItem EXPIRES_AT s = None
  /\ getItem SHEET_ID s = None.

(** A signed-in session with a resolved sheet, as [signOut] may find it. *)
Definition signedIn : State :=
  setToken (Some "ya29.token")
    (storeSheetId "sheet-0" (storeTokens "ya29.token" (Some 1730003600000)
       (setGisInited (pageLoad ∅)))).

Definition revokeError : JsValue := newError "revoke is not a function".

Definition loadError : JsValue := newError "gapi.client.init failed".

(** The history that meets the failure inside the [gapi.load] callback:
    a call, gapi becomes available, the client initialization rejects. *)
Definition clientFailure (e : JsValue) : list Action :=
  [Call; Occur (GapiReady 0); Occur (ClientFailed 0 e)].

(** The failure in the executor itself: the wait for gapi rejects. *)
Definition waitFailure (e : JsValue) : list Action :=
  [Call; Occur (GapiFailed 0 e)].

(** A sign-in environment whose consent flow answers with a token. *)
Definition grants (now : Z) (token : string) : SignInEnv :=
  mkSignInEnv now (Some (now, mkTokenResponse token "3600" None)).

(** A sign-in environment whose consent flow reports an error. *)
Definition denies (now : Z) : SignInEnv :=
  mkSignInEnv now (Some (now, mkTokenResponse "" "" (Some "access_denied"))).

End AuthSpec.

(* ===================================================================== *)
(** * Statements about the row mappings *)
(* ===================================================================== *)

Module RowsSpec.
Import Js Rows.

(** What a numeric field holds, given the cell it is read from: nothing for
    a missing or empty cell, the parsed number for a cell with a numeric
    prefix, [NaN] for any other cell. *)
Definition numericField (cell : option string) (field : option JsNum) : Prop :=
  (cell = None \/ cell = Some "" -> field = None)
  /\ (forall s, cell = Some s -> s <> "" -> parseFloat s <> NaN ->
      field = Some (parseFloat s))
  /\ (forall s, cell = Some s -> s <> "" -> parseFloat s = NaN -> field = Some NaN).

(** "The parsed number when the cell is parseable, [undefined] when it is
    absent or unparseable". *)
Definition numericFieldAsStated (cell : option string) (field : option JsNum) : Prop :=
  (forall s, cell = Some s -> parseFloat s <> NaN -> field = Some (parseFloat s))
  /\ (cell = None \/ (exists s, cell = Some s /\ parseFloat s = NaN) -> field = None).

(** A farmacias row whose [lat] cell does not start with a number. *)
Definition unparseableLat : list string :=
  (["m2r1bz7k-4fzyo82"; "2026-11-03T01:06:00.042Z"] ++ replicate 19 "" ++ ["abc"; "-99.13"])%list.

(** A medicos row read back with coordinates. *)
Definition geocodedMedico : list string :=
  (["m2r1bz7k-4fzyo82"; "2026-11-03T01:06:00.042Z"] ++ replicate 11 "" ++ ["19.4326"; "-99.1332"])%list.

Definition JsNum_eqb (a b : JsNum) : bool :=
  match a, b with
  | NaN, NaN => true
  | Inf x, Inf y => Bool.eqb x y
  | Fin n1 m1 e1, Fin n2 m2 e2 => Bool.eqb n1 n2 && (m1 =? m2)%N && (e1 =? e2)
  | _, _ => false
  end.

(** An optional text that survives the row: absent, or not empty. *)
Definition keepsText (x : option string) : bool :=
  match x with
  | Some s => nonEmpty s
  | None => true
  end.

(** An optional number that survives the row when the sheet formats
    numbers with [fmt]: absent, or read back from its formatted cell, which
    is not empty, as the same number. *)
Definition keepsNumber (fmt : JsNum -> string) (x : option JsNum) : bool :=
  match x with
  | Some n => nonEmpty (fmt n) && JsNum_eqb (parseFloat (fmt n)) n
  | None => true
  end.

Definition farmaciaTexts (d : Farmacia.Data) : list (option string) :=
  [ Farmacia.email d; Farmacia.phone d; Farmacia.territorio d; Farmacia.pais d;
    Farmacia.estado d; Farmacia.municipio d; Farmacia.colonia d; Farmacia.calle d;
    Farmacia.estatus d; Farmacia.codigoPostal d; Farmacia.ruta d;
    Farmacia.nombreCuenta d; Farmacia.plantillaClientes d; Farmacia.folioTienda d;
    Farmacia.cedulaProfesional d; Farmacia.grupoCadena d; Farmacia.especialidad d;
    Farmacia.categoriaMedico d; Farmacia.propietarioCuenta d;
    Farmacia.googleMapsUrl d; Farmacia.nombreBrick d ].

Definition medicoTexts (d : Medico.Data) : list (option string) :=
  [ Medico.email d; Medico.phone d; Medico.estado d; Medico.ciudad d;
    Medico.colonia d; Medico.calle d; Medico.estatus d; Medico.codigoPostal d;
    Medico.nombreCuenta d; Medico.especialidad d; Medico.nombreBrick d;
    Medico.googleMapsUrl d ].

(** The partial entities whose every field survives a row. *)
Definition farmaciaSurvives (fmt : JsNum -> string) (d : Farmacia.Data) : bool :=
  forallb keepsText (farmaciaTexts d)
  && keepsNumber fmt (Farmacia.lat d) && keepsNumber fmt (Farmacia.lng d).

Definition medicoSurvives (fmt : JsNum -> string) (d : Medico.Data) : bool :=
  forallb keepsText (medicoTexts d)
  && keepsNumber fmt (Medico.lat d) && keepsNumber fmt (Medico.lng d).

(** A pharmacy and a doctor as a form would submit them. *)
Definition sampleFarmacia : Farmacia.Data :=
  {| Farmacia.email := Some "contacto@farmacia.mx"; Farmacia.phone := None;
     Farmacia.territorio := Some "Centro"; Farmacia.pais := Some "Mexico";
     Farmacia.estado := Some "CDMX"; Farmacia.municipio := None;
     Farmacia.colonia := None; Farmacia.calle := Some "Av. Juarez 10";
     Farmacia.estatus := Some "Activa"; Farmacia.codigoPostal := Some "06000";
     Farmacia.ruta := None; Farmacia.nombreCuenta := Some "Farmacia Juarez";
     Farmacia.plantillaClientes := None; Farmacia.folioTienda := None;
     Farmacia.cedulaProfesional := None; Farmacia.grupoCadena := None;
     Farmacia.especialidad := None; Farmacia.categoriaMedico := None;
     Farmacia.propietarioCuenta := None;
     Farmacia.lat := Some (Fin false 194326 (-4));
     Farmacia.lng := Some (Fin true 991332 (-4));
     Farmacia.googleMapsUrl := None; Farmacia.nombreBrick := Some "BRICK-01" |}.

Definition sampleMedico : Medico.Data :=
  {| Medico.email := None; Medico.phone := Some "5550100";
     Medico.estado := Some "CDMX"; Medico.ciudad := None; Medico.colonia := None;
     Medico.calle := None; Medico.estatus := Some "Activa";
     Medico.codigoPostal := None; Medico.nombreCuenta := Some "Dra. Ruiz";
     Medico.especialidad := Some "Ortodoncia"; Medico.nombreBrick := None;
     Medico.lat := Some (Fin false 194326 (-4));
     Medico.lng := None; Medico.googleMapsUrl := None |}.

(** The same pharmacy with an empty [phone] rather than none. *)
Definition blankPhoneFarmacia : Farmacia.Data :=
  {| Farmacia.email := Some "contacto@farmacia.mx"; Farmacia.phone := Some "";
     Farmacia.territorio := Some "Centro"; Farmacia.pais := Some "Mexico";
     Farmacia.estado := Some "CDMX"; Farmacia.municipio := None;
     Farmacia.colonia := None; Farmacia.calle := Some "Av. Juarez 10";
     Farmacia.estatus := Some "Activa"; Farmacia.codigoPostal := Some "06000";
     Farmacia.ruta := None; Farmacia.nombreCuenta := Some "Farmacia Juarez";
     Farmacia.plantillaClientes := None; Farmacia.folioTienda := None;
     Farmacia.cedulaProfesional := None; Farmacia.grupoCadena := None;
     Farmacia.especialidad := None; Farmacia.categoriaMedico := None;
     Farmacia.propietarioCuenta := None;
     Farmacia.lat := Some (Fin false 194326 (-4));
     Farmacia.lng := Some (Fin true 991332 (-4));
     Farmacia.googleMapsUrl := None; Farmacia.nombreBrick := Some "BRICK-01" |}.

End RowsSpec.

(* ===================================================================== *)
(** * Statements about googleSheetsService.ts *)
(* ===================================================================== *)

Module SheetsSpec.
Import Js Rows AuthService(Settled, Fulfilled, Failed, Never, present) SheetsService.

(** ** Frames: what a computation leaves as it was *)

(** [m] relates every world to the world it leaves. *)
Definition keeps (R : relation World) {A} (m : M A) : Prop :=
  forall w, R w (snd (m w)).

Definition sameTiers : relation World := fun w w' => tiers w' = tiers w.
Definition sameRemote : relation World := fun w w' => remote w' = remote w.
Definition sameOracle : relation World := fun w w' => oracle w' = oracle w.
Definition sameFormat : relation World :=
  fun w w' => format (remote w') = format (remote w).
Definition sameSheetId : relation World :=
  fun w w' => AuthService.getStoredSheetId (auth w') = AuthService.getStoredSheetId (auth w).

(** ** The resolver *)

Definition stored (w : World) : option string := AuthService.getStoredSheetId (auth w).

(** The tiers a call of [initializeSheet] in [w] went through, and how the
    call ended. *)
Definition entered (w : World) : list (Tier * TierOutcome) :=
  drop (length (tiers w)) (tiers (snd (initializeSheet w))).

Definition outcome (w : World) : Settled string := fst (initializeSheet w).

(** How the call ends once the last tier entered, [Create], has ended. *)
Inductive AfterCreate : TierOutcome -> Settled string -> Prop :=
| created id : AfterCreate (Yielded id) (Fulfilled id)
| create_broke e : AfterCreate (Broke e) (Failed e)
| create_stalled : AfterCreate Stalled Never.

(** The tiers from [Search] on: a handle or a stall ends the call; no match
    and a failure both lead to [Create]. *)
Inductive AfterSearch : list (Tier * TierOutcome) -> Settled string -> Prop :=
| search_found id : AfterSearch [(Search, Yielded id)] (Fulfilled id)
| search_stalled : AfterSearch [(Search, Stalled)] Never
| search_no_match c r :
    AfterCreate c r -> AfterSearch [(Search, NoMatch); (Create, c)] r
| search_broke e c r :
    AfterCreate c r -> AfterSearch [(Search, Broke e); (Create, c)] r.

(** The whole ladder: [Verify] is entered exactly when a handle is cached;
    its success ends the call with that handle, its failure leads to
    [Search]. *)
Inductive WellOrdered : option string -> list (Tier * TierOutcome) -> Settled string -> Prop :=
| verified id :
    id <> "" -> WellOrdered (Some id) [(Verify, Yielded id)] (Fulfilled id)
| verify_stalled id :
    id <> "" -> WellOrdered (Some id) [(Verify, Stalled)] Never
| verify_broke id e tr r :
    id <> "" -> AfterSearch tr r -> WellOrdered (Some id) ((Verify, Broke e) :: tr) r
| not_cached cachedId tr r :
    present cachedId = false -> AfterSearch tr r -> WellOrdered cachedId tr r.

(** "Creation is invoked only when the search completes with no match". *)
Definition creationOnlyAfterNoMatch (w : World) : Prop :=
  forall c, (Create, c) ∈ entered w -> (Search, NoMatch) ∈ entered w.


(** ** Appending and reading back *)

(** The shape the two writers share. *)
Definition writeVia {E} (tab prefix : string) (complete : string * string -> E)
    (toRow : E -> list Cell) : M E :=
  catch
    (let! sheetId := initializeSheet in
     ensureAuthenticated ;;;
     let! ids := stamp in
     let newEntity := complete ids in
     let row := toRow newEntity in
     request (fun r =>
       match appendRow sheetId tab row r with
       | Normal r' => Normal (tt, r')
       | Throw e => Throw e
       end) ;;;
     ret newEntity)
    (rethrow prefix).

(** The shape the two readers share. *)
Definition readVia {E} (tab prefix : string) (ofRow : list string -> E) : M (list E) :=
  catch
    (let! sheetId := initializeSheet in
     ensureAuthenticated ;;;
     let! rows := request (fun r =>
                    match readFromRow2 sheetId tab r with
                    | Normal rows => Normal (rows, r)
                    | Throw e => Throw e
                    end) in
     ret (ofRow <$> rows))
    (rethrow prefix).

Definition completeFarmacia (d : Farmacia.Data) (ids : string * string) : Farmacia.t :=
  {| Farmacia.id := fst ids; Farmacia.createdAt := snd ids; Farmacia.data := d |}.

Definition completeMedico (d : Medico.Data) (ids : string * string) : Medico.t :=
  {| Medico.id := fst ids; Medico.createdAt := snd ids; Medico.data := d |}.

(** In the spreadsheet whose handle is cached, the tab holds at least two
    rows: after an append, a row above the appended one. *)
Definition headed (tab : string) (w : World) : bool :=
  match stored w with
  | Some id =>
      match lookupSheet id (drive (remote w)) with
      | Some ss =>
          match tabs ss !! tab with
          | Some (_ :: _ :: _) => true
          | _ => false
          end
      | None => false
      end
  | None => false
  end.

(** The read resolves the handle that is cached, the one the append wrote
    through, by verification or by search: no spreadsheet is created. *)
Definition resolvesCachedHandle (w : World) : Prop :=
  exists id,
    stored w = Some id
    /\ outcome w = Fulfilled id
    /\ forall c, (Create, c) ∉ entered w.

(** "Appending [d] in [w] and then reading the variant returns the completed
    entity among the rows, with [id] and [createdAt] not empty". *)
Definition farmaciaRoundTrip (d : Farmacia.Data) (w : World) : Prop :=
  forall e w1 l w2,
    writeFarmacia d w = (Fulfilled e, w1) ->
    readFarmacias w1 = (Fulfilled l, w2) ->
    e ∈ l /\ Farmacia.id e <> "" /\ Farmacia.createdAt e <> "".

Definition medicoRoundTrip (d : Medico.Data) (w : World) : Prop :=
  forall e w1 l w2,
    writeMedico d w = (Fulfilled e, w1) ->
    readMedicos w1 = (Fulfilled l, w2) ->
    e ∈ l /\ Medico.id e <> "" /\ Medico.createdAt e <> "".

(** ** Sample worlds *)

Definition sampleInstant : Instant := mkInstant 2026 11 3 1 6 0 42.

Definition served : Oracle :=
  {| clock := 1730000000000;
     signInEnv := AuthService.mkSignInEnv 1730000000000 None;
     disposition := Served;
     random36 := "0.4fzyo82mvyr";
     instant := sampleInstant |}.

Definition refused (e : JsValue) : Oracle :=
  {| clock := 1730000000000;
     signInEnv := AuthService.mkSignInEnv 1730000000000 None;
     disposition := Refused e;
     random36 := "0.4fzyo82mvyr";
     instant := sampleInstant |}.

(** Every request is served, except the one made at tick [k]. *)
Definition servedExcept (k : nat) (e : JsValue) : nat -> Oracle :=
  fun n => if Nat.eqb n k then refused e else served.

Definition unavailable : JsValue := gapiFailure 503 "The service is currently unavailable." "UNAVAILABLE".

(** A signed-in browser with nothing cached and an empty Drive. *)
Definition signedInAuth : AuthService.State :=
  AuthService.storeTokens "ya29.token" (Some 1730003600000)
    (AuthService.setGisInited AuthService.initial).

Definition emptyDrive : Remote := {| drive := []; minted := 0; format := numToString |}.

Definition freshWorld (o : nat -> Oracle) : World :=
  {| auth := signedInAuth; remote := emptyDrive; oracle := o; tick := 0; tiers := [] |}.

(** The search (the request at tick 1) is refused. *)
Definition searchRefused : World := freshWorld (servedExcept 1 unavailable).

(** The creation (the request at tick 3) is refused. *)
Definition createRefused : World := freshWorld (servedExcept 3 unavailable).

(** Every request is served. *)
Definition allServed : nat -> Oracle := fun _ => served.

(** The world [w] from now on under the oracle [o]. *)
Definition restart (o : nat -> Oracle) (w : World) : World :=
  {| auth := auth w; remote := remote w; oracle := o; tick := 0; tiers := [] |}.

(** A browser that has resolved its sheet: created, with its header rows,
    and cached. *)
Definition readyWorld : World := restart allServed (snd (initializeSheet (freshWorld allServed))).

(** A browser whose first resolution created the spreadsheet but was refused
    the write of the header rows (the request at tick 5). *)
Definition headerless : World :=
  restart allServed (snd (initializeSheet (freshWorld (servedExcept 5 unavailable)))).

(** A second spreadsheet of the same title has been created since the handle
    was cached, and the verification the read makes (the request at tick 6)
    is refused. *)
Definition overtaken : World :=
  restart (servedExcept 6 unavailable) (snd (createSheet readyWorld)).

(** The verification and the search the read makes (the requests at ticks
    6 and 8) are both refused: the read goes on to create a spreadsheet. *)
Definition estranged : World :=
  restart (fun n => if Nat.eqb n 6 || Nat.eqb n 8 then refused unavailable else served)
    readyWorld.

(** The verification the read makes (the request at tick 6) is refused:
    the read falls back on the search, which finds the same spreadsheet. *)
Definition unverified : World := restart (servedExcept 6 unavailable) readyWorld.

(** A format of numbers with a decimal comma. *)
Fixpoint withComma (s : string) : string :=
  match s with
  | String c s' => String (if Ascii.eqb c "." then "," else c)%char (withComma s')
  | EmptyString => EmptyString
  end.

(** The resolved sheet of [readyWorld], in a spreadsheet whose locale writes
    numbers with a decimal comma. *)
Definition commaLocale : World :=
  {| auth := auth readyWorld;
     remote := {| drive := drive (remote readyWorld);
                  minted := minted (remote readyWorld);
                  format := fun x => withComma (numToString x) |};
     oracle := allServed; tick := 0; tiers := [] |}.

Definition fulfilledWith {A} (r : Settled A) (default : A) : A :=
  match r with
  | Fulfilled a => a
  | _ => default
  end.

(** The sample pharmacy and doctor as completed by an append under
    [served]. *)
Definition sampleIds : string * string := ("m2r1bz7k-4fzyo82", "2026-11-03T01:06:00.042Z").

(** [text] is the normalised message of [cause]: what [extractErrorMessage]
    returns for it, as the template literal of the catch block renders it. *)
Definition normalizedMessage (cause : JsValue) (text : string) : Prop :=
  exists m, Errors.extractErrorMessage cause = Normal m /\ toStringTemplate m = Normal text.

(** Normalising [cause] for a message throws [e]: in [extractErrorMessage]
    itself, or in the template literal that receives its result. *)
Definition normalizationThrows (cause e : JsValue) : Prop :=
  Errors.extractErrorMessage cause = Throw e
  \/ exists m, Errors.extractErrorMessage cause = Normal m /\ toStringTemplate m = Throw e.

(** What a catch block of the service rejects with when it caught [cause]:
    an [Error] whose message is [prefix] followed by the normalised message
    of [cause], or what normalising [cause] threw. *)
Definition wraps (prefix : string) (cause e : JsValue) : Prop :=
  (exists text, normalizedMessage cause text /\ e = newError (prefix ++ text))
  \/ normalizationThrows cause e.





End SheetsSpec.

(* ===================================================================== *)
(** * Statements about the helpers and the cooperative runs *)
(* ===================================================================== *)

Module DigitsSpec.

(** The number a string of decimal digits denotes, read from the left after
    the digits that gave [acc]. *)
Fixpoint uintValue (d : Decimal.uint) (acc : N) : N :=
  match d with
  | Decimal.Nil => acc
  | Decimal.D0 d => uintValue d (10 * acc)
  | Decimal.D1 d => uintValue d (1 + 10 * acc)
  | Decimal.D2 d => uintValue d (2 + 10 * acc)
  | Decimal.D3 d => uintValue d (3 + 10 * acc)
  | Decimal.D4 d => uintValue d (4 + 10 * acc)
  | Decimal.D5 d => uintValue d (5 + 10 * acc)
  | Decimal.D6 d => uintValue d (6 + 10 * acc)
  | Decimal.D7 d => uintValue d (7 + 10 * acc)
  | Decimal.D8 d => uintValue d (8 + 10 * acc)
  | Decimal.D9 d => uintValue d (9 + 10 * acc)
  end%N.

End DigitsSpec.

Module TokenSpec.
Import Js AuthService.

(** The test [signIn] makes before it asks for consent: a token and an
    expiry are stored, and the expiry, read without a radix, is ahead. *)
Definition reusable (env : SignInEnv) (s : State) : bool :=
  present (getItem ACCESS_TOKEN s) && present (getItem EXPIRES_AT s)
  && ltNum (Some (checkTime env)) (parseInt (default "" (getItem EXPIRES_AT s)) None).

(** The consent flow answers at [now] with [response], which reports no
    error, to a call that found nothing to reuse. *)
Definition granted (env : SignInEnv) (s : State) (now : Z) (response : TokenResponse) : Prop :=
  tokenClient s = true
  /\ reusable env s = false
  /\ flow env = Some (now, response)
  /\ present (error response) = false.

(** A browser that has loaded the libraries and holds no session. *)
Definition loaded : State := setGisInited (setGapiInited initial).

(** A consent flow that grants a token for one hour. *)
Definition hourGrant : SignInEnv :=
  mkSignInEnv 1730000000000
    (Some (1730000001500, mkTokenResponse "ya29.fresh" "3599" None)).

(** A consent flow whose answer carries no lifetime. *)
Definition grantWithoutLifetime : SignInEnv :=
  mkSignInEnv 1730000000000
    (Some (1730000001500, mkTokenResponse "ya29.fresh" "" None)).

End TokenSpec.

Module WaitingSpec.
Import Js AuthService(PromiseState, Pending, Resolved, Rejected) Waiting.

(** A firing that decides nothing: the check fails and the time is not
    up. *)
Definition quiet (timeout startTime : Z) (f : Firing) : Prop :=
  ready f = false /\ clockAt f - startTime <= timeout.

Definition timeoutError (name : string) : JsValue :=
  newError ("Timeout waiting for " ++ name ++ " to load").

(** The firings split at a first one that is not quiet. *)
Definition firstDecisive (timeout startTime : Z) (firings : list Firing) (f : Firing) : Prop :=
  exists pre post,
    firings = (pre ++ f :: post)%list /\ Forall (quiet timeout startTime) pre.

End WaitingSpec.

Module ServiceSpec.
Import Js Rows AuthService(Settled, Fulfilled, Failed, Never, present).
Import SheetsService SheetsSpec.

(** From now on every request is served, and the session kept in the
    browser is valid whenever the clock is read. *)
Definition cooperative (w : World) : Prop :=
  forall n, (tick w <= n)%nat ->
    disposition (oracle w n) = Served
    /\ AuthService.isAuthenticated (clock (oracle w n)) (auth w) = true.

(** The world after [ensureAuthenticated] found the session valid: the
    clock has been read and the stored token is on the gapi client. *)
Definition signed (w : World) : World :=
  setAuth
    (AuthService.setToken (AuthService.getItem AuthService.ACCESS_TOKEN (auth w)) (auth w))
    (snd (tock w)).

(** The world after an authenticated request that has been answered. *)
Definition answered (w : World) : World := snd (tock (signed w)).

(** The handle of the sheet is cached and the spreadsheet is there. *)
Definition ready (id : string) (w : World) : Prop :=
  cooperative w
  /\ stored w = Some id
  /\ id <> ""
  /\ is_Some (lookupSheet id (drive (remote w))).

(** The spreadsheet [createSheet] leaves: the two tabs, each with its row
    of headers. *)
Definition freshSheet (id : string) : Spreadsheet :=
  {| spreadsheetId := id; title := SHEET_TITLE; trashed := false;
     tabs := {[ FARMACIAS_TAB := [CStr <$> FARMACIAS_HEADERS];
                MEDICOS_TAB := [CStr <$> MEDICOS_HEADERS] ]} |}.

(** The spreadsheet as [spreadsheets.create] makes it: the two tabs,
    empty. *)
Definition blankSheet (id : string) : Spreadsheet :=
  {| spreadsheetId := id; title := SHEET_TITLE; trashed := false;
     tabs := list_to_map ((fun t => (t, [])) <$> [FARMACIAS_TAB; MEDICOS_TAB]) |}.

(** The identifier the store gives to the next spreadsheet. *)
Definition nextId (r : Remote) : string := "sheet-" ++ digitsOf (minted r).

(** The store after [createSheet]. *)
Definition withFreshSheet (r : Remote) : Remote :=
  {| drive := freshSheet (nextId r) :: drive r; minted := minted r + 1; format := format r |}.

(** What the search selects: the first spreadsheet of the title that is not
    trashed, when its identifier is not empty. *)
Definition firstMatch (r : Remote) : option string :=
  match listFiles SHEET_TITLE r with
  | first :: _ => if nonEmpty first then Some first else None
  | [] => None
  end.

(** [initializeSheet] from its second tier on. *)
Definition searchOrCreate : M string :=
  let! searched :=
    catch
      (let! existingSheetId := entering Search found findExistingSheet in
       match existingSheetId with
       | Some id => storeSheetId id ;;; ret (Some id)
       | None => ret None
       end)
      (fun _ => ret None) in
  match searched with
  | Some id => ret id
  | None =>
      catch
        (let! sheetId := entering Create Yielded createSheet in
         storeSheetId sheetId ;;;
         ret sheetId)
        throw
  end.

(** The cached handle is usable: not empty, and the spreadsheet is there. *)
Definition cacheAlive (w : World) : bool :=
  match stored w with
  | Some id =>
      nonEmpty id
      && match lookupSheet id (drive (remote w)) with Some _ => true | None => false end
  | None => false
  end.

(** The handle a cooperative resolution returns, and the store it leaves:
    the cached handle when it is usable, else the first match of the search,
    else a spreadsheet created for the purpose. *)
Definition handle (w : World) : string :=
  if cacheAlive w then default "" (stored w)
  else match firstMatch (remote w) with
       | Some id => id
       | None => nextId (remote w)
       end.

Definition storeAfter (w : World) : Remote :=
  if cacheAlive w then remote w
  else match firstMatch (remote w) with
       | Some _ => remote w
       | None => withFreshSheet (remote w)
       end.

(** A row of cells as a range read gives it back. *)
Definition readBack (fmt : JsNum -> string) (row : list Cell) : list string :=
  trimRow (renderCell fmt <$> row).

(** What a read of a tab returns: its rows below the first, without the
    empty rows that end it. *)
Definition below (fmt : JsNum -> string) (rows : list (list Cell)) : list (list string) :=
  trimRows (readBack fmt <$> drop 1 rows).

(** The tab [tab] of the spreadsheet a cooperative resolution in [w] settles
    on, as the resolution leaves it. *)
Definition tabOf (tab : string) (w : World) : option (list (list Cell)) :=
  match lookupSheet (handle w) (drive (storeAfter w)) with
  | Some ss => tabs ss !! tab
  | None => None
  end.

(** The message of the failure for a tab that is not in the spreadsheet. *)
Definition noSuchTab (prefix tab : string) : JsValue :=
  newError (prefix ++ "Unable to parse range: " ++ tab).

(** The identifier and the timestamp an append takes from the oracle. *)
Definition stampOf (o : Oracle) : string * string :=
  (generateId (clock o) (random36 o), toISOString (instant o)).

(** No session is stored: the token or its expiry is missing or empty. *)
Definition signedOut (w : World) : Prop :=
  present (AuthService.getItem AuthService.ACCESS_TOKEN (auth w))
  && present (AuthService.getItem AuthService.EXPIRES_AT (auth w)) = false.

Definition notAuthenticated (prefix : string) : JsValue :=
  newError (prefix ++ "Not authenticated").

(** A browser that holds no session. *)
Definition strangerWorld : World :=
  {| auth := AuthService.setGisInited AuthService.initial; remote := emptyDrive;
     oracle := allServed; tick := 0; tiers := [] |}.

End ServiceSpec.

(* ===================================================================== *)
(** * Facts about JavaScript conversions *)
(* ===================================================================== *)

Module JsFacts.
Import Js.

Lemma nonEmpty_true (s : string) : nonEmpty s = true <-> s <> "".
Proof. destruct s; simpl; split; congruence. Qed.

Lemma nonEmpty_false (s : string) : nonEmpty s = false <-> s = "".
Proof. destruct s; simpl; split; congruence. Qed.

Lemma nonEmpty_app (a b : string) : nonEmpty (a ++ b) = nonEmpty a || nonEmpty b.
Proof. destruct a; reflexivity. Qed.

Lemma digitsOf_nonEmpty (m : N) : nonEmpty (digitsOf m) = true.
Proof.
  unfold digitsOf, NilZero.string_of_uint.
  destruct (N.to_uint m); reflexivity.
Qed.

Lemma finToString_nonEmpty (s : string) (e : Z) :
  nonEmpty s = true -> nonEmpty (finToString s e) = true.
Proof.
  intros Hs. unfold finToString.
  repeat match goal with
         | |- context [if ?c then _ else _] => destruct c
         end;
    rewrite ?nonEmpty_app, ?Hs; simpl; rewrite ?orb_true_r; reflexivity.
Qed.

Lemma numToString_nonEmpty (x : JsNum) : nonEmpty (numToString x) = true.
Proof.
  destruct x as [|[]|neg m e]; try reflexivity.
  simpl. destruct (m =? 0)%N; [reflexivity|].
  rewrite nonEmpty_app, finToString_nonEmpty by apply digitsOf_nonEmpty.
  apply orb_true_r.
Qed.

Lemma bigintToString_nonEmpty (z : Z) : nonEmpty (bigintToString z) = true.
Proof.
  unfold bigintToString. rewrite nonEmpty_app, digitsOf_nonEmpty. apply orb_true_r.
Qed.

End JsFacts.

(* ===================================================================== *)
(** * extractErrorMessage *)
(* ===================================================================== *)

Module ErrorsFacts.
Import Js Errors ErrorsSpec JsFacts.

(** The gapi block never yields an empty string: what it returns is truthy. *)
Lemma gapiMessage_truthy (v m : JsValue) :
  gapiMessage v = Normal (Some m) -> truthy m = true.
Proof.
  unfold gapiMessage.
  destruct (_ && _); [|discriminate].
  destruct (getProperty _ _) as [x|]; [|discriminate].
  destruct (truthy x) eqn:Hx; congruence.
Qed.

(** On anything but an object the normaliser is [String(error)]. *)
Lemma extractErrorMessage_primitive (v : JsValue) :
  negb (truthy v) || negb (isObjectType v) = true ->
  extractErrorMessage v = stringOf v.
Proof. intros H. unfold extractErrorMessage. rewrite H. reflexivity. Qed.

(** Where the nested error can be read, the precedence of the four sources
    is the one the code spells out. *)
Lemma extractErrorMessage_precedence (ps : list (string * JsValue)) (c : option string) :
  let v := VObject ps c in
  forall o, gapiMessage v = Normal o ->
  extractErrorMessage v =
    match o with
    | Some m => Normal m
    | None =>
        if hasProperty "message" v && isStringType (prop "message" v)
        then Normal (prop "message" v)
        else if hasProperty "statusText" v && isStringType (prop "statusText" v)
        then Normal (prop "statusText" v)
        else stringOf v
    end.
Proof.
  intros v o Ho. unfold extractErrorMessage. simpl. rewrite Ho.
  destruct o; reflexivity.
Qed.

(** The normaliser throws exactly when the nested error is [null] or
    [undefined], or when it falls back on a default conversion that throws. *)
Lemma extractErrorMessage_throws (v e : JsValue) :
  extractErrorMessage v = Throw e ->
  gapiMessage v = Throw e \/ toStringCall v = Throw e.
Proof.
  unfold extractErrorMessage, standardMessage, stringOf.
  destruct (_ || _).
  - destruct (toStringCall v); [discriminate|]. intros [= ->]. now right.
  - destruct (gapiMessage v) as [[m|]|e']; [discriminate| |intros [= ->]; now left].
    repeat (destruct (_ && _); [discriminate|]).
    destruct (toStringCall v); [discriminate|]. intros [= ->]. now right.
Qed.

(** C7 (code bug).  extractErrorMessage is claimed never to throw.  On the
    gapi envelope [{ result: { error: null } }] the block that reads
    [gapiError.message] dereferences [null]: the call throws a [TypeError]
    instead of returning a string. *)
Theorem extractErrorMessage_throws_on_null_nested_error :
  extractErrorMessage nullEnvelope
  = Throw (newTypeError "Cannot read properties of null (reading 'message')").
Proof. reflexivity. Qed.

Lemma stringOf_empty (v : JsValue) :
  stringOf v = Normal (VString "") -> selectsEmpty v = true \/ exists ps c, v = VObject ps c.
Proof.
  unfold stringOf.
  destruct v as [| |[]|x|z|s|d|c|ps c]; simpl; try discriminate.
  - intros [= H]. pose proof (numToString_nonEmpty x) as E. rewrite H in E. discriminate.
  - intros [= H]. pose proof (bigintToString_nonEmpty z) as E. rewrite H in E. discriminate.
  - intros [= ->]. now left.
  - destruct c as [s|]; simpl; [|discriminate]. intros [= ->]. now left.
  - intros _. right. eauto.
Qed.

Lemma standardMessage_empty (v : JsValue) :
  standardMessage v = Normal (VString "") -> selectsEmpty v = true.
Proof.
  unfold standardMessage.
  destruct v as [| |[]|x|z|s|d|c|ps c];
    try (simpl; intros H; apply stringOf_empty in H as [H|(? & ? & H)];
         [exact H | discriminate]).
  unfold selectsEmpty.
  destruct (_ && _).
  { intros [= ->]. reflexivity. }
  destruct (_ && _).
  { intros [= ->]. reflexivity. }
  unfold stringOf. simpl. destruct c as [s|]; simpl; [|discriminate].
  intros [= ->]. reflexivity.
Qed.

(** C8 (amended).  The normaliser returns the empty string only where the
    string it selects is itself empty: wherever [selectsEmpty] is false no
    return value is the empty string; where it is true and the gapi block
    falls through, the empty string is returned; and an object with none of
    the known fields normalises to its own conversion, so to a non-empty
    string when that conversion is not empty. *)
Theorem extractErrorMessage_nonempty (v : JsValue) :
  (selectsEmpty v = false ->
   forall r, extractErrorMessage v = Normal r -> r <> VString "")
  /\ (selectsEmpty v = true -> gapiMessage v = Normal None ->
      extractErrorMessage v = Normal (VString ""))
  /\ (forall ps c, v = VObject ps (Some c) ->
      hasProperty "result" v = false ->
      hasProperty "message" v = false ->
      hasProperty "statusText" v = false ->
      c <> "" ->
      extractErrorMessage v = Normal (VString c) /\ returnsNonEmptyString v).
Proof.
  split; [|split].
  - intros Hsel r Hr ->.
    unfold extractErrorMessage in Hr.
    destruct (_ || _) eqn:Hprim.
    + assert (standardMessage v = Normal (VString "")) as H.
      { unfold standardMessage.
        destruct v; simpl in *; try exact Hr; discriminate. }
      apply standardMessage_empty in H. congruence.
    + destruct (gapiMessage v) as [[m|]|] eqn:Hg; [| |discriminate].
      * apply gapiMessage_truthy in Hg. injection Hr as ->. discriminate.
      * apply standardMessage_empty in Hr. congruence.
  - intros Hsel Hg. unfold extractErrorMessage. rewrite Hg.
    destruct v as [| |[]|x|z|s|d|c|ps c]; simpl in Hsel; try discriminate.
    + destruct s; [reflexivity|discriminate].
    + destruct c as [[|]|]; simpl in *; try discriminate. reflexivity.
    + simpl. unfold standardMessage.
      destruct (_ && _).
      { destruct (prop "message" _) as [| | | | |[|]| | |]; simpl in Hsel;
          try discriminate; reflexivity. }
      destruct (_ && _).
      { destruct (prop "statusText" _) as [| | | | |[|]| | |]; simpl in Hsel;
          try discriminate; reflexivity. }
      destruct c as [[|]|]; simpl in *; try discriminate. reflexivity.
  - intros ps c -> Hres Hmsg Hst Hc.
    assert (extractErrorMessage (VObject ps (Some c)) = Normal (VString c)) as E.
    { unfold extractErrorMessage, gapiMessage, standardMessage.
      rewrite Hres, Hmsg, Hst. reflexivity. }
    split; [exact E|]. exists c. split; [exact E|exact Hc].
Qed.

(** The amended statement at [{ code: 500 }], which normalises to
    "[object Object]", and at [{ message: '' }], which selects the empty
    string. *)
Lemma extractErrorMessage_nonempty_witness :
  (forall r, extractErrorMessage malformedError = Normal r -> r <> VString "")
  /\ extractErrorMessage emptyMessageError = Normal (VString "")
  /\ extractErrorMessage malformedError = Normal (VString "[object Object]")
  /\ returnsNonEmptyString malformedError.
Proof.
  split; [|split].
  - apply (proj1 (extractErrorMessage_nonempty malformedError)). reflexivity.
  - apply (proj1 (proj2 (extractErrorMessage_nonempty emptyMessageError))); reflexivity.
  - apply (proj2 (proj2 (extractErrorMessage_nonempty malformedError))
             [("code", VNumber (ofZ 500))] "[object Object]");
      try reflexivity.
    discriminate.
Defined.

(** C8 as stated fails: the empty string normalises to the empty string,
    and so does an error object whose [message] is the empty string. *)
Lemma extractErrorMessage_empty_counterexample :
  ~ returnsNonEmptyString (VString "") /\ ~ returnsNonEmptyString emptyMessageError.
Proof.
  split; intros (s & H & Hs); vm_compute in H; congruence.
Qed.

End ErrorsFacts.

(* ===================================================================== *)
(** * initializeGoogleApi *)
(* ===================================================================== *)

Module InitFacts.
Import Js AuthService AuthSpec.

Section Bootstraps.

Implicit Types (s : State) (p q : nat) (b : Bootstrap).

Lemma lookup_updBoot s p f q b' :
  boots (updBoot p f s) !! q = Some b' ->
  (q = p /\ exists b, boots s !! p = Some b /\ b' = f b)
  \/ (q <> p /\ boots s !! q = Some b').
Proof.
  unfold updBoot. simpl. intros H.
  destruct (decide (p = q)) as [->|Hne].
  - rewrite list_lookup_alter_eq in H.
    destruct (boots s !! q) as [b|] eqn:E; simpl in H; [|discriminate].
    left. split; [reflexivity|]. exists b. split; congruence.
  - rewrite list_lookup_alter_ne in H by exact Hne. right. split; congruence.
Qed.

Lemma settle_not_pending o b : o <> Pending -> settled (settle o b) = Pending -> False.
Proof.
  unfold settle. intros Ho. destruct (settled b) eqn:E; simpl; congruence.
Qed.

Lemma settle_resolved_inv o b :
  settled (settle o b) = Resolved ->
  settled b = Resolved \/ (settled b = Pending /\ o = Resolved).
Proof.
  unfold settle. destruct (settled b) eqn:E; simpl; intros H; auto; congruence.
Qed.

Lemma settle_outer o b : outer (settle o b) = outer b.
Proof. unfold settle. destruct (settled b); reflexivity. Qed.

Lemma settle_live o b : o <> Pending -> live (settle o b) -> live b.
Proof.
  intros Ho [H|H].
  - destruct (settle_not_pending _ _ Ho H).
  - right. now rewrite settle_outer in H.
Qed.

Lemma live_or_not b : live b \/ (settled b <> Pending /\ outer b = OuterDone).
Proof.
  unfold live. destruct (settled b), (outer b);
    first [left; left; reflexivity | left; right; discriminate
          | right; split; [discriminate|reflexivity]].
Qed.

Lemma outerAt_Some s p ph :
  outerAt p s = Some ph -> exists b, boots s !! p = Some b /\ outer b = ph.
Proof.
  unfold outerAt. destruct (boots s !! p) as [b|]; simpl; [|discriminate].
  intros [= <-]. eauto.
Qed.

Lemma innerAt_Some s p ph :
  innerAt p s = Some ph -> exists b, boots s !! p = Some b /\ inner b = ph.
Proof.
  unfold innerAt. destruct (boots s !! p) as [b|]; simpl; [|discriminate].
  intros [= <-]. eauto.
Qed.

Lemma pageLoad_consistent storage : Consistent (pageLoad storage).
Proof.
  split; simpl; try discriminate; intros p b H; rewrite lookup_nil in H; discriminate.
Qed.

(** The [catch] of the executor, run by the bootstrap whose body was still
    waiting. *)
Lemma outerCatch_consistent s p e b :
  Consistent s -> boots s !! p = Some b -> outer b <> OuterDone ->
  Consistent (outerCatch p e s).
Proof.
  intros [Hlive Hgis Hres] Hb Hout.
  assert (initPromise s = Some p) as Hcur by (eapply Hlive; [exact Hb|now right]).
  assert (gisInited s = false) as Hg.
  { destruct (gisInited s) eqn:E; [|reflexivity].
    destruct (Hgis eq_refl) as [_ Hall]. destruct Hout. eapply Hall, Hb. }
  unfold outerCatch. split.
  - intros q b' Hq Hl. exfalso.
    apply lookup_updBoot in Hq as [(-> & b0 & Hb0 & ->)|(Hne & Hq)]; simpl in *.
    + destruct Hl as [Hl|Hl]; simpl in Hl; [|congruence].
      eapply settle_not_pending; [|exact Hl]. discriminate.
    + specialize (Hlive _ _ Hq Hl). congruence.
  - simpl. rewrite Hg. discriminate.
  - intros q b' Hq Hr. exfalso.
    apply lookup_updBoot in Hq as [(-> & b0 & Hb0 & ->)|(Hne & Hq)]; simpl in *.
    + apply settle_resolved_inv in Hr as [Hr|[_ Hr]]; [|discriminate].
      destruct (Hres _ _ Hb0 Hr). congruence.
    + destruct (Hres _ _ Hq Hr). congruence.
Qed.

(** [checkReady] after a step that left the promise and the flags
    consistent. *)
Lemma checkReady_consistent s p b :
  Consistent s -> boots s !! p = Some b -> initPromise s = Some p ->
  Consistent (checkReady p s).
Proof.
  intros [Hlive Hgis Hres] Hb Hcur. unfold checkReady.
  destruct (gapiInited s && gisInited s) eqn:Hflags; [|split; assumption].
  apply andb_true_iff in Hflags as [_ Hg].
  split.
  - intros q b' Hq Hl.
    apply lookup_updBoot in Hq as [(-> & b0 & Hb0 & ->)|(Hne & Hq)]; simpl in *.
    + exact Hcur.
    + eapply Hlive; eauto.
  - simpl. intros Hg'. destruct (Hgis Hg') as [Hsome Hall]. split; [exact Hsome|].
    intros q b' Hq.
    apply lookup_updBoot in Hq as [(-> & b0 & Hb0 & ->)|(Hne & Hq)]; simpl in *.
    + rewrite settle_outer. eapply Hall, Hb0.
    + eapply Hall, Hq.
  - intros q b' Hq Hr.
    apply lookup_updBoot in Hq as [(-> & b0 & Hb0 & ->)|(Hne & Hq)]; simpl in *.
    + split; assumption.
    + eapply Hres; eauto.
Qed.

Lemma call_consistent s : Consistent s -> Consistent (snd (initializeGoogleApi s)).
Proof.
  intros Hs. pose proof Hs as [Hlive Hgis Hres]. unfold initializeGoogleApi.
  destruct (initPromise s) as [p|] eqn:Hcur; [exact Hs|].
  destruct (gapiInited s && gisInited s); [exact Hs|].
  simpl. split; simpl.
  - intros q b' Hq Hl.
    apply lookup_app_Some in Hq as [Hq|[Hlen Hq]].
    + specialize (Hlive _ _ Hq Hl). congruence.
    + destruct (q - length (boots s))%nat eqn:E; simpl in Hq; [|discriminate].
      f_equal. lia.
  - intros Hg. destruct (Hgis Hg) as [[x Hx] _]. congruence.
  - intros q b' Hq Hr. exfalso.
    apply lookup_app_Some in Hq as [Hq|[Hlen Hq]].
    + destruct (Hres _ _ Hq Hr). congruence.
    + destruct (q - length (boots s))%nat; simpl in Hq; [|discriminate].
      injection Hq as <-. discriminate.
Qed.

Lemma step_consistent ev s : Consistent s -> Consistent (step ev s).
Proof.
  intros Hs. pose proof Hs as [Hlive Hgis Hres].
  destruct ev as [p|p e|p|p e|p|p e]; simpl.
  - (* GapiReady *)
    destruct (outerAt p s) as [[| |]|] eqn:Hph; try exact Hs.
    apply outerAt_Some in Hph as (b & Hb & Hout).
    assert (initPromise s = Some p) as Hcur.
    { eapply Hlive; [exact Hb|]. right. congruence. }
    split.
    + intros q b' Hq Hl.
      apply lookup_updBoot in Hq as [(-> & b0 & Hb0 & ->)|(Hne & Hq)]; simpl in *;
        [exact Hcur|eapply Hlive; eauto].
    + simpl. intros Hg. exfalso. destruct (Hgis Hg) as [_ Hall].
      specialize (Hall _ _ Hb). congruence.
    + intros q b' Hq Hr.
      apply lookup_updBoot in Hq as [(-> & b0 & Hb0 & ->)|(Hne & Hq)]; simpl in *;
        eapply Hres; eauto.
  - (* GapiFailed *)
    destruct (outerAt p s) as [[| |]|] eqn:Hph; try exact Hs.
    apply outerAt_Some in Hph as (b & Hb & Hout).
    eapply outerCatch_consistent; eauto. congruence.
  - (* ClientReady *)
    destruct (innerAt p s) as [[| |]|] eqn:Hph; try exact Hs.
    apply innerAt_Some in Hph as (b & Hb & Hin).
    destruct (live_or_not b) as [Hl|[Hset _]].
    + assert (initPromise s = Some p) as Hcur by (eapply Hlive; eauto).
      eapply checkReady_consistent with (b := setInner InnerDone b).
      * split.
        -- intros q b' Hq Hl'.
           apply lookup_updBoot in Hq as [(-> & b0 & Hb0 & ->)|(Hne & Hq)]; simpl in *;
             [exact Hcur|eapply Hlive; eauto].
        -- simpl. intros Hg. destruct (Hgis Hg) as [Hsome Hall]. split; [exact Hsome|].
           intros q b' Hq.
           apply lookup_updBoot in Hq as [(-> & b0 & Hb0 & ->)|(Hne & Hq)]; simpl in *;
             eapply Hall; eauto.
        -- intros q b' Hq Hr.
           apply lookup_updBoot in Hq as [(-> & b0 & Hb0 & ->)|(Hne & Hq)]; simpl in *;
             eapply Hres; eauto.
      * unfold updBoot. simpl. rewrite list_lookup_alter_eq. simpl. now rewrite Hb.
      * exact Hcur.
    + (* a bootstrap that is no longer live: its promise is settled *)
      assert (forall s', boots s' = boots (updBoot p (setInner InnerDone) (setGapiInited s)) ->
                         initPromise s' = initPromise s -> gisInited s' = gisInited s ->
                         Consistent s') as Hsame.
      { intros s' Hb' Hi' Hg'. split.
        - intros q b' Hq Hl'. rewrite Hi'. rewrite Hb' in Hq.
          apply lookup_updBoot in Hq as [(-> & b0 & Hb0 & ->)|(Hne & Hq)]; simpl in *.
          + eapply Hlive; [exact Hb0|]. exact Hl'.
          + eapply Hlive; eauto.
        - rewrite Hi', Hg'. intros Hg. destruct (Hgis Hg) as [Hsome Hall].
          split; [exact Hsome|]. intros q b' Hq. rewrite Hb' in Hq.
          apply lookup_updBoot in Hq as [(-> & b0 & Hb0 & ->)|(Hne & Hq)]; simpl in *;
            eapply Hall; eauto.
        - intros q b' Hq Hr. rewrite Hi', Hg'. rewrite Hb' in Hq.
          apply lookup_updBoot in Hq as [(-> & b0 & Hb0 & ->)|(Hne & Hq)]; simpl in *;
            eapply Hres; eauto. }
      unfold checkReady.
      destruct (_ && _); [|apply Hsame; reflexivity].
      apply Hsame; try reflexivity.
      unfold updBoot at 1. simpl. apply list_eq. intros q.
      destruct (decide (p = q)) as [<-|Hne].
      * rewrite !list_lookup_alter_eq. simpl. rewrite ?list_lookup_alter_eq, Hb. simpl.
        f_equal. unfold settle. simpl. destruct (settled b); congruence.
      * rewrite list_lookup_alter_ne by exact Hne. reflexivity.
  - (* ClientFailed *)
    destruct (innerAt p s) as [[| |]|] eqn:Hph; try exact Hs.
    apply innerAt_Some in Hph as (b & Hb & Hin).
    split.
    + intros q b' Hq Hl.
      apply lookup_updBoot in Hq as [(-> & b0 & Hb0 & ->)|(Hne & Hq)]; simpl in *.
      * eapply Hlive; [exact Hb0|]. eapply settle_live with (o := Rejected e); [discriminate|].
        destruct Hl as [Hl|Hl]; [left|right]; exact Hl.
      * eapply Hlive; eauto.
    + simpl. intros Hg. destruct (Hgis Hg) as [Hsome Hall]. split; [exact Hsome|].
      intros q b' Hq.
      apply lookup_updBoot in Hq as [(-> & b0 & Hb0 & ->)|(Hne & Hq)]; simpl in *.
      * rewrite settle_outer. eapply Hall; eauto.
      * eapply Hall; eauto.
    + intros q b' Hq Hr.
      apply lookup_updBoot in Hq as [(-> & b0 & Hb0 & ->)|(Hne & Hq)]; simpl in *.
      * apply settle_resolved_inv in Hr as [Hr|[_ Hr]]; [|discriminate].
        eapply Hres; eauto.
      * eapply Hres; eauto.
  - (* GisReady *)
    destruct (outerAt p s) as [[| |]|] eqn:Hph; try exact Hs.
    apply outerAt_Some in Hph as (b & Hb & Hout).
    assert (initPromise s = Some p) as Hcur.
    { eapply Hlive; [exact Hb|]. right. congruence. }
    eapply checkReady_consistent with (b := setOuter OuterDone b).
    + split.
      * intros q b' Hq Hl.
        apply lookup_updBoot in Hq as [(-> & b0 & Hb0 & ->)|(Hne & Hq)]; simpl in *;
          [exact Hcur|eapply Hlive; eauto].
      * simpl. intros _. split; [rewrite Hcur; eauto|].
        intros q b' Hq.
        apply lookup_updBoot in Hq as [(-> & b0 & Hb0 & ->)|(Hne & Hq)]; simpl in *;
          [reflexivity|].
        destruct (outer b') eqn:E; try reflexivity;
          (assert (initPromise s = Some q) by (eapply Hlive; [exact Hq|right; congruence]);
           congruence).
      * intros q b' Hq Hr. simpl.
        apply lookup_updBoot in Hq as [(-> & b0 & Hb0 & ->)|(Hne & Hq)]; simpl in *;
          [split; [exact Hcur|reflexivity]|].
        split; [|reflexivity]. eapply Hres; eauto.
    + unfold updBoot. simpl. rewrite list_lookup_alter_eq. simpl. now rewrite Hb.
    + exact Hcur.
  - (* GisFailed *)
    destruct (outerAt p s) as [[| |]|] eqn:Hph; try exact Hs.
    apply outerAt_Some in Hph as (b & Hb & Hout).
    eapply outerCatch_consistent; eauto. congruence.
Qed.

Lemma run_consistent h s : Consistent s -> Consistent (run h s).
Proof.
  revert s. induction h as [|a h IH]; intros s Hs; [exact Hs|].
  simpl. apply IH. destruct a; [apply call_consistent|apply step_consistent]; exact Hs.
Qed.

Lemma inFlight_current storage h p :
  inFlight p (run h (pageLoad storage)) ->
  initPromise (run h (pageLoad storage)) = Some p.
Proof.
  intros Hp.
  pose proof (run_consistent h _ (pageLoad_consistent storage)) as [Hlive _ _].
  unfold inFlight, promiseAt in Hp.
  destruct (boots _ !! p) as [b|] eqn:Hb; simpl in Hp; [|discriminate].
  eapply Hlive; [exact Hb|]. left. congruence.
Qed.

Lemma succeeded_current storage h p :
  succeeded p (run h (pageLoad storage)) ->
  initPromise (run h (pageLoad storage)) = Some p.
Proof.
  intros Hp.
  pose proof (run_consistent h _ (pageLoad_consistent storage)) as [_ _ Hres].
  unfold succeeded, promiseAt in Hp.
  destruct (boots _ !! p) as [b|] eqn:Hb; simpl in Hp; [|discriminate].
  eapply Hres; [exact Hb|]. congruence.
Qed.

(** While [initPromise] is set, calls return it and change nothing. *)
Lemma calls_current s p n :
  initPromise s = Some p -> calls n s = (replicate n (OfBootstrap p), s).
Proof.
  intros Hcur. induction n as [|n IH]; [reflexivity|].
  simpl. unfold initializeGoogleApi. rewrite Hcur, IH. reflexivity.
Qed.

End Bootstraps.

(** C3.  Any number of calls made while an initialization is in flight on
    promise [p] start no bootstrap and are all handed [p], the only promise
    in flight, so that the callers observe one outcome whatever happens
    next; and once a bootstrap has resolved its promise, a call returns that
    resolved promise and starts nothing. *)
Theorem initializeGoogleApi_deduplicates
    (storage : gmap string string) (h : list Action) (p n : nat) :
  let s := run h (pageLoad storage) in
  (inFlight p s ->
     calls n s = (replicate n (OfBootstrap p), s)
     /\ started (snd (calls n s)) = started s
     /\ (forall q, inFlight q s -> q = p)
     /\ (forall later hd, hd ∈ fst (calls n s) ->
         observe hd (run later s) = promiseAt p (run later s)))
  /\ (succeeded p s ->
      initializeGoogleApi s = (OfBootstrap p, s)
      /\ observe (OfBootstrap p) s = Some Resolved).
Proof.
  intros s. split.
  - intros Hp.
    pose proof (inFlight_current _ _ _ Hp) as Hcur. fold s in Hcur.
    rewrite (calls_current s p n Hcur). simpl.
    split; [reflexivity|]. split; [reflexivity|]. split.
    + intros q Hq. apply inFlight_current in Hq. fold s in Hq. congruence.
    + intros later hd Hin. apply elem_of_replicate in Hin as [-> _]. reflexivity.
  - intros Hp.
    pose proof (succeeded_current _ _ _ Hp) as Hcur. fold s in Hcur.
    unfold initializeGoogleApi. rewrite Hcur. split; [reflexivity|exact Hp].
Qed.

(** C3 at work: three calls after a first one, and a call after a bootstrap
    that ran to its end. *)
Lemma initializeGoogleApi_deduplicates_witness :
  (calls 3 (run [Call] (pageLoad ∅))
   = ([OfBootstrap 0%nat; OfBootstrap 0%nat; OfBootstrap 0%nat], run [Call] (pageLoad ∅)))
  /\ (let s := run [Call; Occur (GapiReady 0); Occur (ClientReady 0); Occur (GisReady 0)]
                  (pageLoad ∅) in
      initializeGoogleApi s = (OfBootstrap 0%nat, s)).
Proof.
  split.
  - apply (proj1 (initializeGoogleApi_deduplicates ∅ [Call] 0%nat 3%nat)). reflexivity.
  - apply (proj2 (initializeGoogleApi_deduplicates ∅
             [Call; Occur (GapiReady 0); Occur (ClientReady 0); Occur (GisReady 0)]
             0%nat 0%nat)).
    reflexivity.
Defined.

(** The executor's own [catch] does reset: after the wait for gapi has
    failed, [initPromise] is cleared and the next call starts bootstrap 1. *)
Lemma initializeGoogleApi_resets_on_outer_failure
    (storage : gmap string string) (e : JsValue) :
  let s := run (waitFailure e) (pageLoad storage) in
  promiseAt 0 s = Some (Rejected e)
  /\ initPromise s = None
  /\ fst (initializeGoogleApi s) = OfBootstrap 1
  /\ inFlight 1 (snd (initializeGoogleApi s)).
Proof. repeat split. Qed.

(** The callback's [catch] does not: whatever the history, a failure of
    the client initialization of the current bootstrap settles its promise
    and leaves it in [initPromise], so that every later call returns it. *)
Lemma client_failure_keeps_initPromise (s : State) (p n : nat) (e : JsValue) :
  initPromise s = Some p -> innerAt p s = Some Loading ->
  let s' := step (ClientFailed p e) s in
  initPromise s' = Some p
  /\ ~ inFlight p s'
  /\ calls n s' = (replicate n (OfBootstrap p), s').
Proof.
  intros Hcur Hin s'. subst s'. simpl. rewrite Hin.
  split; [exact Hcur|]. split.
  - unfold inFlight, promiseAt, updBoot. simpl. rewrite list_lookup_alter_eq.
    apply innerAt_Some in Hin as (b & Hb & _). rewrite Hb. simpl.
    intros [= H]. eapply settle_not_pending; [|exact H]. discriminate.
  - apply calls_current. exact Hcur.
Qed.

(** C4 (code bug).  When the failure happens inside the [gapi.load]
    callback, the promise is rejected but [initPromise] is not cleared: the
    next call is handed the rejected promise of bootstrap 0 again and no
    second bootstrap is started. *)
Theorem initializeGoogleApi_client_failure_not_reset
    (storage : gmap string string) (e : JsValue) :
  let s := run (clientFailure e) (pageLoad storage) in
  promiseAt 0 s = Some (Rejected e)
  /\ initPromise s = Some 0%nat
  /\ initializeGoogleApi s = (OfBootstrap 0%nat, s)
  /\ started (snd (initializeGoogleApi s)) = 1%nat.
Proof. repeat split. Qed.

End InitFacts.

(* ===================================================================== *)
(** * signOut and getAccessToken *)
(* ===================================================================== *)

Module SessionFacts.
Import Js AuthService AuthSpec JsFacts.

Lemma present_Some (v : string) : present (Some v) = true <-> v <> "".
Proof. simpl. apply nonEmpty_true. Qed.

Lemma clearStoredTokens_cleared (s : State) : cleared (clearStoredTokens s).
Proof.
  unfold cleared, clearStoredTokens, getItem, removeItem. simpl.
  rewrite !lookup_delete. repeat case_decide; try reflexivity; done.
Qed.

(** C5 (amended).  signOut rejects exactly when a token is attached and the
    revocation call throws; it never stays pending; whenever it resolves,
    with or without an attached token, the three persisted entries are gone
    and no token is attached; when it rejects, storage is as it was and the
    token is still attached: nothing has changed but the call of the
    revocation. *)
Theorem signOut_clears_unless_revoke_throws (revokeThrows : option JsValue) (s : State) :
  (forall e, fst (signOut revokeThrows s) = Failed e
             <-> is_Some (gapiToken s) /\ revokeThrows = Some e)
  /\ fst (signOut revokeThrows s) <> Never
  /\ (fst (signOut revokeThrows s) = Fulfilled tt ->
      cleared (snd (signOut revokeThrows s))
      /\ gapiToken (snd (signOut revokeThrows s)) = None)
  /\ (gapiToken s = None -> fst (signOut revokeThrows s) = Fulfilled tt)
  /\ (forall e, fst (signOut revokeThrows s) = Failed e ->
      localStorage (snd (signOut revokeThrows s)) = localStorage s
      /\ gapiToken (snd (signOut revokeThrows s)) = gapiToken s
      /\ exists token,
           gapiToken s = Some token
           /\ snd (signOut revokeThrows s) = emit (Revoke token) s).
Proof.
  unfold signOut.
  destruct (gapiToken s) as [token|] eqn:Htok; [destruct revokeThrows as [e0|]|]; simpl.
  - split; [|split; [|split; [|split]]].
    + intros e. split.
      * intros [= ->]. split; [eexists; reflexivity|reflexivity].
      * intros [_ [= ->]]. reflexivity.
    + discriminate.
    + discriminate.
    + discriminate.
    + intros e _. split; [reflexivity|]. split; [exact Htok|].
      exists token. split; reflexivity.
  - split; [|split; [|split; [|split]]].
    + intros e. split; [discriminate|]. intros [_ ?]. discriminate.
    + discriminate.
    + intros _. split; [apply clearStoredTokens_cleared|reflexivity].
    + discriminate.
    + discriminate.
  - split; [|split; [|split; [|split]]].
    + intros e. split; [discriminate|]. intros [[? ?] _]. discriminate.
    + discriminate.
    + intros _. split; [apply clearStoredTokens_cleared|].
      unfold clearStoredTokens, removeItem. simpl. exact Htok.
    + reflexivity.
    + discriminate.
Qed.

(** The amended statement on a signed-in session whose revocation goes
    through, on a session with no token attached, and on a signed-in
    session whose revocation throws. *)
Lemma signOut_clears_unless_revoke_throws_witness :
  cleared (snd (signOut None signedIn))
  /\ fst (signOut (Some revokeError) (setToken None signedIn)) = Fulfilled tt
  /\ (localStorage (snd (signOut (Some revokeError) signedIn)) = localStorage signedIn
      /\ gapiToken (snd (signOut (Some revokeError) signedIn)) = gapiToken signedIn
      /\ exists token,
           gapiToken signedIn = Some token
           /\ snd (signOut (Some revokeError) signedIn) = emit (Revoke token) signedIn).
Proof.
  split; [|split].
  - apply (proj1 (proj2 (proj2 (signOut_clears_unless_revoke_throws None signedIn)))).
    reflexivity.
  - apply (proj1 (proj2 (proj2 (proj2
             (signOut_clears_unless_revoke_throws (Some revokeError)
                (setToken None signedIn)))))).
    reflexivity.
  - apply (proj2 (proj2 (proj2 (proj2
             (signOut_clears_unless_revoke_throws (Some revokeError) signedIn))))
             revokeError).
    reflexivity.
Defined.

(** C5 as stated fails: when the revocation call throws, signOut rejects
    and the token, its expiry and the sheet ID are all still stored. *)
Lemma signOut_keeps_session_counterexample :
  fst (signOut (Some revokeError) signedIn) = Failed revokeError
  /\ ~ cleared (snd (signOut (Some revokeError) signedIn))
  /\ getItem ACCESS_TOKEN (snd (signOut (Some revokeError) signedIn)) = Some "ya29.token"
  /\ getItem SHEET_ID (snd (signOut (Some revokeError) signedIn)) = Some "sheet-0".
Proof.
  split; [reflexivity|]. split; [|split; reflexivity].
  intros (H & _). vm_compute in H. discriminate.
Qed.

Lemma parseInt_empty (radix : option Z) : parseInt "" radix = None.
Proof.
  unfold parseInt. simpl.
  destruct (negb _ && _); [reflexivity|].
  destruct (_ || _); reflexivity.
Qed.

(** A granted consent leaves the granted token in storage and on the gapi
    client. *)
Lemma signIn_granted (env : SignInEnv) (s s1 : State) (now : Z) (response : TokenResponse) :
  signIn env s = (Fulfilled tt, s1) ->
  RequestAccessToken "" ∈ effects s1 ->
  ~ RequestAccessToken "" ∈ effects s ->
  flow env = Some (now, response) ->
  getItem ACCESS_TOKEN s1 = Some (access_token response)
  /\ gapiToken s1 = Some (access_token response).
Proof.
  unfold signIn. intros H Hin Hnot Hflow.
  destruct (negb (tokenClient s)); [discriminate|].
  destruct (_ && _).
  { injection H as <-. destruct Hnot. exact Hin. }
  rewrite Hflow in H.
  destruct (present (error response)); [discriminate|].
  injection H as <-. split; [|reflexivity].
  unfold getItem, storeTokens, setItem. simpl.
  rewrite lookup_insert_ne by done. apply lookup_insert_eq.
Qed.

(** C6.  With a stored token and a stored expiry: before the expiry the
    stored token is returned and nothing else happens (the state, and with
    it the list of consent requests, is unchanged); from the expiry on (or
    with an expiry that is not a number) [signIn] runs, and the token then
    found in storage is returned if it resolves, [null] if it rejects. *)
Theorem getAccessToken_reuses_or_signs_in
    (now : Z) (env : SignInEnv) (s : State) (token expiry : string) :
  getItem ACCESS_TOKEN s = Some token -> token <> "" ->
  getItem EXPIRES_AT s = Some expiry ->
  (forall expires, parseInt expiry (Some 10) = Some expires -> now < expires ->
     getAccessToken now env s = (Fulfilled (Some token), s))
  /\ (expiry <> "" -> ltNum (Some now) (parseInt expiry (Some 10)) = false ->
      (forall s1, signIn env s = (Fulfilled tt, s1) ->
         getAccessToken now env s = (Fulfilled (getItem ACCESS_TOKEN s1), s1))
      /\ (forall e s1, signIn env s = (Failed e, s1) ->
         getAccessToken now env s = (Fulfilled None, s1))
      /\ (forall s1, signIn env s = (Never, s1) ->
         getAccessToken now env s = (Never, s1))).
Proof.
  intros Htok Hne Hexp. unfold getAccessToken. rewrite Htok, Hexp. simpl.
  apply nonEmpty_true in Hne. rewrite Hne. simpl.
  split.
  - intros expires Hparse Hlt.
    destruct (nonEmpty expiry) eqn:He.
    + simpl. rewrite Hparse. simpl.
      apply Z.ltb_lt in Hlt. rewrite Hlt. reflexivity.
    + apply nonEmpty_false in He. subst expiry.
      rewrite parseInt_empty in Hparse. discriminate.
  - intros He Hlt. apply nonEmpty_true in He. rewrite He. simpl. rewrite Hlt.
    repeat split; intros; rewrite H; try reflexivity.
Qed.

(** C6 on a session that expires at 1730003600000: one millisecond before,
    and one millisecond after with a consent flow that grants a new token. *)
Lemma getAccessToken_reuses_or_signs_in_witness :
  getAccessToken 1730003599999 (grants 1730003599999 "ya29.next") signedIn
  = (Fulfilled (Some "ya29.token"), signedIn)
  /\ fst (getAccessToken 1730003600001 (grants 1730003600001 "ya29.next") signedIn)
     = Fulfilled (Some "ya29.next")
  /\ fst (getAccessToken 1730003600001 (denies 1730003600001) signedIn)
     = Fulfilled None.
Proof.
  split; [|split].
  - apply (proj1 (getAccessToken_reuses_or_signs_in 1730003599999
                    (grants 1730003599999 "ya29.next") signedIn
                    "ya29.token" "1730003600000" eq_refl ltac:(discriminate) eq_refl)
             1730003600000); reflexivity.
  - pose proof (proj2 (getAccessToken_reuses_or_signs_in 1730003600001
                    (grants 1730003600001 "ya29.next") signedIn
                    "ya29.token" "1730003600000" eq_refl ltac:(discriminate) eq_refl)
                  ltac:(discriminate) eq_refl) as (H & _ & _).
    rewrite (H _ eq_refl). reflexivity.
  - pose proof (proj2 (getAccessToken_reuses_or_signs_in 1730003600001
                    (denies 1730003600001) signedIn
                    "ya29.token" "1730003600000" eq_refl ltac:(discriminate) eq_refl)
                  ltac:(discriminate) eq_refl) as (_ & H & _).
    rewrite (H _ _ eq_refl). reflexivity.
Defined.

End SessionFacts.

(* ===================================================================== *)
(** * The row mappings *)
(* ===================================================================== *)

Module RowsFacts.
Import Js Rows RowsSpec JsFacts.

Lemma floatOrUndefined_numericField (cell : option string) :
  numericField cell (floatOrUndefined cell).
Proof.
  unfold numericField, floatOrUndefined. split; [|split].
  - intros [->| ->]; reflexivity.
  - intros s -> Hs _. apply nonEmpty_true in Hs. rewrite Hs. reflexivity.
  - intros s -> Hs Hnan. apply nonEmpty_true in Hs. rewrite Hs, Hnan. reflexivity.
Qed.

(** C10 (amended).  In both row mappings each of [lat] and [lng] is read
    from its own column (21 and 22 for a farmacia, 13 and 14 for a medico)
    and holds: nothing when the cell is missing or empty; the parsed number
    when the cell starts with a number; [NaN], not [undefined], when the cell
    is not empty and does not start with a number. *)
Theorem row_numeric_fields (row : list string) :
  numericField (at_ row 21) (Farmacia.lat (Farmacia.data (rowToFarmacia row)))
  /\ numericField (at_ row 22) (Farmacia.lng (Farmacia.data (rowToFarmacia row)))
  /\ numericField (at_ row 13) (Medico.lat (Medico.data (rowToMedico row)))
  /\ numericField (at_ row 14) (Medico.lng (Medico.data (rowToMedico row))).
Proof. repeat split; apply floatOrUndefined_numericField. Qed.

(** The amended statement on a medicos row with coordinates and on the
    farmacias row whose [lat] is not a number. *)
Lemma row_numeric_fields_witness :
  Medico.lat (Medico.data (rowToMedico geocodedMedico)) = Some (Fin false 194326 (-4))
  /\ Medico.lng (Medico.data (rowToMedico geocodedMedico)) = Some (Fin true 991332 (-4))
  /\ Farmacia.lat (Farmacia.data (rowToFarmacia unparseableLat)) = Some NaN
  /\ Farmacia.lat (Farmacia.data (rowToFarmacia geocodedMedico)) = None.
Proof.
  split; [|split; [|split]].
  - apply (proj1 (proj2 (proj1 (proj2 (proj2 (row_numeric_fields geocodedMedico)))))
             "19.4326"); [reflexivity|discriminate|discriminate].
  - apply (proj1 (proj2 (proj2 (proj2 (proj2 (row_numeric_fields geocodedMedico)))))
             "-99.1332"); [reflexivity|discriminate|discriminate].
  - apply (proj2 (proj2 (proj1 (row_numeric_fields unparseableLat))) "abc");
      [reflexivity|discriminate|reflexivity].
  - apply (proj1 (proj1 (row_numeric_fields geocodedMedico))). left. reflexivity.
Defined.

(** C10 as stated fails: a [lat] cell holding "abc" is unparseable, and
    the field is [NaN], not [undefined]. *)
Lemma unparseable_cell_is_NaN_counterexample :
  ~ numericFieldAsStated (at_ unparseableLat 21)
      (Farmacia.lat (Farmacia.data (rowToFarmacia unparseableLat))).
Proof.
  intros [_ H].
  assert (Farmacia.lat (Farmacia.data (rowToFarmacia unparseableLat)) = None) as E.
  { apply H. right. exists "abc". split; reflexivity. }
  discriminate E.
Qed.

(** ** Rows that come back as they went *)

Import SheetsService.

(** A cell that is missing and a cell that is empty are read alike:
    every reading of a cell goes through [orUndefined]. *)
Lemma orEmpty_blank c : orEmpty c = orEmpty (orUndefined c).
Proof. destruct c as [[|]|]; reflexivity. Qed.

Lemma orUndefined_blank c : orUndefined c = orUndefined (orUndefined c).
Proof. destruct c as [[|]|]; reflexivity. Qed.

Lemma floatOrUndefined_blank c : floatOrUndefined c = floatOrUndefined (orUndefined c).
Proof. destruct c as [[|]|]; reflexivity. Qed.

Lemma trimRow_nil_blank (row : list string) :
  trimRow row = [] -> forall i, orUndefined (row !! i) = None.
Proof.
  induction row as [|c row IH]; intros H i; [now rewrite lookup_nil|].
  simpl in H. destruct (trimRow row) eqn:E; [|discriminate].
  destruct (nonEmpty c) eqn:Hc; [discriminate|].
  destruct i as [|i]; simpl; [now rewrite Hc|]. now apply IH.
Qed.

Lemma trimRow_blank (row : list string) (i : nat) :
  orUndefined (trimRow row !! i) = orUndefined (row !! i).
Proof.
  revert i. induction row as [|c row IH]; intros i; [reflexivity|].
  simpl. destruct (trimRow row) as [|t ts] eqn:E.
  - pose proof (trimRow_nil_blank row E) as Hnil.
    destruct (nonEmpty c) eqn:Hc; destruct i as [|i]; simpl;
      rewrite ?lookup_nil, ?Hc, ?Hnil; reflexivity.
  - destruct i as [|i]; simpl; [reflexivity|]. apply IH.
Qed.

Lemma at_trimRow_orEmpty row i : orEmpty (at_ (trimRow row) i) = orEmpty (at_ row i).
Proof. unfold at_. now rewrite orEmpty_blank, trimRow_blank, <- orEmpty_blank. Qed.

Lemma at_trimRow_orUndefined row i :
  orUndefined (at_ (trimRow row) i) = orUndefined (at_ row i).
Proof. unfold at_. now rewrite orUndefined_blank, trimRow_blank, <- orUndefined_blank. Qed.

Lemma at_trimRow_float row i :
  floatOrUndefined (at_ (trimRow row) i) = floatOrUndefined (at_ row i).
Proof.
  unfold at_. now rewrite floatOrUndefined_blank, trimRow_blank, <- floatOrUndefined_blank.
Qed.

(** The mappings do not see the trimming of a row. *)
Lemma rowToFarmacia_trimRow row : rowToFarmacia (trimRow row) = rowToFarmacia row.
Proof.
  unfold rowToFarmacia.
  rewrite !at_trimRow_orEmpty, !at_trimRow_orUndefined, !at_trimRow_float. reflexivity.
Qed.

Lemma rowToMedico_trimRow row : rowToMedico (trimRow row) = rowToMedico row.
Proof.
  unfold rowToMedico.
  rewrite !at_trimRow_orEmpty, !at_trimRow_orUndefined, !at_trimRow_float. reflexivity.
Qed.

Lemma JsNum_eqb_eq a b : JsNum_eqb a b = true -> a = b.
Proof.
  destruct a as [|x|n1 m1 e1], b as [|y|n2 m2 e2]; simpl; try discriminate; auto.
  - intros H. apply Bool.eqb_prop in H. congruence.
  - intros H. apply andb_true_iff in H as [H He]. apply andb_true_iff in H as [Hn Hm].
    apply Bool.eqb_prop in Hn. apply N.eqb_eq in Hm. apply Z.eqb_eq in He. congruence.
Qed.

Lemma keepsText_back (x : option string) :
  keepsText x = true -> orUndefined (Some (orEmpty x)) = x.
Proof. destruct x as [[|c s]|]; simpl; try discriminate; reflexivity. Qed.

Lemma keepsNumber_back (fmt : JsNum -> string) (x : option JsNum) :
  keepsNumber fmt x = true ->
  floatOrUndefined (Some (renderCell fmt (numberCell x))) = x.
Proof.
  destruct x as [n|]; simpl; [|reflexivity].
  intros H. apply andb_true_iff in H as [Hne Heq].
  rewrite Hne. f_equal. apply JsNum_eqb_eq, Heq.
Qed.

Ltac split_survives :=
  repeat match goal with
         | H : (_ && _) = true |- _ => apply andb_true_iff in H as [? ?]
         end.

Ltac field_back fmt :=
  first [ reflexivity
        | apply keepsText_back; assumption
        | apply (keepsNumber_back fmt); assumption ].

(** A farmacia whose fields survive comes back from its row as it was. *)
Lemma farmacia_back (fmt : JsNum -> string) (e : Farmacia.t) :
  farmaciaSurvives fmt (Farmacia.data e) = true ->
  rowToFarmacia (trimRow (renderCell fmt <$> farmaciaToRow e)) = e.
Proof.
  intros H. rewrite rowToFarmacia_trimRow.
  destruct e as [id created d]. destruct d. unfold farmaciaSurvives in H. simpl in H.
  split_survives.
  unfold rowToFarmacia. f_equal. f_equal; field_back fmt.
Qed.

Lemma medico_back (fmt : JsNum -> string) (e : Medico.t) :
  medicoSurvives fmt (Medico.data e) = true ->
  rowToMedico (trimRow (renderCell fmt <$> medicoToRow e)) = e.
Proof.
  intros H. rewrite rowToMedico_trimRow.
  destruct e as [id created d]. destruct d. unfold medicoSurvives in H. simpl in H.
  split_survives.
  unfold rowToMedico. f_equal. f_equal; field_back fmt.
Qed.

End RowsFacts.

(* ===================================================================== *)
(** * The resolver *)
(* ===================================================================== *)

Module ResolverFacts.
Import Js Errors Rows AuthService(Settled, Fulfilled, Failed, Never, present).
Import SheetsService SheetsSpec JsFacts.

#[export] Instance sameTiers_preorder : PreOrder sameTiers.
Proof. split; [intros w; reflexivity|intros a b c; unfold sameTiers; congruence]. Qed.
#[export] Instance sameRemote_preorder : PreOrder sameRemote.
Proof. split; [intros w; reflexivity|intros a b c; unfold sameRemote; congruence]. Qed.
#[export] Instance sameOracle_preorder : PreOrder sameOracle.
Proof. split; [intros w; reflexivity|intros a b c; unfold sameOracle; congruence]. Qed.
#[export] Instance sameFormat_preorder : PreOrder sameFormat.
Proof. split; [intros w; reflexivity|intros a b c; unfold sameFormat; congruence]. Qed.
#[export] Instance sameSheetId_preorder : PreOrder sameSheetId.
Proof. split; [intros w; reflexivity|intros a b c; unfold sameSheetId; congruence]. Qed.

Section Frame.

Context (R : relation World) `{!PreOrder R}.

Lemma keeps_ret {A} (a : A) : keeps R (ret a).
Proof. intros w. reflexivity. Qed.

Lemma keeps_throw {A} (e : JsValue) : keeps R (@throw A e).
Proof. intros w. reflexivity. Qed.

Lemma keeps_lift {A} (c : Completion A) : keeps R (lift c).
Proof. destruct c; [apply keeps_ret|apply keeps_throw]. Qed.

Lemma keeps_bind {A B} (m : M A) (k : A -> M B) :
  keeps R m -> (forall a, keeps R (k a)) -> keeps R (bind m k).
Proof.
  intros Hm Hk w. unfold bind. specialize (Hm w).
  destruct (m w) as [[a|e|] w1]; simpl in *; [|exact Hm|exact Hm].
  etransitivity; [exact Hm|apply Hk].
Qed.

Lemma keeps_catch {A} (m : M A) (h : JsValue -> M A) :
  keeps R m -> (forall e, keeps R (h e)) -> keeps R (catch m h).
Proof.
  intros Hm Hh w. unfold catch. specialize (Hm w).
  destruct (m w) as [[a|e|] w1]; simpl in *; [exact Hm| |exact Hm].
  etransitivity; [exact Hm|apply Hh].
Qed.

Lemma keeps_rethrow {A} (prefix : string) (e : JsValue) : keeps R (@rethrow A prefix e).
Proof.
  unfold rethrow.
  apply keeps_bind; [apply keeps_lift|intros m].
  apply keeps_bind; [apply keeps_lift|intros t]. apply keeps_throw.
Qed.

(** What does not depend on the tick is kept by reading the oracle. *)
Hypothesis R_tock : forall w, R w (snd (tock w)).

Lemma keeps_tock : keeps R tock.
Proof. exact R_tock. Qed.

(** What does not depend on [auth], beyond the cached handle, is kept by
    [ensureAuthenticated]. *)
Hypothesis R_auth :
  forall w a,
    AuthService.getStoredSheetId a = AuthService.getStoredSheetId (auth w) ->
    R w (setAuth a w).

Lemma keeps_getAccessToken : keeps R getAccessToken.
Proof.
  unfold getAccessToken. apply keeps_bind; [apply keeps_tock|intros o w].
  destruct (AuthService.getAccessToken _ _ _) as [r a] eqn:E. simpl.
  apply R_auth.
  unfold AuthService.getAccessToken in E.
  destruct (_ || _); [injection E as <- <-; reflexivity|].
  destruct (AuthService.ltNum _ _); [injection E as <- <-; reflexivity|].
  unfold AuthService.signIn in E.
  destruct (negb _); [injection E as <- <-; reflexivity|].
  destruct (_ && _); [injection E as <- <-; reflexivity|].
  destruct (AuthService.flow _) as [[now response]|]; [|injection E as <- <-; reflexivity].
  destruct (present _); injection E as <- <-; [reflexivity|].
  unfold AuthService.getStoredSheetId, AuthService.getItem, AuthService.storeTokens,
    AuthService.setItem. simpl.
  rewrite !lookup_insert_ne by done. reflexivity.
Qed.

Lemma keeps_ensureAuthenticated : keeps R ensureAuthenticated.
Proof.
  unfold ensureAuthenticated.
  apply keeps_bind; [apply keeps_getAccessToken|intros t].
  destruct (negb _); [apply keeps_throw|].
  intros w. apply R_auth. reflexivity.
Qed.

(** A request keeps whatever survives the change it makes to the store. *)
Lemma keeps_request {A} (serve : Remote -> Completion (A * Remote)) :
  (forall w a r, serve (remote w) = Normal (a, r) -> R w (setRemote r w)) ->
  keeps R (request serve).
Proof.
  intros Hserve. unfold request. apply keeps_bind; [apply keeps_tock|intros o].
  destruct (disposition o); [|apply keeps_throw|intros w; reflexivity].
  intros w. destruct (serve (remote w)) as [[a r]|e] eqn:E; simpl; [|reflexivity].
  eapply Hserve, E.
Qed.

(** What does not depend on the store, beyond its number format. *)
Hypothesis R_remote : forall w r, format r = format (remote w) -> R w (setRemote r w).

Lemma keeps_verifySheetExists (id : string) : keeps R (verifySheetExists id).
Proof.
  unfold verifySheetExists.
  apply keeps_bind; [apply keeps_ensureAuthenticated|intros _].
  apply keeps_catch; [|intros e; apply keeps_rethrow].
  apply keeps_request. intros w a r. destruct (getFile _ _); [|discriminate].
  intros [= _ <-]. apply R_remote. reflexivity.
Qed.

Lemma keeps_findExistingSheet : keeps R findExistingSheet.
Proof.
  unfold findExistingSheet.
  apply keeps_bind; [apply keeps_ensureAuthenticated|intros _].
  apply keeps_catch; [|intros e; apply keeps_rethrow].
  apply keeps_bind.
  - apply keeps_request. intros w a r [= _ <-]. apply R_remote. reflexivity.
  - intros [|first rest]; apply keeps_ret.
Qed.

Lemma batchUpdate_format (id : string) (data : list (string * list Cell)) (r r' : Remote) :
  batchUpdate id data r = Normal r' -> format r' = format r.
Proof.
  unfold batchUpdate. destruct (lookupSheet _ _); [|discriminate].
  destruct (writeFirstRows _ _); [|discriminate]. intros [= <-]. reflexivity.
Qed.

Lemma keeps_writeHeaders (id : string) : keeps R (writeHeaders id).
Proof.
  unfold writeHeaders.
  apply keeps_bind; [apply keeps_ensureAuthenticated|intros _].
  apply keeps_catch; [|intros e; apply keeps_rethrow].
  apply keeps_request. intros w a r.
  destruct (batchUpdate _ _ _) as [r'|] eqn:E; [|discriminate].
  intros [= _ <-]. apply R_remote. eapply batchUpdate_format, E.
Qed.

Lemma keeps_createSheet : keeps R createSheet.
Proof.
  unfold createSheet.
  apply keeps_bind; [apply keeps_ensureAuthenticated|intros _].
  apply keeps_catch; [|intros e; apply keeps_rethrow].
  apply keeps_bind.
  - apply keeps_request. intros w a r [= _ <-]. apply R_remote. reflexivity.
  - intros id. destruct (negb _); [apply keeps_throw|].
    apply keeps_bind; [apply keeps_writeHeaders|intros _; apply keeps_ret].
Qed.

Lemma keeps_stamp : keeps R stamp.
Proof.
  unfold stamp. apply keeps_bind; [apply keeps_tock|intros o; apply keeps_ret].
Qed.

(** What does not depend on the ghost list of tiers nor on the cached
    handle. *)
Hypothesis R_note : forall w t o, R w (note t o w).
Hypothesis R_store : forall w a, R w (setAuth a w).

Lemma keeps_entering {A} (t : Tier) (summary : A -> TierOutcome) (m : M A) :
  keeps R m -> keeps R (entering t summary m).
Proof.
  intros Hm w. unfold entering. specialize (Hm w).
  destruct (m w) as [[a|e|] w1]; simpl in *; (etransitivity; [exact Hm|apply R_note]).
Qed.

Lemma keeps_initializeSheet : keeps R initializeSheet.
Proof.
  unfold initializeSheet.
  apply keeps_bind; [intros w; reflexivity|intros storedSheetId].
  apply keeps_bind.
  { destruct (present storedSheetId); [|apply keeps_ret].
    apply keeps_catch; [|intros e; apply keeps_ret].
    apply keeps_bind; [|intros _; apply keeps_ret].
    apply keeps_entering, keeps_verifySheetExists. }
  intros [id|]; [apply keeps_ret|].
  apply keeps_bind.
  { apply keeps_catch; [|intros e; apply keeps_ret].
    apply keeps_bind; [apply keeps_entering, keeps_findExistingSheet|].
    intros [id|]; [|apply keeps_ret].
    apply keeps_bind; [intros w; apply R_store|intros _; apply keeps_ret]. }
  intros [id|]; [apply keeps_ret|].
  apply keeps_catch; [|intros e; apply keeps_throw].
  apply keeps_bind; [apply keeps_entering, keeps_createSheet|intros id].
  apply keeps_bind; [intros w; apply R_store|intros _; apply keeps_ret].
Qed.

End Frame.

(** The instances the proofs below use. *)

Lemma tiers_verifySheetExists id w : tiers (snd (verifySheetExists id w)) = tiers w.
Proof. now apply (keeps_verifySheetExists sameTiers). Qed.

Lemma tiers_findExistingSheet w : tiers (snd (findExistingSheet w)) = tiers w.
Proof. now apply (keeps_findExistingSheet sameTiers). Qed.

Lemma tiers_createSheet w : tiers (snd (createSheet w)) = tiers w.
Proof. now apply (keeps_createSheet sameTiers). Qed.

Lemma remote_verifySheetExists id w : remote (snd (verifySheetExists id w)) = remote w.
Proof.
  unfold verifySheetExists.
  apply (keeps_bind sameRemote); [now apply (keeps_ensureAuthenticated sameRemote)|intros _].
  apply (keeps_catch sameRemote); [|intros e; apply (keeps_rethrow sameRemote)].
  apply (keeps_request sameRemote); [reflexivity|]. intros w0 a r.
  destruct (getFile _ _); [|discriminate]. intros [= _ <-]. reflexivity.
Qed.

Lemma remote_findExistingSheet w : remote (snd (findExistingSheet w)) = remote w.
Proof.
  unfold findExistingSheet.
  apply (keeps_bind sameRemote); [now apply (keeps_ensureAuthenticated sameRemote)|intros _].
  apply (keeps_catch sameRemote); [|intros e; apply (keeps_rethrow sameRemote)].
  apply (keeps_bind sameRemote).
  - apply (keeps_request sameRemote); [reflexivity|]. intros w0 a r [= _ <-]. reflexivity.
  - intros [|first rest]; apply (keeps_ret sameRemote).
Qed.

Lemma stored_verifySheetExists id w : stored (snd (verifySheetExists id w)) = stored w.
Proof. now apply (keeps_verifySheetExists sameSheetId). Qed.

#[local] Opaque verifySheetExists findExistingSheet createSheet.

Ltac run_tier :=
  match goal with
  | |- context [verifySheetExists ?i ?w] =>
      let H := fresh "Hv" in
      let Hr := fresh "Hremote" in
      let Hs := fresh "Hstored" in
      pose proof (tiers_verifySheetExists i w) as H;
      pose proof (remote_verifySheetExists i w) as Hr;
      pose proof (stored_verifySheetExists i w) as Hs;
      destruct (verifySheetExists i w) as [[[]|?|] ?]; simpl in H, Hr, Hs |- *
  | |- context [findExistingSheet ?w] =>
      let H := fresh "Hs" in
      pose proof (tiers_findExistingSheet w) as H;
      destruct (findExistingSheet w) as [[[?|]|?|] ?]; simpl in H |- *
  | |- context [createSheet ?w] =>
      let H := fresh "Hc" in
      pose proof (tiers_createSheet w) as H;
      destruct (createSheet w) as [[?|?|] ?]; simpl in H |- *
  end.

Lemma stored_storeSheetId id a :
  AuthService.getStoredSheetId (AuthService.storeSheetId id a) = Some id.
Proof.
  unfold AuthService.getStoredSheetId, AuthService.storeSheetId, AuthService.getItem,
    AuthService.setItem. simpl. apply lookup_insert_eq.
Qed.

Ltac close_ladder :=
  repeat match goal with H : tiers _ = _ |- _ => rewrite H; clear H end;
  rewrite <- ?app_assoc; eexists; (split; [reflexivity|]); simpl;
  (split; [eauto 6 using AfterCreate, AfterSearch, WellOrdered|]);
  (split;
   [ intros ? Hr; try discriminate Hr; injection Hr as <-;
     unfold stored in *; simpl; rewrite ?stored_storeSheetId; congruence
   | intros ? Htr; try discriminate Htr; congruence ]).

(** The ladder: what [initializeSheet] adds to the list of tiers, how its
    outcome follows from it, that the handle it returns is the one cached
    when it returns, and that a resolution by the first tier leaves the
    store as it was. *)
Lemma initializeSheet_ladder (w : World) :
  exists tr,
    tiers (snd (initializeSheet w)) = (tiers w ++ tr)%list
    /\ WellOrdered (stored w) tr (fst (initializeSheet w))
    /\ (forall id, fst (initializeSheet w) = Fulfilled id ->
        stored (snd (initializeSheet w)) = Some id)
    /\ (forall id, tr = [(Verify, Yielded id)] ->
        remote (snd (initializeSheet w)) = remote w).
Proof.
  unfold initializeSheet, bind, catch, entering, getStoredSheetId, storeSheetId,
    ret, throw.
  simpl. fold (stored w).
  destruct (stored w) as [id|] eqn:Hid; simpl.
  - destruct (nonEmpty id) eqn:Hne; simpl.
    + apply nonEmpty_true in Hne. repeat run_tier; close_ladder.
    + assert (present (Some id) = false) by exact Hne. repeat run_tier; close_ladder.
  - assert (present (@None string) = false) by reflexivity. repeat run_tier; close_ladder.
Qed.

Lemma entered_ladder (w : World) : WellOrdered (stored w) (entered w) (outcome w).
Proof.
  destruct (initializeSheet_ladder w) as (tr & Htr & Hw & _).
  unfold entered, outcome. rewrite Htr, drop_app_length. exact Hw.
Qed.





Lemma afterSearch_no_verify tr r o : AfterSearch tr r -> ~ (Verify, o) ∈ tr.
Proof.
  destruct 1 as [id| |c r Hc|e0 c r Hc]; rewrite ?elem_of_cons, elem_of_nil; intros Hin;
    repeat match type of Hin with _ \/ _ => destruct Hin as [Hin|Hin] end;
    try discriminate; contradiction.
Qed.




Ltac in_list := repeat first [apply list_elem_of_here | apply list_elem_of_further].

Ltac not_in H :=
  repeat (apply elem_of_cons in H as [H|H]; [try discriminate H|]);
  try (apply elem_of_nil in H; contradiction).

Lemma afterSearch_create_iff tr r :
  AfterSearch tr r ->
  ((exists c, (Create, c) ∈ tr)
   <-> (Search, NoMatch) ∈ tr \/ exists e, (Search, Broke e) ∈ tr).
Proof.
  destruct 1 as [id| |c r Hc|e0 c r Hc]; split.
  - intros [c H]. not_in H.
  - intros [H|[e H]]; not_in H.
  - intros [c H]. not_in H.
  - intros [H|[e H]]; not_in H.
  - intros _. left. in_list.
  - intros _. exists c. in_list.
  - intros _. right. exists e0. in_list.
  - intros _. exists c. in_list.
Qed.

Lemma wellOrdered_verify_iff c tr r :
  WellOrdered c tr r -> (present c = true <-> exists o, (Verify, o) ∈ tr).
Proof.
  destruct 1 as [id Hne|id Hne|id e0 tr r Hne Ha|c tr r Hc Ha].
  - split; [intros _; eexists; in_list|intros _; now apply nonEmpty_true].
  - split; [intros _; eexists; in_list|intros _; now apply nonEmpty_true].
  - split; [intros _; eexists; in_list|intros _; now apply nonEmpty_true].
  - split; [congruence|]. intros [o H]. destruct (afterSearch_no_verify _ _ _ Ha H).
Qed.

Lemma wellOrdered_create_iff c tr r :
  WellOrdered c tr r ->
  ((exists o, (Create, o) ∈ tr)
   <-> (Search, NoMatch) ∈ tr \/ exists e, (Search, Broke e) ∈ tr).
Proof.
  destruct 1 as [id Hne|id Hne|id e0 tr r Hne Ha|c tr r Hc Ha].
  - split; [intros [o H]; not_in H|intros [H|[e H]]; not_in H].
  - split; [intros [o H]; not_in H|intros [H|[e H]]; not_in H].
  - pose proof (afterSearch_create_iff _ _ Ha) as [H1 H2]. split.
    + intros [o H]. apply elem_of_cons in H as [H|H]; [discriminate|].
      destruct (H1 (ex_intro _ o H)) as [H'|[e H']];
        [left|right; exists e]; now apply list_elem_of_further.
    + intros [H|[e H]]; (apply elem_of_cons in H as [H|H]; [discriminate|]).
      * destruct H2 as [o Ho]; [now left|]. exists o. now apply list_elem_of_further.
      * destruct H2 as [o Ho]; [right; eauto|]. exists o. now apply list_elem_of_further.
  - eapply afterSearch_create_iff, Ha.
Qed.

(** C1 (amended).  For every call of initializeSheet the tiers entered, in
    the order they were entered, and the outcome of the call are
    [WellOrdered]: verification is entered first exactly when a handle is
    cached, and its success returns that handle; the search is entered next
    when there is no cached handle or its verification failed; creation is
    entered last, exactly when the search found no match or failed; no tier
    is entered twice or out of this order. *)
Theorem initializeSheet_tiers_in_order (w : World) :
  WellOrdered (stored w) (entered w) (outcome w)
  /\ (present (stored w) = true <-> exists o, (Verify, o) ∈ entered w)
  /\ ((exists o, (Create, o) ∈ entered w)
      <-> (Search, NoMatch) ∈ entered w \/ exists e, (Search, Broke e) ∈ entered w).
Proof.
  pose proof (entered_ladder w) as H.
  split; [exact H|]. split.
  - eapply wellOrdered_verify_iff, H.
  - eapply wellOrdered_create_iff, H.
Qed.

Lemma entered_searchRefused :
  entered searchRefused
  = [ (Search, Broke (newError
         "Failed to search for existing sheet: The service is currently unavailable."));
      (Create, Yielded "sheet-0") ].
Proof. vm_compute. reflexivity. Qed.

(** C1 as stated fails: when the search is refused by the remote store,
    creation is invoked although the search did not complete with no match. *)
Lemma initializeSheet_creates_after_failed_search_counterexample :
  ~ creationOnlyAfterNoMatch searchRefused.
Proof.
  intros H. specialize (H (Yielded "sheet-0")).
  rewrite entered_searchRefused in H.
  assert ((Search, NoMatch) ∈
            [ (Search, Broke (newError
                 "Failed to search for existing sheet: The service is currently unavailable."));
              (Create, Yielded "sheet-0") ]) as Hin.
  { apply H. apply list_elem_of_further, list_elem_of_here. }
  apply elem_of_cons in Hin as [Hin|Hin]; [discriminate|].
  apply elem_of_cons in Hin as [Hin|Hin]; [discriminate|].
  apply elem_of_nil in Hin. exact Hin.
Qed.

Lemma entered_createRefused :
  entered createRefused
  = [ (Search, NoMatch);
      (Create, Broke (newError
         "Failed to create sheet: The service is currently unavailable.")) ].
Proof. vm_compute. reflexivity. Qed.

(** The amended order where the search is refused and where it finds
    nothing: creation is entered in both; and on a resolved sheet:
    verification is entered. *)
Lemma initializeSheet_tiers_in_order_witness :
  (exists o, (Create, o) ∈ entered searchRefused)
  /\ (exists o, (Create, o) ∈ entered createRefused)
  /\ (exists o, (Verify, o) ∈ entered readyWorld).
Proof.
  split; [|split].
  - apply (proj2 (proj2 (proj2 (initializeSheet_tiers_in_order searchRefused)))).
    right. eexists. rewrite entered_searchRefused. apply list_elem_of_here.
  - apply (proj2 (proj2 (proj2 (initializeSheet_tiers_in_order createRefused)))).
    left. rewrite entered_createRefused. apply list_elem_of_here.
  - apply (proj1 (proj1 (proj2 (initializeSheet_tiers_in_order readyWorld)))).
    vm_compute. reflexivity.
Defined.

(** A resolution that does not enter the creation leaves the store as it
    was. *)
Ltac run_tier_store :=
  match goal with
  | |- context [verifySheetExists ?i ?w] =>
      let H := fresh "Hv" in
      let Hr := fresh "Hremote" in
      pose proof (tiers_verifySheetExists i w) as H;
      pose proof (remote_verifySheetExists i w) as Hr;
      destruct (verifySheetExists i w) as [[[]|?|] ?]; simpl in H, Hr |- *
  | |- context [findExistingSheet ?w] =>
      let H := fresh "Hs" in
      let Hr := fresh "Hremote" in
      pose proof (tiers_findExistingSheet w) as H;
      pose proof (remote_findExistingSheet w) as Hr;
      destruct (findExistingSheet w) as [[[?|]|?|] ?]; simpl in H, Hr |- *
  | |- context [createSheet ?w] =>
      let H := fresh "Hc" in
      pose proof (tiers_createSheet w) as H;
      destruct (createSheet w) as [[?|?|] ?]; simpl in H |- *
  end.

Ltac close_store :=
  repeat match goal with H : tiers _ = _ |- _ => rewrite H; clear H end;
  rewrite <- ?app_assoc, ?drop_app_length; simpl;
  let H := fresh in
  intros H; first [congruence | exfalso; eapply H; in_list].

Lemma initializeSheet_without_creation (w : World) :
  (forall c, (Create, c) ∉ entered w) -> remote (snd (initializeSheet w)) = remote w.
Proof.
  unfold entered, initializeSheet, bind, catch, entering, getStoredSheetId, storeSheetId,
    ret, throw.
  simpl. destruct (AuthService.getStoredSheetId (auth w)) as [id|]; simpl.
  - destruct (nonEmpty id); simpl; repeat run_tier_store; close_store.
  - repeat run_tier_store; close_store.
Qed.

#[local] Transparent createSheet.




Lemma rethrow_failure {A} (prefix : string) (cause e : JsValue) (w w' : World) (r : Settled A) :
  @rethrow A prefix cause w = (r, w') ->
  exists e, r = Failed e /\ wraps prefix cause e.
Proof.
  unfold rethrow, bind, lift, throw, ret.
  destruct (extractErrorMessage cause) as [m|e0] eqn:Em.
  - destruct (toStringTemplate m) as [text|e1] eqn:Et.
    + intros [= <- _]. eexists. split; [reflexivity|]. left.
      exists text. split; [exists m; split; assumption|reflexivity].
    + intros [= <- _]. eexists. split; [reflexivity|]. right. right. eauto.
  - intros [= <- _]. eexists. split; [reflexivity|]. right. now left.
Qed.







#[local] Opaque createSheet.




End ResolverFacts.

(* ===================================================================== *)
(** * Appending and reading back *)
(* ===================================================================== *)

Module StoreFacts.
Import Js Errors Rows AuthService(Settled, Fulfilled, Failed, Never, present).
Import SheetsService RowsSpec SheetsSpec JsFacts RowsFacts ResolverFacts.

Lemma writeFarmacia_via (d : Farmacia.Data) :
  writeFarmacia d
  = writeVia FARMACIAS_TAB "Failed to write farmacia: " (completeFarmacia d) farmaciaToRow.
Proof. reflexivity. Qed.

Lemma writeMedico_via (d : Medico.Data) :
  writeMedico d
  = writeVia MEDICOS_TAB "Failed to write medico: " (completeMedico d) medicoToRow.
Proof. reflexivity. Qed.

Lemma readFarmacias_via :
  readFarmacias = readVia FARMACIAS_TAB "Failed to read farmacias: " rowToFarmacia.
Proof. reflexivity. Qed.

Lemma readMedicos_via :
  readMedicos = readVia MEDICOS_TAB "Failed to read medicos: " rowToMedico.
Proof. reflexivity. Qed.

(** ** Inverting a run that was fulfilled *)

Lemma bind_fulfilled {A B} (m : M A) (k : A -> M B) w b w' :
  bind m k w = (Fulfilled b, w') ->
  exists a w1, m w = (Fulfilled a, w1) /\ k a w1 = (Fulfilled b, w').
Proof.
  unfold bind. destruct (m w) as [[a|e|] w1]; try discriminate. eauto.
Qed.

Lemma catch_rethrow_fulfilled {A} (m : M A) (prefix : string) w a w' :
  catch m (rethrow prefix) w = (Fulfilled a, w') -> m w = (Fulfilled a, w').
Proof.
  unfold catch. destruct (m w) as [[a0|e|] w1]; try discriminate; [auto|].
  intros H. apply (rethrow_failure _ _ e) in H as (e' & H & _). discriminate.
Qed.

Lemma request_fulfilled {A} (serve : Remote -> Completion (A * Remote)) w a w' :
  request serve w = (Fulfilled a, w') ->
  exists r, serve (remote w) = Normal (a, r) /\ w' = setRemote r (snd (tock w)).
Proof.
  unfold request, bind, tock. cbn beta iota.
  destruct (disposition _); try discriminate.
  simpl. destruct (serve (remote w)) as [[a0 r]|e]; [|discriminate].
  intros [= <- <-]. eauto.
Qed.

Lemma stamp_fulfilled w ids w' :
  stamp w = (Fulfilled ids, w') ->
  fst ids <> "" /\ snd ids <> "" /\ w' = snd (tock w).
Proof.
  unfold stamp, bind, tock, ret. cbn beta iota. intros [= <- <-].
  split; [|split; [|reflexivity]]; apply nonEmpty_true; simpl fst; simpl snd.
  - unfold generateId. rewrite !nonEmpty_app. simpl. apply orb_true_r.
  - unfold toISOString. rewrite nonEmpty_app. apply orb_true_r.
Qed.

(** ** The store *)

Lemma lookupSheet_id id d ss : lookupSheet id d = Some ss -> spreadsheetId ss = id.
Proof.
  induction d as [|x d IH]; simpl; [discriminate|].
  destruct (String.eqb (spreadsheetId x) id) eqn:E; [|exact IH].
  intros [= <-]. now apply String.eqb_eq.
Qed.

Lemma lookupSheet_updateSheet id f d ss :
  lookupSheet id d = Some ss -> spreadsheetId (f ss) = spreadsheetId ss ->
  lookupSheet id (updateSheet id f d) = Some (f ss).
Proof.
  intros H Hf. induction d as [|x d IH]; simpl in *; [discriminate|].
  destruct (String.eqb (spreadsheetId x) id) eqn:E.
  - injection H as ->. simpl. rewrite Hf, E. reflexivity.
  - simpl. rewrite E. apply IH, H.
Qed.

Lemma appendRow_appended id tab row r r' :
  appendRow id tab row r = Normal r' ->
  format r' = format r
  /\ exists ss rows,
      lookupSheet id (drive r') = Some ss /\ tabs ss !! tab = Some (rows ++ [row])%list.
Proof.
  unfold appendRow.
  destruct (lookupSheet id (drive r)) as [ss|] eqn:Hss; [|discriminate].
  destruct (tabs ss !! tab) as [rows|] eqn:Hrows; [|discriminate].
  intros [= <-]. split; [reflexivity|].
  exists (setTab tab (rows ++ [row]) ss), rows. split.
  - simpl. apply lookupSheet_updateSheet; [exact Hss|reflexivity].
  - simpl. apply lookup_insert_eq.
Qed.

Lemma trimRows_snoc (rows : list (list string)) (row : list string) :
  row <> [] -> trimRows (rows ++ [row]) = (rows ++ [row])%list.
Proof.
  intros Hrow. induction rows as [|r rows IH]; simpl.
  - destruct row; [contradiction|reflexivity].
  - rewrite IH. destruct (rows ++ [row])%list eqn:E; [|reflexivity].
    destruct rows; discriminate.
Qed.

Lemma trimRow_nonEmpty_head (c : string) (row : list string) :
  c <> "" -> trimRow (c :: row) <> [].
Proof.
  intros Hc. apply nonEmpty_true in Hc. simpl. rewrite Hc.
  destruct (trimRow row); discriminate.
Qed.

Lemma ensureAuthenticated_frame w r w' :
  ensureAuthenticated w = (r, w') -> stored w' = stored w /\ remote w' = remote w.
Proof.
  intros H. split.
  - pose proof (keeps_ensureAuthenticated sameSheetId) as K.
    specialize (K ltac:(easy) ltac:(easy) w). rewrite H in K. exact K.
  - pose proof (keeps_ensureAuthenticated sameRemote) as K.
    specialize (K ltac:(easy) ltac:(easy) w). rewrite H in K. exact K.
Qed.

Lemma initializeSheet_format w :
  format (remote (snd (initializeSheet w))) = format (remote w).
Proof. now apply (keeps_initializeSheet sameFormat). Qed.

#[local] Opaque initializeSheet ensureAuthenticated stamp request.

(** What a fulfilled append leaves: the completed entity carries the fresh
    [id] and [createdAt]; the handle it wrote through is the cached one; its
    row is the last of the tab in that spreadsheet. *)
Lemma writeVia_fulfilled {E} (tab prefix : string) (complete : string * string -> E)
    (toRow : E -> list Cell) (w w1 : World) (e : E) :
  writeVia tab prefix complete toRow w = (Fulfilled e, w1) ->
  exists ids sheetId ss rows,
    e = complete ids /\ fst ids <> "" /\ snd ids <> ""
    /\ stored w1 = Some sheetId
    /\ format (remote w1) = format (remote w)
    /\ lookupSheet sheetId (drive (remote w1)) = Some ss
    /\ tabs ss !! tab = Some (rows ++ [toRow e])%list.
Proof.
  unfold writeVia. intros H.
  apply catch_rethrow_fulfilled in H.
  apply bind_fulfilled in H as (sheetId & wa & Hinit & H).
  apply bind_fulfilled in H as ([] & wb & Hauth & H).
  apply bind_fulfilled in H as (ids & wc & Hstamp & H).
  apply bind_fulfilled in H as ([] & wd & Hreq & H).
  injection H as <- <-.
  apply request_fulfilled in Hreq as (r & Hserve & ->).
  destruct (appendRow _ _ _ _) as [r'|] eqn:Happ; [|discriminate].
  injection Hserve as <-.
  apply appendRow_appended in Happ as (Hfmt & ss & rows & Hss & Hrows).
  apply stamp_fulfilled in Hstamp as (Hid & Hcreated & ->).
  apply ensureAuthenticated_frame in Hauth as [Hstored Hremote].
  destruct (initializeSheet_ladder w) as (tr & _ & _ & Hcached & _).
  pose proof (initializeSheet_format w) as Hf.
  rewrite Hinit in Hcached, Hf. simpl in Hcached, Hf.
  exists ids, sheetId, ss, rows. repeat split; try assumption.
  - change (stored wb = Some sheetId). rewrite Hstored. now apply Hcached.
  - change (format r' = format (remote w)).
    change (format r' = format (remote wb)) in Hfmt.
    rewrite Hfmt, Hremote. exact Hf.
Qed.

(** What a fulfilled read returns when it resolves the cached handle
    without creating a spreadsheet: the rows of the tab in that spreadsheet,
    from the second on. *)
Lemma readVia_fulfilled {E} (tab prefix : string) (ofRow : list string -> E)
    (w w2 : World) (l : list E) :
  readVia tab prefix ofRow w = (Fulfilled l, w2) ->
  resolvesCachedHandle w ->
  exists sheetId rows,
    stored w = Some sheetId
    /\ readFromRow2 sheetId tab (remote w) = Normal rows
    /\ l = ofRow <$> rows.
Proof.
  unfold readVia. intros H (x & Hstored & Hout & Hnone).
  apply catch_rethrow_fulfilled in H.
  apply bind_fulfilled in H as (sheetId & wa & Hinit & H).
  apply bind_fulfilled in H as ([] & wb & Hauth & H).
  apply bind_fulfilled in H as (rows & wc & Hreq & H).
  injection H as <- <-.
  apply request_fulfilled in Hreq as (r & Hserve & ->).
  destruct (readFromRow2 _ _ _) as [rows'|] eqn:Hread; [|discriminate].
  injection Hserve as <- <-.
  apply ensureAuthenticated_frame in Hauth as [_ Hremote].
  pose proof (initializeSheet_without_creation w Hnone) as Hsame.
  unfold outcome in Hout. rewrite Hinit in Hout, Hsame. simpl in Hout, Hsame.
  injection Hout as ->.
  exists x, rows'. split; [exact Hstored|]. split; [|reflexivity].
  rewrite <- Hsame, <- Hremote. exact Hread.
Qed.

(** The generic round trip. *)
Lemma via_round_trip {E} (tab pw pr : string) (complete : string * string -> E)
    (toRow : E -> list Cell) (ofRow : list string -> E)
    (w w1 w2 : World) (e : E) (l : list E) :
  writeVia tab pw complete toRow w = (Fulfilled e, w1) ->
  readVia tab pr ofRow w1 = (Fulfilled l, w2) ->
  headed tab w1 = true ->
  resolvesCachedHandle w1 ->
  exists ids,
    e = complete ids /\ fst ids <> "" /\ snd ids <> ""
    /\ (trimRow (renderCell (format (remote w)) <$> toRow e) <> [] ->
        ofRow (trimRow (renderCell (format (remote w)) <$> toRow e)) ∈ l).
Proof.
  intros Hwrite Hread Hhead Hcache.
  apply writeVia_fulfilled in Hwrite
    as (ids & sheetId & ss & rows & -> & Hid & Hcreated & Hstored & Hfmt & Hss & Htab).
  apply readVia_fulfilled in Hread as (sheetId' & got & Hstored' & Hgot & ->);
    [|exact Hcache].
  assert (sheetId' = sheetId) as -> by congruence.
  exists ids. repeat split; try assumption.
  intros Hrow.
  unfold readFromRow2 in Hgot. rewrite Hss, Htab in Hgot. injection Hgot as <-.
  unfold headed in Hhead. rewrite Hstored, Hss, Htab in Hhead.
  destruct rows as [|header rest]; [discriminate|].
  change (drop 1 ((header :: rest) ++ [toRow (complete ids)]))
    with (rest ++ [toRow (complete ids)])%list.
  rewrite Hfmt, fmap_app.
  change ((λ row : list Cell, trimRow (renderCell (format (remote w)) <$> row))
            <$> [toRow (complete ids)])
    with [trimRow (renderCell (format (remote w)) <$> toRow (complete ids))].
  rewrite trimRows_snoc by exact Hrow.
  rewrite fmap_app. apply elem_of_app. right. apply list_elem_of_here.
Qed.

(** What every fulfilled append returns: the fields given, completed with
    an [id] and a [createdAt] that are not empty. *)
Lemma via_completes {E} (tab pw : string) (complete : string * string -> E)
    (toRow : E -> list Cell) (w w1 : World) (e : E) :
  writeVia tab pw complete toRow w = (Fulfilled e, w1) ->
  exists ids, e = complete ids /\ fst ids <> "" /\ snd ids <> "".
Proof.
  intros Hwrite.
  apply writeVia_fulfilled in Hwrite as (ids & _ & _ & _ & -> & Hid & Hcreated & _).
  eauto.
Qed.

#[local] Transparent initializeSheet ensureAuthenticated stamp request.
#[local] Transparent verifySheetExists findExistingSheet createSheet.

Lemma farmacia_completed (d : Farmacia.Data) (w w1 : World) (e : Farmacia.t) :
  writeFarmacia d w = (Fulfilled e, w1) ->
  Farmacia.id e <> "" /\ Farmacia.createdAt e <> "" /\ Farmacia.data e = d.
Proof.
  intros Hwrite. rewrite writeFarmacia_via in Hwrite.
  apply via_completes in Hwrite as (ids & -> & Hid & Hcreated). auto.
Qed.

Lemma medico_completed (d : Medico.Data) (w w1 : World) (e : Medico.t) :
  writeMedico d w = (Fulfilled e, w1) ->
  Medico.id e <> "" /\ Medico.createdAt e <> "" /\ Medico.data e = d.
Proof.
  intros Hwrite. rewrite writeMedico_via in Hwrite.
  apply via_completes in Hwrite as (ids & -> & Hid & Hcreated). auto.
Qed.

Lemma farmacia_round_trip (d : Farmacia.Data) (w w1 w2 : World) (e : Farmacia.t)
    (l : list Farmacia.t) :
  farmaciaSurvives (format (remote w)) d = true ->
  writeFarmacia d w = (Fulfilled e, w1) ->
  readFarmacias w1 = (Fulfilled l, w2) ->
  headed FARMACIAS_TAB w1 = true ->
  resolvesCachedHandle w1 ->
  e ∈ l.
Proof.
  intros Hd Hwrite Hread Hhead Hcache.
  rewrite writeFarmacia_via in Hwrite. rewrite readFarmacias_via in Hread.
  destruct (via_round_trip _ _ _ _ _ _ _ _ _ _ _ Hwrite Hread Hhead Hcache)
    as (ids & -> & Hid & Hcreated & Hin).
  rewrite farmacia_back in Hin by exact Hd. apply Hin.
  apply not_eq_sym. intros Hnil. symmetry in Hnil. revert Hnil.
  apply (trimRow_nonEmpty_head (fst ids)). exact Hid.
Qed.

Lemma medico_round_trip (d : Medico.Data) (w w1 w2 : World) (e : Medico.t)
    (l : list Medico.t) :
  medicoSurvives (format (remote w)) d = true ->
  writeMedico d w = (Fulfilled e, w1) ->
  readMedicos w1 = (Fulfilled l, w2) ->
  headed MEDICOS_TAB w1 = true ->
  resolvesCachedHandle w1 ->
  e ∈ l.
Proof.
  intros Hd Hwrite Hread Hhead Hcache.
  rewrite writeMedico_via in Hwrite. rewrite readMedicos_via in Hread.
  destruct (via_round_trip _ _ _ _ _ _ _ _ _ _ _ Hwrite Hread Hhead Hcache)
    as (ids & -> & Hid & Hcreated & Hin).
  rewrite medico_back in Hin by exact Hd. apply Hin.
  apply not_eq_sym. intros Hnil. symmetry in Hnil. revert Hnil.
  apply (trimRow_nonEmpty_head (fst ids)). exact Hid.
Qed.

(** C9 (amended).  For both variants.  Every fulfilled append returns the
    fields given, completed with an [id] and a [createdAt] that are not
    empty.  When moreover every optional text given is absent or not empty
    and every number given is absent or read back from its formatted cell as
    the same number, the tab holds a row above the appended one, and the
    read that follows is fulfilled having resolved the cached handle, the
    one the append wrote through, by verification or by search, then the
    read returns the completed entity among its rows. *)
Theorem append_then_read :
  (forall (d : Farmacia.Data) (w w1 : World) (e : Farmacia.t),
     writeFarmacia d w = (Fulfilled e, w1) ->
     Farmacia.id e <> "" /\ Farmacia.createdAt e <> "" /\ Farmacia.data e = d)
  /\ (forall (d : Farmacia.Data) (w w1 w2 : World) (e : Farmacia.t) (l : list Farmacia.t),
     farmaciaSurvives (format (remote w)) d = true ->
     writeFarmacia d w = (Fulfilled e, w1) ->
     readFarmacias w1 = (Fulfilled l, w2) ->
     headed FARMACIAS_TAB w1 = true ->
     resolvesCachedHandle w1 ->
     e ∈ l)
  /\ (forall (d : Medico.Data) (w w1 : World) (e : Medico.t),
     writeMedico d w = (Fulfilled e, w1) ->
     Medico.id e <> "" /\ Medico.createdAt e <> "" /\ Medico.data e = d)
  /\ (forall (d : Medico.Data) (w w1 w2 : World) (e : Medico.t) (l : list Medico.t),
     medicoSurvives (format (remote w)) d = true ->
     writeMedico d w = (Fulfilled e, w1) ->
     readMedicos w1 = (Fulfilled l, w2) ->
     headed MEDICOS_TAB w1 = true ->
     resolvesCachedHandle w1 ->
     e ∈ l).
Proof.
  split; [exact farmacia_completed|]. split; [exact farmacia_round_trip|].
  split; [exact medico_completed|exact medico_round_trip].
Qed.

Lemma pair_of_fst {A B} (x : A * B) (a : A) : fst x = a -> x = (a, snd x).
Proof. destruct x. simpl. now intros ->. Qed.

Lemma not_entered (t : Tier) (tr : list (Tier * TierOutcome)) :
  forallb (fun x => negb (match fst x, t with
                          | Verify, Verify | Search, Search | Create, Create => true
                          | _, _ => false
                          end)) tr = true ->
  forall c, (t, c) ∉ tr.
Proof.
  induction tr as [|[t' o] tr IH]; intros H c Hin; [inversion Hin|].
  simpl in H. apply andb_true_iff in H as [Ht Htr].
  apply elem_of_cons in Hin as [Hin|Hin]; [|exact (IH Htr c Hin)].
  injection Hin as <- _. destruct t; discriminate.
Qed.

(** The amended statement on the sample pharmacy and the sample doctor,
    appended to a resolved sheet and read back: once with the read
    resolving the handle by verification, once (the verification being
    refused) by search. *)
Lemma append_then_read_witness :
  completeFarmacia sampleFarmacia sampleIds
    ∈ fulfilledWith (fst (readFarmacias (snd (writeFarmacia sampleFarmacia readyWorld)))) []
  /\ completeMedico sampleMedico sampleIds
    ∈ fulfilledWith (fst (readMedicos (snd (writeMedico sampleMedico readyWorld)))) []
  /\ completeFarmacia sampleFarmacia sampleIds
    ∈ fulfilledWith (fst (readFarmacias (snd (writeFarmacia sampleFarmacia unverified)))) []
  /\ Farmacia.id (completeFarmacia sampleFarmacia sampleIds) <> "".
Proof.
  split; [|split; [|split]].
  - apply (proj1 (proj2 append_then_read) sampleFarmacia readyWorld
             (snd (writeFarmacia sampleFarmacia readyWorld))
             (snd (readFarmacias (snd (writeFarmacia sampleFarmacia readyWorld))))).
    + vm_compute. reflexivity.
    + apply pair_of_fst. vm_compute. reflexivity.
    + apply pair_of_fst. vm_compute. reflexivity.
    + vm_compute. reflexivity.
    + exists "sheet-0". split; [vm_compute; reflexivity|].
      split; [vm_compute; reflexivity|].
      apply not_entered. vm_compute. reflexivity.
  - apply (proj2 (proj2 (proj2 append_then_read)) sampleMedico readyWorld
             (snd (writeMedico sampleMedico readyWorld))
             (snd (readMedicos (snd (writeMedico sampleMedico readyWorld))))).
    + vm_compute. reflexivity.
    + apply pair_of_fst. vm_compute. reflexivity.
    + apply pair_of_fst. vm_compute. reflexivity.
    + vm_compute. reflexivity.
    + exists "sheet-0". split; [vm_compute; reflexivity|].
      split; [vm_compute; reflexivity|].
      apply not_entered. vm_compute. reflexivity.
  - apply (proj1 (proj2 append_then_read) sampleFarmacia unverified
             (snd (writeFarmacia sampleFarmacia unverified))
             (snd (readFarmacias (snd (writeFarmacia sampleFarmacia unverified))))).
    + vm_compute. reflexivity.
    + apply pair_of_fst. vm_compute. reflexivity.
    + apply pair_of_fst. vm_compute. reflexivity.
    + vm_compute. reflexivity.
    + exists "sheet-0". split; [vm_compute; reflexivity|].
      split; [vm_compute; reflexivity|].
      apply not_entered. vm_compute. reflexivity.
  - apply (proj1 append_then_read sampleFarmacia readyWorld
             (snd (writeFarmacia sampleFarmacia readyWorld))
             (completeFarmacia sampleFarmacia sampleIds)).
    apply pair_of_fst. vm_compute. reflexivity.
Defined.

Ltac refute_round_trip d w :=
  let H := fresh in
  intros H;
  destruct (H (fulfilledWith (fst (writeFarmacia d w)) (completeFarmacia d ("", "")))
              (snd (writeFarmacia d w))
              (fulfilledWith (fst (readFarmacias (snd (writeFarmacia d w)))) [])
              (snd (readFarmacias (snd (writeFarmacia d w)))))
    as [Hin _];
  [ apply pair_of_fst; vm_compute; reflexivity
  | apply pair_of_fst; vm_compute; reflexivity
  | vm_compute in Hin;
    repeat match type of Hin with
           | list_elem_of _ (_ :: _) =>
               let Hin' := fresh in
               inversion Hin as [|? ? ? Hin']; subst; clear Hin; rename Hin' into Hin
           end;
    inversion Hin ].

(** C9 as stated fails, in five ways.  A pharmacy submitted with an empty
    [phone] is read back without a [phone].  In a spreadsheet whose locale
    writes numbers with a decimal comma, the coordinates are read back cut
    at the comma.  When the first resolution was refused the write of the
    header rows, the appended row is the first of its tab and the read,
    which starts at the second row, does not return it.  When the
    verification made by the read is refused and a newer spreadsheet of the
    same title exists, the read is served from that spreadsheet.  When the
    verification and the search made by the read are both refused, the read
    creates a spreadsheet and is served from it. *)
Lemma append_then_read_counterexample :
  ~ farmaciaRoundTrip blankPhoneFarmacia readyWorld
  /\ ~ farmaciaRoundTrip sampleFarmacia commaLocale
  /\ ~ farmaciaRoundTrip sampleFarmacia headerless
  /\ ~ farmaciaRoundTrip sampleFarmacia overtaken
  /\ ~ farmaciaRoundTrip sampleFarmacia estranged.
Proof.
  split; [|split; [|split; [|split]]].
  - refute_round_trip blankPhoneFarmacia readyWorld.
  - refute_round_trip sampleFarmacia commaLocale.
  - refute_round_trip sampleFarmacia headerless.
  - refute_round_trip sampleFarmacia overtaken.
  - refute_round_trip sampleFarmacia estranged.
Qed.

End StoreFacts.

(* ===================================================================== *)
(** * Decimal strings *)
(* ===================================================================== *)

Module DigitsFacts.
Import Js JsFacts DigitsSpec.

Lemma uintValue_of_lu (d d' : Decimal.uint) :
  DecimalPos.Unsigned.of_lu (Decimal.revapp d d') = uintValue d (DecimalPos.Unsigned.of_lu d').
Proof.
  revert d'. induction d; intros d'; simpl; try reflexivity; rewrite IHd; reflexivity.
Qed.

Lemma uintValue_of_uint (d : Decimal.uint) : uintValue d 0 = N.of_uint d.
Proof.
  unfold N.of_uint. rewrite DecimalPos.Unsigned.of_uint_alt.
  unfold Decimal.rev. rewrite uintValue_of_lu. reflexivity.
Qed.

(** Reading the digits of [d] in radix 10 continues the number read so
    far. *)
(** Reading the digits of [d] in radix 10 continues the number read so
    far. *)
Lemma readDigits_uint (d : Decimal.uint) (rest : string) (a : N) :
  readDigits 10 (NilEmpty.string_of_uint d ++ rest) (Some a)
  = readDigits 10 rest (Some (uintValue d a)).
Proof.
  revert a. induction d; intros a; simpl; try reflexivity;
    rewrite IHd; do 3 f_equal; lia.
Qed.

Lemma readDigits_digitsOf (m : N) (rest : string) :
  readDigits 10 (digitsOf m ++ rest) None = readDigits 10 rest (Some m).
Proof.
  unfold digitsOf, NilZero.string_of_uint.
  rewrite <- (DecimalN.Unsigned.of_to m) at 2. rewrite <- uintValue_of_uint.
  destruct (N.to_uint m) as [|d|d|d|d|d|d|d|d|d|d]; simpl; try reflexivity;
    rewrite readDigits_uint; reflexivity.
Qed.

Lemma readDigits_zeros (n : nat) (rest : string) (a : N) :
  readDigits 10 (zeros n ++ rest) (Some a) = readDigits 10 rest (Some (a * 10 ^ N.of_nat n)%N).
Proof.
  revert a. induction n as [|n IH]; intros a.
  - simpl. do 2 f_equal. lia.
  - change (zeros (S n) ++ rest) with (String "0" (zeros n ++ rest)).
    cbn [readDigits]. change (digitValue "0") with (Some 0%N). cbn [N.ltb N.compare].
    rewrite IH. do 2 f_equal. rewrite Nat2N.inj_succ, N.pow_succ_r'. lia.
Qed.

Lemma readDigits_end (radix : N) (a : option N) : readDigits radix "" a = (a, "").
Proof. reflexivity. Qed.

(** The number a string of digits continues is at least the number read so
    far, shifted by the length of the string. *)
Lemma uintValue_lower (d : Decimal.uint) (a : N) :
  (a * 10 ^ N.of_nat (String.length (NilEmpty.string_of_uint d)) <= uintValue d a)%N.
Proof.
  revert a. induction d; intros a; cbn [NilEmpty.string_of_uint String.length uintValue];
    rewrite ?Nat2N.inj_succ, ?N.pow_succ_r'; [simpl; lia|..];
    (etransitivity; [|apply IHd]); nia.
Qed.

(** The decimal digits of a positive number do not start with a zero. *)
Lemma to_uint_head (m : N) (d : Decimal.uint) : (0 < m)%N -> N.to_uint m <> Decimal.D0 d.
Proof.
  intros Hm E.
  pose proof (DecimalN.Unsigned.to_of (N.to_uint m)) as Hn.
  rewrite DecimalN.Unsigned.of_to, E, DecimalFacts.unorm_D0 in Hn.
  unfold Decimal.unorm in Hn.
  pose proof (DecimalFacts.nzhead_nonzero d) as Hnz.
  destruct (Decimal.nzhead d) eqn:Hd; try discriminate Hn.
  - injection Hn as ->.
    pose proof (DecimalN.Unsigned.of_to m) as Hz. rewrite E in Hz.
    change (N.of_uint (Decimal.D0 Decimal.Nil)) with 0%N in Hz. lia.
  - exact (Hnz _ eq_refl).
Qed.

Lemma digitsOf_lower (m : N) :
  (0 < m)%N -> (10 ^ (N.of_nat (String.length (digitsOf m)) - 1) <= m)%N.
Proof.
  intros Hm. pose proof (to_uint_head m) as Hhead.
  pose proof (DecimalN.Unsigned.of_to m) as Hval. rewrite <- uintValue_of_uint in Hval.
  unfold digitsOf, NilZero.string_of_uint.
  destruct (N.to_uint m) as [|d|d|d|d|d|d|d|d|d|d];
    [simpl in Hval; lia|exfalso; now apply (Hhead d)|..];
    cbn [NilEmpty.string_of_uint String.length];
    rewrite Nat2N.inj_succ, N.sub_1_r, N.pred_succ;
    cbn [uintValue] in Hval; rewrite <- Hval;
    (etransitivity; [|apply uintValue_lower]); nia.
Qed.

(** Stripping zeros moves them from the mantissa to the exponent. *)
Lemma strip10_spec (fuel : nat) (m : N) (e : Z) (m' : N) (e' : Z) :
  strip10 fuel m e = (m', e') ->
  e <= e' /\ m = (m' * 10 ^ Z.to_N (e' - e))%N /\ ((0 < m)%N -> (0 < m')%N).
Proof.
  revert m e. induction fuel as [|fuel IH]; intros m e; simpl.
  - intros [= <- <-]. rewrite Z.sub_diag. simpl. lia.
  - destruct (_ && _) eqn:Hc.
    + intros H. apply IH in H as (Hle & Hm & Hpos).
      apply andb_true_iff in Hc as [Hc1 Hc2].
      apply N.ltb_lt in Hc1. apply N.eqb_eq in Hc2.
      pose proof (N.div_mod m 10 ltac:(lia)) as Hdiv. rewrite Hc2, N.add_0_r in Hdiv.
      split; [lia|]. split.
      * replace (Z.to_N (e' - e)) with (N.succ (Z.to_N (e' - (e + 1)))) by lia.
        rewrite N.pow_succ_r'. lia.
      * intros _. apply Hpos. lia.
    + intros [= <- <-]. rewrite Z.sub_diag. simpl. lia.
Qed.

(** An integer below 10^21 prints as its sign, digits and zeros, with no
    exponent: the string denotes the integer. *)
Lemma numToString_ofZ (z : Z) :
  z <> 0 -> Z.abs z < 10 ^ 21 ->
  exists (m : N) (k : nat),
    numToString (ofZ z) = (if z <? 0 then "-" else "") ++ digitsOf m ++ zeros k
    /\ (m * 10 ^ N.of_nat k)%N = Z.abs_N z.
Proof.
  intros Hz Hbound. unfold ofZ, normalize.
  destruct (Z.abs_N z =? 0)%N eqn:E0; [apply N.eqb_eq in E0; lia|].
  apply N.eqb_neq in E0.
  destruct (strip10 _ _ _) as [m e] eqn:Hs.
  apply strip10_spec in Hs as (He & Hm & Hpos). rewrite Z.sub_0_r in Hm.
  assert (0 < m)%N as Hm0 by (apply Hpos; lia).
  exists m, (Z.to_nat e). split; [|rewrite Z_nat_N; symmetry; exact Hm].
  unfold numToString. destruct (m =? 0)%N eqn:Em; [apply N.eqb_eq in Em; lia|].
  f_equal. unfold finToString, strLen.
  pose proof (digitsOf_lower m Hm0) as Hlow.
  set (len := String.length (digitsOf m)) in *.
  assert (0 < len)%nat as Hlen.
  { pose proof (digitsOf_nonEmpty m) as Hne. subst len.
    destruct (digitsOf m); [discriminate|simpl; lia]. }
  assert (Z.of_nat len + e <= 21) as Hfit.
  { assert ((10 ^ (N.of_nat len - 1 + Z.to_N e) < 10 ^ 21)%N) as Hp.
    { rewrite N.pow_add_r.
      apply N.le_lt_trans with (Z.abs_N z); [rewrite Hm; nia|].
      apply N2Z.inj_lt. rewrite N2Z.inj_abs_N. exact Hbound. }
    apply N.pow_lt_mono_r_iff in Hp; lia. }
  replace ((Z.of_nat len <=? Z.of_nat len + e) && (Z.of_nat len + e <=? 21)) with true
    by (symmetry; apply andb_true_iff; split; apply Z.leb_le; lia).
  do 2 f_equal. lia.
Qed.

Lemma readDigits_zeros_end (n : nat) (a : N) :
  readDigits 10 (zeros n) (Some a) = (Some (a * 10 ^ N.of_nat n)%N, "").
Proof.
  revert a. induction n as [|n IH]; intros a.
  - simpl. do 2 f_equal. lia.
  - change (zeros (S n)) with (String "0" (zeros n)).
    cbn [readDigits]. change (digitValue "0") with (Some 0%N). cbn [N.ltb N.compare].
    rewrite IH. do 2 f_equal. rewrite Nat2N.inj_succ, N.pow_succ_r'. lia.
Qed.

Lemma digitsOf_head (m : N) :
  exists c s, digitsOf m = String c s
              /\ isWhite c = false /\ c <> "-"%char /\ c <> "+"%char.
Proof.
  unfold digitsOf, NilZero.string_of_uint.
  destruct (N.to_uint m) as [|d|d|d|d|d|d|d|d|d|d]; simpl;
    eexists _, _; (split; [reflexivity|]); repeat split; discriminate.
Qed.

Lemma readSign_other (c : ascii) (s : string) :
  c <> "-"%char -> c <> "+"%char -> readSign (String c s) = (false, String c s).
Proof.
  intros H1 H2.
  destruct c as [[] [] [] [] [] [] [] []]; try reflexivity; congruence.
Qed.

(** [parseInt(s, 10)] on a string that starts neither with a blank nor with
    a sign, and on one that starts with a minus sign. *)
Lemma parseInt_unsigned (c : ascii) (s : string) :
  isWhite c = false -> c <> "-"%char -> c <> "+"%char ->
  parseInt (String c s) (Some 10)
  = match fst (readDigits 10 (String c s) None) with
    | Some n => Some (Z.of_N n)
    | None => None
    end.
Proof.
  intros Hw H1 H2. unfold parseInt. cbn [skipWhite]. rewrite Hw.
  rewrite readSign_other by assumption. reflexivity.
Qed.

Lemma parseInt_negative (s : string) :
  parseInt (String "-" s) (Some 10)
  = match fst (readDigits 10 s None) with
    | Some n => Some (- Z.of_N n)
    | None => None
    end.
Proof. reflexivity. Qed.

(** The decimal string of an integer below 10^21 parses back to it. *)
Lemma parseInt_numToString (z : Z) :
  Z.abs z < 10 ^ 21 -> parseInt (numToString (ofZ z)) (Some 10) = Some z.
Proof.
  intros Hbound. destruct (Z.eq_dec z 0) as [->|Hz]; [reflexivity|].
  destruct (numToString_ofZ z Hz Hbound) as (m & k & -> & Hm).
  destruct (z <? 0) eqn:Hneg.
  - change ("-" ++ digitsOf m ++ zeros k) with (String "-" (digitsOf m ++ zeros k)).
    rewrite parseInt_negative, readDigits_digitsOf, readDigits_zeros_end. simpl.
    rewrite Hm. f_equal. apply Z.ltb_lt in Hneg. lia.
  - change ("" ++ digitsOf m ++ zeros k) with (digitsOf m ++ zeros k).
    destruct (digitsOf_head m) as (c & s & E & Hw & H1 & H2).
    pose proof (readDigits_digitsOf m (zeros k)) as Hr. rewrite E in Hr |- *.
    change (String c s ++ zeros k) with (String c (s ++ zeros k)) in Hr |- *.
    rewrite parseInt_unsigned, Hr, readDigits_zeros_end by assumption. simpl.
    rewrite Hm. f_equal. apply Z.ltb_ge in Hneg. lia.
Qed.

(** Without a radix [parseInt] reads the same decimal number, unless the
    string is a hexadecimal literal, which radix 10 reads as zero. *)
Lemma parseInt_radix (s : string) (x : Z) :
  parseInt s (Some 10) = Some x -> x <> 0 -> parseInt s None = Some x.
Proof.
  unfold parseInt. destruct (readSign (skipWhite s)) as [neg s1]. cbn [negb andb orb Z.eqb Z.ltb Z.compare].
  destruct (stripHexPrefix s1) as [s'|] eqn:Hhex; [|auto].
  intros H Hx. exfalso. apply Hx. clear Hx.
  destruct s1 as [|c1 s1]; [discriminate Hhex|].
  assert (c1 = "0"%char) as ->
    by (destruct c1 as [[] [] [] [] [] [] [] []]; try discriminate Hhex; reflexivity).
  destruct s1 as [|c2 s2]; [discriminate Hhex|].
  assert (digitValue c2 = Some 33%N) as Hc2
    by (destruct c2 as [[] [] [] [] [] [] [] []]; try discriminate Hhex; reflexivity).
  change (match fst (readDigits 10 (String c2 s2) (Some 0%N)) with
          | Some n => Some (if neg then - Z.of_N n else Z.of_N n)
          | None => None
          end = Some x) in H.
  cbn [readDigits] in H. rewrite Hc2 in H. simpl in H.
  destruct neg; injection H as <-; reflexivity.
Qed.

End DigitsFacts.

(* ===================================================================== *)
(** * Sessions: what is stored and what is read back *)
(* ===================================================================== *)

Module TokenFacts.
Import Js AuthService AuthSpec TokenSpec JsFacts DigitsFacts SessionFacts.

Lemma getItem_setItem (k k' v : string) (s : State) :
  getItem k (setItem k' v s) = if decide (k' = k) then Some v else getItem k s.
Proof.
  unfold getItem, setItem. simpl. case_decide as E.
  - subst. apply lookup_insert_eq.
  - now apply lookup_insert_ne.
Qed.

Lemma getItem_removeItem (k k' : string) (s : State) :
  getItem k (removeItem k' s) = if decide (k' = k) then None else getItem k s.
Proof.
  unfold getItem, removeItem. simpl. rewrite lookup_delete. reflexivity.
Qed.


Lemma getItem_emit (k : string) (f : Effect) (s : State) :
  getItem k (emit f s) = getItem k s.
Proof. reflexivity. Qed.

Lemma token_storeTokens (token : string) (expiresAt : option Z) (s : State) :
  getItem ACCESS_TOKEN (storeTokens token expiresAt s) = Some token.
Proof. unfold storeTokens. rewrite !getItem_setItem. reflexivity. Qed.

Lemma expiry_storeTokens (token : string) (expiresAt : option Z) (s : State) :
  getItem EXPIRES_AT (storeTokens token expiresAt s) = Some (intToString expiresAt).
Proof. unfold storeTokens. rewrite !getItem_setItem. reflexivity. Qed.

Lemma sheetId_storeTokens (token : string) (expiresAt : option Z) (s : State) :
  getItem SHEET_ID (storeTokens token expiresAt s) = getItem SHEET_ID s.
Proof. unfold storeTokens. rewrite !getItem_setItem. reflexivity. Qed.

Lemma parseInt_intToString (expiresAt : option Z) :
  (forall x, expiresAt = Some x -> Z.abs x < 10 ^ 21) ->
  parseInt (intToString expiresAt) (Some 10) = expiresAt.
Proof.
  destruct expiresAt as [x|]; [|reflexivity].
  intros H. apply parseInt_numToString, H. reflexivity.
Qed.

Lemma intToString_nonEmpty (expiresAt : option Z) : nonEmpty (intToString expiresAt) = true.
Proof. destruct expiresAt; [apply numToString_nonEmpty|reflexivity]. Qed.

Lemma isAuthenticated_storeTokens (now : Z) (token : string) (expiresAt : option Z) (s : State) :
  (forall x, expiresAt = Some x -> Z.abs x < 10 ^ 21) ->
  isAuthenticated now (storeTokens token expiresAt s)
  = nonEmpty token && ltNum (Some now) expiresAt.
Proof.
  intros Hb. unfold isAuthenticated. rewrite token_storeTokens, expiry_storeTokens.
  cbn [present default from_option id].
  rewrite intToString_nonEmpty, parseInt_intToString by exact Hb.
  destruct (nonEmpty token); reflexivity.
Qed.

(** X2.  Storing a token with an expiry below 10^21 and asking
    [isAuthenticated] at [now] answers whether the token is not empty and
    [now] is before the expiry (never, for an expiry that is [NaN]); when it
    answers yes, [getAccessToken] returns the stored token and leaves the
    state as it is. *)
Theorem storeTokens_then_isAuthenticated
    (now : Z) (token : string) (expiresAt : option Z) (s : State) :
  (forall x, expiresAt = Some x -> Z.abs x < 10 ^ 21) ->
  isAuthenticated now (storeTokens token expiresAt s)
  = nonEmpty token && ltNum (Some now) expiresAt
  /\ (nonEmpty token && ltNum (Some now) expiresAt = true ->
      forall env,
        getAccessToken now env (storeTokens token expiresAt s)
        = (Fulfilled (Some token), storeTokens token expiresAt s)).
Proof.
  intros Hb. split; [now apply isAuthenticated_storeTokens|].
  intros Hok env. apply andb_true_iff in Hok as [Htok Hlt].
  unfold getAccessToken. rewrite token_storeTokens, expiry_storeTokens.
  cbn [present default from_option id].
  rewrite Htok, intToString_nonEmpty, parseInt_intToString, Hlt by exact Hb.
  reflexivity.
Qed.

Lemma storeTokens_then_isAuthenticated_witness :
  isAuthenticated 1730000000000 (storeTokens "ya29.token" (Some 1730003600000) initial)
  = nonEmpty "ya29.token" && ltNum (Some 1730000000000) (Some 1730003600000)
  /\ isAuthenticated 1730000000000 (storeTokens "ya29.token" None initial)
     = nonEmpty "ya29.token" && ltNum (Some 1730000000000) None.
Proof.
  split.
  - apply (storeTokens_then_isAuthenticated 1730000000000 "ya29.token"
             (Some 1730003600000) initial).
    intros x [= <-]. reflexivity.
  - apply (storeTokens_then_isAuthenticated 1730000000000 "ya29.token" None initial).
    intros x [=].
Defined.

Lemma signIn_asks (env : SignInEnv) (s : State) (t : Z) (response : TokenResponse) :
  granted env s t response ->
  signIn env s
  = (Fulfilled tt,
     setToken (Some (access_token response))
       (storeTokens (access_token response)
          (match parseInt (expires_in response) None with
           | Some n => Some (t + n * 1000)
           | None => None
           end)
          (emit (RequestAccessToken "") s))).
Proof.
  intros (Hclient & Hreuse & Hflow & Herr). unfold signIn.
  rewrite Hclient. cbn [negb]. fold (reusable env s). rewrite Hreuse, Hflow, Herr.
  reflexivity.
Qed.

Lemma isAuthenticated_setToken (now : Z) (t : option string) (s : State) :
  isAuthenticated now (setToken t s) = isAuthenticated now s.
Proof. reflexivity. Qed.



(** X4.  A grant that carries an empty token, or a lifetime [parseInt]
    cannot read, still resolves [signIn], but opens no session:
    [isAuthenticated] is false at every instant afterwards. *)
Theorem signIn_grant_without_session
    (env : SignInEnv) (s : State) (t : Z) (response : TokenResponse) :
  granted env s t response ->
  access_token response = "" \/ parseInt (expires_in response) None = None ->
  fst (signIn env s) = Fulfilled tt
  /\ forall now, isAuthenticated now (snd (signIn env s)) = false.
Proof.
  intros Hg Hbad. rewrite (signIn_asks _ _ _ _ Hg). cbn [fst snd].
  split; [reflexivity|]. intros now. rewrite isAuthenticated_setToken.
  unfold isAuthenticated. rewrite token_storeTokens, expiry_storeTokens.
  cbn [present default from_option id]. destruct Hbad as [-> | ->].
  - reflexivity.
  - destruct (_ || _); reflexivity.
Qed.

Lemma signIn_grant_without_session_witness :
  fst (signIn grantWithoutLifetime loaded) = Fulfilled tt
  /\ forall now, isAuthenticated now (snd (signIn grantWithoutLifetime loaded)) = false.
Proof.
  apply (signIn_grant_without_session grantWithoutLifetime loaded 1730000001500
           (mkTokenResponse "ya29.fresh" "" None)).
  - repeat split.
  - right. reflexivity.
Defined.

Lemma isAuthenticated_true (now : Z) (s : State) :
  isAuthenticated now s = true ->
  exists token expiry x,
    getItem ACCESS_TOKEN s = Some token /\ nonEmpty token = true
    /\ getItem EXPIRES_AT s = Some expiry /\ nonEmpty expiry = true
    /\ parseInt expiry (Some 10) = Some x /\ now < x.
Proof.
  unfold isAuthenticated.
  destruct (getItem ACCESS_TOKEN s) as [token|]; [|discriminate].
  destruct (getItem EXPIRES_AT s) as [expiry|]; [|cbn; rewrite orb_true_r; discriminate].
  cbn [present default from_option id].
  destruct (nonEmpty token) eqn:Hne; [|discriminate].
  destruct (nonEmpty expiry) eqn:Hne'; [|discriminate]. cbn [negb orb].
  destruct (parseInt expiry (Some 10)) as [x|] eqn:Hx; [|discriminate].
  cbn [ltNum]. intros H. apply Z.ltb_lt in H.
  exists token, expiry, x. repeat split; assumption || reflexivity.
Qed.

(** X5.  [isAuthenticated] and [signIn] read the stored expiry in different
    ways (with radix 10, and without a radix), yet from the epoch on they
    agree: whenever [isAuthenticated] holds at [now], a [signIn] that reads
    the clock at [now] resolves with the stored token put on the gapi
    client, asking for no consent and changing nothing else. *)
Theorem isAuthenticated_then_signIn_is_silent
    (now : Z) (consent : option (Z * TokenResponse)) (s : State) :
  tokenClient s = true ->
  0 <= now ->
  isAuthenticated now s = true ->
  signIn (mkSignInEnv now consent) s = (Fulfilled tt, setToken (getItem ACCESS_TOKEN s) s).
Proof.
  intros Hclient Hnow Hauth.
  apply isAuthenticated_true in Hauth as (token & expiry & x & Ht & Hne & He & Hne' & Hx & Hlt).
  unfold signIn. rewrite Hclient, Ht, He. cbn [negb present default from_option id checkTime].
  rewrite Hne, Hne', (parseInt_radix expiry x Hx) by lia.
  cbn [ltNum andb]. apply Z.ltb_lt in Hlt. rewrite Hlt. reflexivity.
Qed.

Lemma isAuthenticated_then_signIn_is_silent_witness :
  signIn (mkSignInEnv 1730000000000 None) signedIn
  = (Fulfilled tt, setToken (getItem ACCESS_TOKEN signedIn) signedIn).
Proof.
  apply (isAuthenticated_then_signIn_is_silent 1730000000000 None signedIn).
  - reflexivity.
  - lia.
  - reflexivity.
Defined.

Lemma isAuthenticated_cleared (now : Z) (s : State) :
  getItem ACCESS_TOKEN s = None -> isAuthenticated now s = false.
Proof. unfold isAuthenticated. intros ->. reflexivity. Qed.

Lemma getAccessToken_cleared (now : Z) (env : SignInEnv) (s : State) :
  getItem ACCESS_TOKEN s = None -> getAccessToken now env s = (Fulfilled None, s).
Proof. unfold getAccessToken. intros ->. reflexivity. Qed.

Lemma signOut_fulfilled (revokeThrows : option JsValue) (s s' : State) :
  signOut revokeThrows s = (Fulfilled tt, s') ->
  cleared s' /\ effects s' = (effects s ++ match gapiToken s with
                                           | Some token => [Revoke token]
                                           | None => []
                                           end)%list.
Proof.
  unfold signOut.
  destruct (gapiToken s) as [token|]; [destruct revokeThrows; [discriminate|]|];
    intros [= <-]; (split; [apply clearStoredTokens_cleared|]).
  - reflexivity.
  - simpl. now rewrite app_nil_r.
Qed.

(** X6.  Once [signOut] has resolved the session is over for the other
    entry points: [isAuthenticated] is false at every instant,
    [getAccessToken] answers [null] without asking for consent, and
    [getSheetUrl] has no sheet to point to.  The token is revoked exactly
    when one was on the gapi client. *)
Theorem signOut_ends_session (revokeThrows : option JsValue) (s s' : State) :
  signOut revokeThrows s = (Fulfilled tt, s') ->
  (forall now, isAuthenticated now s' = false)
  /\ (forall now env, getAccessToken now env s' = (Fulfilled None, s'))
  /\ SheetLink.getSheetUrl s' = None
  /\ effects s' = (effects s ++ match gapiToken s with
                                | Some token => [Revoke token]
                                | None => []
                                end)%list.
Proof.
  intros H. apply signOut_fulfilled in H as ((Htok & _ & Hid) & Heff).
  split; [|split; [|split]].
  - intros now. now apply isAuthenticated_cleared.
  - intros now env. now apply getAccessToken_cleared.
  - unfold SheetLink.getSheetUrl, getStoredSheetId. rewrite Hid. reflexivity.
  - exact Heff.
Qed.

Lemma signOut_ends_session_witness :
  (forall now, isAuthenticated now (snd (signOut None signedIn)) = false)
  /\ (forall now env,
        getAccessToken now env (snd (signOut None signedIn))
        = (Fulfilled None, snd (signOut None signedIn)))
  /\ SheetLink.getSheetUrl (snd (signOut None signedIn)) = None
  /\ effects (snd (signOut None signedIn)) = (effects signedIn ++ [Revoke "ya29.token"])%list.
Proof.
  apply (signOut_ends_session None signedIn (snd (signOut None signedIn))).
  reflexivity.
Defined.

Lemma getAccessToken_without_session (now : Z) (env : SignInEnv) (s : State) :
  present (getItem ACCESS_TOKEN s) && present (getItem EXPIRES_AT s) = false ->
  getAccessToken now env s = (Fulfilled None, s).
Proof.
  unfold getAccessToken. intros H. apply andb_false_iff in H as [-> | ->]; [reflexivity|].
  rewrite orb_true_r. reflexivity.
Qed.

(** X7.  [getAccessToken] never rejects, whatever [signIn] does; with no
    token or no expiry stored it answers [null] and leaves the state as it
    is, consent included; and a token it returns is the one found in
    storage when it returns. *)
Theorem getAccessToken_never_rejects (now : Z) (env : SignInEnv) (s : State) :
  (forall e, fst (getAccessToken now env s) <> Failed e)
  /\ (present (getItem ACCESS_TOKEN s) && present (getItem EXPIRES_AT s) = false ->
      getAccessToken now env s = (Fulfilled None, s))
  /\ (forall token, fst (getAccessToken now env s) = Fulfilled (Some token) ->
      getItem ACCESS_TOKEN (snd (getAccessToken now env s)) = Some token).
Proof.
  unfold getAccessToken. split; [|split].
  - intros e. destruct (_ || _); [discriminate|].
    destruct (ltNum _ _); [discriminate|].
    destruct (signIn env s) as [[[]|e'|] s1]; discriminate.
  - apply getAccessToken_without_session.
  - intros token. destruct (_ || _); [discriminate|].
    destruct (ltNum _ _); [simpl; congruence|].
    destruct (signIn env s) as [[[]|e'|] s1]; simpl; congruence.
Qed.

Lemma getAccessToken_never_rejects_witness :
  getAccessToken 1730000000000 hourGrant loaded = (Fulfilled None, loaded).
Proof.
  apply (getAccessToken_never_rejects 1730000000000 hourGrant loaded).
  reflexivity.
Defined.

(** X8.  The cached sheet ID and the session are stored apart: what
    [storeSheetId] stores is what [getStoredSheetId] returns, and
    [clearSheetId] empties it, neither changing the answer of
    [isAuthenticated]; storing a new token keeps the cached sheet ID, while
    clearing the tokens drops it. *)
Theorem sheetId_and_session_are_independent
    (now : Z) (sheetId token : string) (expiresAt : option Z) (s : State) :
  getStoredSheetId (storeSheetId sheetId s) = Some sheetId
  /\ getStoredSheetId (clearSheetId s) = None
  /\ isAuthenticated now (storeSheetId sheetId s) = isAuthenticated now s
  /\ isAuthenticated now (clearSheetId s) = isAuthenticated now s
  /\ getStoredSheetId (storeTokens token expiresAt s) = getStoredSheetId s
  /\ getStoredSheetId (clearStoredTokens s) = None.
Proof.
  unfold getStoredSheetId, storeSheetId, clearSheetId, isAuthenticated.
  rewrite sheetId_storeTokens, !getItem_setItem, !getItem_removeItem.
  repeat split.
  destruct (clearStoredTokens_cleared s) as (_ & _ & H). exact H.
Qed.

End TokenFacts.

(* ===================================================================== *)
(** * Waiting for a script to load *)
(* ===================================================================== *)

Module WaitingFacts.
Import Js AuthService(PromiseState, Pending, Resolved, Rejected) Waiting WaitingSpec.

Lemma poll_quiet (name : string) (timeout startTime : Z) (pre rest : list Firing) :
  Forall (quiet timeout startTime) pre ->
  poll name timeout startTime (pre ++ rest) = poll name timeout startTime rest.
Proof.
  induction 1 as [|f pre [Hr Ht] _ IH]; [reflexivity|].
  simpl. rewrite Hr. apply Z.ltb_ge in Ht. rewrite Ht. exact IH.
Qed.

Lemma poll_split (name : string) (timeout startTime : Z) (firings : list Firing) :
  (Forall (quiet timeout startTime) firings
   /\ poll name timeout startTime firings = Pending)
  \/ exists f,
       firstDecisive timeout startTime firings f
       /\ ((ready f = true /\ poll name timeout startTime firings = Resolved)
           \/ (ready f = false /\ timeout < clockAt f - startTime
               /\ poll name timeout startTime firings = Rejected (timeoutError name))).
Proof.
  induction firings as [|f firings IH]; [left; split; [constructor|reflexivity]|].
  simpl. destruct (ready f) eqn:Hr.
  { right. exists f. split; [exists [], firings; split; [reflexivity|constructor]|].
    left. split; [exact Hr|reflexivity]. }
  destruct (timeout <? clockAt f - startTime) eqn:Ht.
  { right. exists f. split; [exists [], firings; split; [reflexivity|constructor]|].
    right. apply Z.ltb_lt in Ht. split; [exact Hr|]. split; [exact Ht|reflexivity]. }
  apply Z.ltb_ge in Ht.
  destruct IH as [[Hq Hp]|(g & (pre & post & -> & Hq) & Hg)].
  - left. split; [constructor; [split; assumption|exact Hq]|exact Hp].
  - right. exists g. split; [|exact Hg].
    exists (f :: pre), post. split; [reflexivity|]. constructor; [split; assumption|exact Hq].
Qed.

Lemma poll_resolves (name : string) (timeout startTime : Z) (firings : list Firing) f :
  firstDecisive timeout startTime firings f -> ready f = true ->
  poll name timeout startTime firings = Resolved.
Proof.
  intros (pre & post & -> & Hq) Hr. rewrite poll_quiet by exact Hq.
  simpl. rewrite Hr. reflexivity.
Qed.

Lemma poll_rejects (name : string) (timeout startTime : Z) (firings : list Firing) f :
  firstDecisive timeout startTime firings f ->
  ready f = false -> timeout < clockAt f - startTime ->
  poll name timeout startTime firings = Rejected (timeoutError name).
Proof.
  intros (pre & post & -> & Hq) Hr Ht. rewrite poll_quiet by exact Hq.
  simpl. rewrite Hr. apply Z.ltb_lt in Ht. rewrite Ht. reflexivity.
Qed.

Lemma poll_pending (name : string) (timeout startTime : Z) (firings : list Firing) :
  Forall (quiet timeout startTime) firings ->
  poll name timeout startTime firings = Pending.
Proof.
  intros Hq. rewrite <- (app_nil_r firings). now rewrite poll_quiet.
Qed.

(** X1.  [waitForGlobal] is settled by the first firing of its interval
    that is not quiet: it resolves exactly when that firing finds the check
    true (however late), rejects, with the message that names the global,
    exactly when that firing finds the check false more than [timeout]
    (10000 by default) after the start, and stays pending exactly while
    every firing is quiet.  Firings after the decisive one change
    nothing. *)
Theorem waitForGlobal_first_decisive_firing
    (name : string) (timeout : option Z) (startTime : Z) (firings : list Firing) :
  (waitForGlobal name timeout startTime firings = Resolved
   <-> exists f, firstDecisive (default 10000 timeout) startTime firings f /\ ready f = true)
  /\ (forall e,
        waitForGlobal name timeout startTime firings = Rejected e
        <-> e = timeoutError name
            /\ exists f, firstDecisive (default 10000 timeout) startTime firings f
                         /\ ready f = false
                         /\ default 10000 timeout < clockAt f - startTime)
  /\ (waitForGlobal name timeout startTime firings = Pending
      <-> Forall (quiet (default 10000 timeout) startTime) firings).
Proof.
  unfold waitForGlobal. generalize (default 10000 timeout). intros limit.
  pose proof (poll_resolves name limit startTime firings) as Hres.
  pose proof (poll_rejects name limit startTime firings) as Hrej.
  pose proof (poll_pending name limit startTime firings) as Hpen.
  destruct (poll_split name limit startTime firings)
    as [[Hq Hp]|(f & Hf & [[Hr Hp]|(Hr & Ht & Hp)])].
  - split; [|split].
    + split; [rewrite Hp; discriminate|].
      intros (g & Hg & Hgr). now apply (Hres g).
    + intros e. split; [rewrite Hp; discriminate|].
      intros (_ & g & Hg & Hgr & Hgt). rewrite (Hrej g Hg Hgr Hgt) in Hp. discriminate.
    + split; [intros _; exact Hq|exact Hpen].
  - split; [|split].
    + split; [intros _; exists f; split; assumption|intros _; exact Hp].
    + intros e. split; [rewrite Hp; discriminate|].
      intros (_ & g & Hg & Hgr & Hgt). rewrite (Hrej g Hg Hgr Hgt) in Hp. discriminate.
    + split; [rewrite Hp; discriminate|].
      intros Hq. rewrite (Hpen Hq) in Hp. discriminate.
  - split; [|split].
    + split; [rewrite Hp; discriminate|].
      intros (g & Hg & Hgr). rewrite (Hres g Hg Hgr) in Hp. discriminate.
    + intros e. split.
      * rewrite Hp. intros [= <-]. split; [reflexivity|]. exists f. repeat split; assumption.
      * intros (-> & _). exact Hp.
    + split; [rewrite Hp; discriminate|].
      intros Hq. rewrite (Hpen Hq) in Hp. discriminate.
Qed.

(** The default timeout: the check still fails at 10000 ms, holds at
    10100 ms, and the wait resolves; had it failed again, the wait would
    have been rejected. *)
Lemma waitForGlobal_first_decisive_firing_witness :
  waitForGlobal "gapi" None 0 [mkFiring false 10000; mkFiring true 10100] = Resolved
  /\ waitForGlobal "gapi" None 0 [mkFiring false 10000; mkFiring false 10100]
     = Rejected (timeoutError "gapi").
Proof.
  split.
  - apply (waitForGlobal_first_decisive_firing "gapi" None 0
             [mkFiring false 10000; mkFiring true 10100]).
    exists (mkFiring true 10100). split; [|reflexivity].
    exists [mkFiring false 10000], []. split; [reflexivity|].
    constructor; [|constructor]. split; [reflexivity|]. simpl. lia.
  - apply (waitForGlobal_first_decisive_firing "gapi" None 0
             [mkFiring false 10000; mkFiring false 10100]).
    split; [reflexivity|]. exists (mkFiring false 10100).
    split; [|split; [reflexivity|simpl; lia]].
    exists [mkFiring false 10000], []. split; [reflexivity|].
    constructor; [|constructor]. split; [reflexivity|]. simpl. lia.
Defined.

End WaitingFacts.

(* ===================================================================== *)
(** * The service when the session is valid and the store answers *)
(* ===================================================================== *)

Module ServiceFacts.
Import Js Errors Rows AuthService(Settled, Fulfilled, Failed, Never, present).
Import SheetsService RowsSpec SheetsSpec ServiceSpec JsFacts RowsFacts ResolverFacts StoreFacts.
Import TokenFacts.

(** ** Messages *)

Lemma extractErrorMessage_newError (m : string) :
  extractErrorMessage (newError m) = Normal (VString m).
Proof. reflexivity. Qed.

Lemma extractErrorMessage_gapiFailure (code : N) (m status : string) :
  m <> "" -> extractErrorMessage (gapiFailure code m status) = Normal (VString m).
Proof.
  intros Hm. apply nonEmpty_true in Hm.
  unfold extractErrorMessage, gapiMessage, gapiFailure. simpl. rewrite Hm. reflexivity.
Qed.

Lemma rethrow_newError {A} (prefix m : string) (w : World) :
  @rethrow A prefix (newError m) w = (Failed (newError (prefix ++ m)), w).
Proof. reflexivity. Qed.

Lemma rethrow_gapiFailure {A} (prefix : string) (code : N) (m status : string) (w : World) :
  m <> "" ->
  @rethrow A prefix (gapiFailure code m status) w = (Failed (newError (prefix ++ m)), w).
Proof.
  intros Hm. unfold rethrow, bind, lift.
  rewrite extractErrorMessage_gapiFailure by exact Hm. reflexivity.
Qed.

(** ** Running under a valid session *)

Lemma isAuthenticated_getAccessToken (now : Z) (env : AuthService.SignInEnv)
    (s : AuthService.State) :
  AuthService.isAuthenticated now s = true ->
  AuthService.getAccessToken now env s
  = (Fulfilled (AuthService.getItem AuthService.ACCESS_TOKEN s), s)
  /\ present (AuthService.getItem AuthService.ACCESS_TOKEN s) = true.
Proof.
  intros H. pose proof H as H'.
  apply isAuthenticated_true in H' as (token & expiry & x & Ht & Hne & He & Hne' & Hx & Hlt).
  unfold AuthService.isAuthenticated in H. unfold AuthService.getAccessToken.
  destruct (_ || _); [discriminate|]. rewrite H. split; [reflexivity|].
  rewrite Ht. exact Hne.
Qed.

Lemma ensureAuthenticated_cooperative (w : World) :
  cooperative w -> ensureAuthenticated w = (Fulfilled tt, signed w).
Proof.
  intros Hw. destruct (Hw (tick w) (le_n _)) as [_ Hauth].
  unfold ensureAuthenticated, getAccessToken, bind, tock. cbn beta iota. cbn [auth].
  destruct (isAuthenticated_getAccessToken _ (signInEnv (oracle w (tick w))) _ Hauth)
    as [-> Hp].
  cbn beta iota. rewrite Hp. reflexivity.
Qed.

Lemma request_cooperative {A} (serve : Remote -> Completion (A * Remote)) (w : World) :
  cooperative w ->
  request serve w
  = match serve (remote w) with
    | Normal (a, r) => (Fulfilled a, setRemote r (snd (tock w)))
    | Throw e => (Failed e, snd (tock w))
    end.
Proof.
  intros Hw. destruct (Hw (tick w) (le_n _)) as [Hserved _].
  unfold request, bind, tock. cbn beta iota. rewrite Hserved. reflexivity.
Qed.

(** What keeps a world cooperative: the oracle, the two entries of the
    session, and a tick that does not go back. *)
Lemma cooperative_later (w w' : World) :
  cooperative w ->
  oracle w' = oracle w ->
  (tick w <= tick w')%nat ->
  AuthService.getItem AuthService.ACCESS_TOKEN (auth w')
  = AuthService.getItem AuthService.ACCESS_TOKEN (auth w) ->
  AuthService.getItem AuthService.EXPIRES_AT (auth w')
  = AuthService.getItem AuthService.EXPIRES_AT (auth w) ->
  cooperative w'.
Proof.
  intros Hw Ho Ht Ha He n Hn. rewrite Ho.
  destruct (Hw n ltac:(lia)) as [Hs Hauth]. split; [exact Hs|].
  unfold AuthService.isAuthenticated in *. rewrite Ha, He. exact Hauth.
Qed.

Lemma cooperative_signed (w : World) : cooperative w -> cooperative (signed w).
Proof. intros Hw. apply (cooperative_later w); auto; simpl; lia. Qed.

Lemma cooperative_answered (w : World) : cooperative w -> cooperative (answered w).
Proof. intros Hw. apply (cooperative_later w); auto; simpl; lia. Qed.

Lemma cooperative_setRemote (r : Remote) (w : World) :
  cooperative w -> cooperative (setRemote r w).
Proof. intros Hw. apply (cooperative_later w); auto. Qed.

Lemma cooperative_note (t : Tier) (o : TierOutcome) (w : World) :
  cooperative w -> cooperative (note t o w).
Proof. intros Hw. apply (cooperative_later w); auto. Qed.

Lemma cooperative_storeSheetId (id : string) (w : World) :
  cooperative w -> cooperative (setAuth (AuthService.storeSheetId id (auth w)) w).
Proof.
  intros Hw. apply (cooperative_later w); auto; simpl;
    unfold AuthService.storeSheetId; now rewrite getItem_setItem.
Qed.

Lemma cooperative_tock (w : World) : cooperative w -> cooperative (snd (tock w)).
Proof. intros Hw. apply (cooperative_later w); auto; simpl; lia. Qed.

(** ** The tiers *)

Lemma verifySheetExists_cooperative (id : string) (w : World) :
  cooperative w ->
  verifySheetExists id w
  = (match lookupSheet id (drive (remote w)) with
     | Some _ => Fulfilled tt
     | None =>
         Failed (newError (("Sheet not found or not accessible (" ++ id ++ "): ")
                           ++ "Requested entity was not found."))
     end,
     answered w).
Proof.
  intros Hw. unfold verifySheetExists, bind, catch.
  rewrite ensureAuthenticated_cooperative by exact Hw.
  rewrite request_cooperative by now apply cooperative_signed.
  unfold getFile. change (remote (signed w)) with (remote w).
  destruct (lookupSheet id (drive (remote w))); reflexivity.
Qed.

Lemma findExistingSheet_cooperative (w : World) :
  cooperative w -> findExistingSheet w = (Fulfilled (firstMatch (remote w)), answered w).
Proof.
  intros Hw. unfold findExistingSheet, bind, catch.
  rewrite ensureAuthenticated_cooperative by exact Hw.
  rewrite request_cooperative by now apply cooperative_signed.
  unfold firstMatch. change (remote (signed w)) with (remote w).
  destruct (listFiles SHEET_TITLE (remote w)) as [|first rest]; reflexivity.
Qed.

Lemma writeFirstRows_blank (id : string) :
  writeFirstRows
    [ (FARMACIAS_TAB, CStr <$> FARMACIAS_HEADERS); (MEDICOS_TAB, CStr <$> MEDICOS_HEADERS) ]
    {| spreadsheetId := id; title := SHEET_TITLE; trashed := false;
       tabs := list_to_map ((fun t => (t, [])) <$> [FARMACIAS_TAB; MEDICOS_TAB]) |}
  = Normal (freshSheet id).
Proof. vm_compute. reflexivity. Qed.

Lemma createSheet_cooperative (w : World) :
  cooperative w ->
  createSheet w
  = (Fulfilled (nextId (remote w)),
     setRemote (withFreshSheet (remote w)) (answered (answered w))).
Proof.
  intros Hw. unfold createSheet, bind, catch.
  rewrite ensureAuthenticated_cooperative by exact Hw.
  rewrite request_cooperative by now apply cooperative_signed.
  unfold createFile. change (remote (signed w)) with (remote w). fold (nextId (remote w)).
  assert (nonEmpty (nextId (remote w)) = true) as Hne by reflexivity.
  rewrite Hne. cbn [negb]. unfold writeHeaders, bind, catch.
  set (w1 := setRemote _ (snd (tock (signed w)))).
  assert (cooperative w1) as Hw1
    by (apply cooperative_setRemote, cooperative_tock, cooperative_signed, Hw).
  rewrite ensureAuthenticated_cooperative by exact Hw1.
  rewrite request_cooperative by now apply cooperative_signed.
  unfold batchUpdate. cbn [remote signed setAuth tock snd w1 setRemote drive lookupSheet spreadsheetId].
  rewrite String.eqb_refl, writeFirstRows_blank.
  cbn [updateSheet spreadsheetId]. rewrite String.eqb_refl. reflexivity.
Qed.

(** ** The resolver *)

Lemma initializeSheet_unfold :
  initializeSheet
  = (let! storedSheetId := getStoredSheetId in
     let! cached :=
       (if present storedSheetId then
          catch
            (entering Verify (fun _ => Yielded (default "" storedSheetId))
               (verifySheetExists (default "" storedSheetId)) ;;;
             ret storedSheetId)
            (fun _ => ret None)
        else ret None) in
     match cached with
     | Some id => ret id
     | None => searchOrCreate
     end).
Proof. reflexivity. Qed.

Lemma searchOrCreate_cooperative (v : World) :
  cooperative v ->
  exists v',
    searchOrCreate v
    = (Fulfilled (match firstMatch (remote v) with
                  | Some id => id
                  | None => nextId (remote v)
                  end), v')
    /\ cooperative v'
    /\ remote v' = match firstMatch (remote v) with
                   | Some _ => remote v
                   | None => withFreshSheet (remote v)
                   end
    /\ stored v' = Some (match firstMatch (remote v) with
                         | Some id => id
                         | None => nextId (remote v)
                         end)
    /\ tiers v' = (tiers v ++ match firstMatch (remote v) with
                              | Some id => [(Search, Yielded id)]
                              | None => [(Search, NoMatch);
                                         (Create, Yielded (nextId (remote v)))]
                              end)%list.
Proof.
  intros Hv. unfold searchOrCreate, bind, catch, entering, storeSheetId, ret.
  rewrite findExistingSheet_cooperative by exact Hv.
  destruct (firstMatch (remote v)) as [id|]; cbn [found].
  - eexists. split; [reflexivity|]. split; [|split; [reflexivity|split; [|reflexivity]]].
    + apply cooperative_storeSheetId, cooperative_note, cooperative_answered, Hv.
    + apply stored_storeSheetId.
  - set (v1 := note Search NoMatch (answered v)).
    assert (cooperative v1) as Hv1 by apply cooperative_note, cooperative_answered, Hv.
    rewrite createSheet_cooperative by exact Hv1.
    eexists. split; [reflexivity|]. split; [|split; [reflexivity|split]].
    + apply cooperative_storeSheetId, cooperative_note, cooperative_setRemote.
      apply cooperative_answered, cooperative_answered, Hv1.
    + apply stored_storeSheetId.
    + simpl. rewrite <- app_assoc. reflexivity.
Qed.

Lemma lookupSheet_elem (ss : Spreadsheet) (d : list Spreadsheet) :
  ss ∈ d -> is_Some (lookupSheet (spreadsheetId ss) d).
Proof.
  induction d as [|x d IH]; [intros H; inversion H|].
  intros H. simpl. destruct (String.eqb (spreadsheetId x) (spreadsheetId ss)) eqn:E; [eauto|].
  apply elem_of_cons in H as [->|H]; [|exact (IH H)].
  rewrite String.eqb_refl in E. discriminate.
Qed.

Lemma firstMatch_Some (r : Remote) (id : string) :
  firstMatch r = Some id ->
  id <> "" /\ is_Some (lookupSheet id (drive r))
  /\ exists ss, ss ∈ drive r /\ spreadsheetId ss = id /\ title ss = SHEET_TITLE
                /\ trashed ss = false.
Proof.
  unfold firstMatch, listFiles.
  destruct (filter _ (drive r)) as [|ss rest] eqn:E; [discriminate|].
  cbn [fmap list_fmap]. destruct (nonEmpty (spreadsheetId ss)) eqn:Hne; [|discriminate].
  intros [= <-].
  assert (ss ∈ filter (fun ss => title ss = SHEET_TITLE /\ trashed ss = false) (drive r)) as Hin
    by (rewrite E; apply list_elem_of_here).
  apply list_elem_of_filter in Hin as [[Ht Htr] Hin].
  split; [now apply nonEmpty_true|]. split; [now apply lookupSheet_elem|].
  exists ss. auto.
Qed.

Lemma initializeSheet_ready (id : string) (w : World) :
  ready id w ->
  initializeSheet w = (Fulfilled id, note Verify (Yielded id) (answered w)).
Proof.
  intros (Hw & Hid & Hne & [ss Hss]). apply nonEmpty_true in Hne.
  rewrite initializeSheet_unfold. unfold bind, catch, entering, getStoredSheetId, ret.
  fold (stored w). rewrite Hid. cbn [present default from_option Datatypes.id]. rewrite Hne.
  rewrite verifySheetExists_cooperative by exact Hw. rewrite Hss. reflexivity.
Qed.

Lemma ready_steady (id : string) (w w' : World) :
  ready id w -> cooperative w' -> stored w' = stored w -> remote w' = remote w ->
  ready id w'.
Proof.
  intros (_ & Hid & Hne & Hss) Hw' Hs Hr. unfold ready. rewrite Hs, Hr. auto.
Qed.

(** Under cooperation the resolver is a function of the cache and the
    store. *)
Lemma initializeSheet_cooperative (w : World) :
  cooperative w ->
  exists w',
    initializeSheet w = (Fulfilled (handle w), w')
    /\ remote w' = storeAfter w
    /\ ready (handle w) w'.
Proof.
  intros Hw. unfold handle, storeAfter, cacheAlive.
  destruct (stored w) as [id|] eqn:Hid; [destruct (nonEmpty id) eqn:Hne|]; cbn [andb].
  - destruct (lookupSheet id (drive (remote w))) as [ss|] eqn:Hss.
    + assert (ready id w) as Hr.
      { split; [exact Hw|]. split; [exact Hid|]. split; [now apply nonEmpty_true|]. eauto. }
      rewrite (initializeSheet_ready id w Hr). eexists. split; [reflexivity|].
      split; [reflexivity|]. cbn [default from_option Datatypes.id].
      apply (ready_steady id w); auto.
      apply cooperative_note, cooperative_answered, Hw.
    + rewrite initializeSheet_unfold. unfold bind at 1 2, catch at 1, entering at 1.
      unfold getStoredSheetId, ret, bind at 1. fold (stored w). rewrite Hid.
      cbn [present default from_option Datatypes.id]. rewrite Hne.
      rewrite verifySheetExists_cooperative by exact Hw. rewrite Hss.
      cbn beta iota.
      set (v := note Verify _ (answered w)).
      assert (cooperative v) as Hv by apply cooperative_note, cooperative_answered, Hw.
      destruct (searchOrCreate_cooperative v Hv) as (v' & -> & Hv' & Hrem & Hst & _).
      change (remote v) with (remote w) in *.
      exists v'. split; [reflexivity|]. split; [exact Hrem|].
      split; [exact Hv'|]. split; [exact Hst|]. rewrite Hrem.
      destruct (firstMatch (remote w)) as [id'|] eqn:Hm.
      * apply firstMatch_Some in Hm as (? & ? & _). auto.
      * split; [discriminate|]. simpl. rewrite String.eqb_refl. eauto.
  - rewrite initializeSheet_unfold. unfold bind at 1 2. unfold getStoredSheetId, ret.
    fold (stored w). rewrite Hid. cbn [present]. rewrite Hne. cbn beta iota.
    destruct (searchOrCreate_cooperative w Hw) as (v' & -> & Hv' & Hrem & Hst & _).
    exists v'. split; [reflexivity|]. split; [exact Hrem|].
    split; [exact Hv'|]. split; [exact Hst|]. rewrite Hrem.
    destruct (firstMatch (remote w)) as [id'|] eqn:Hm.
    + apply firstMatch_Some in Hm as (? & ? & _). auto.
    + split; [discriminate|]. simpl. rewrite String.eqb_refl. eauto.
  - rewrite initializeSheet_unfold. unfold bind at 1 2. unfold getStoredSheetId, ret.
    fold (stored w). rewrite Hid. cbn [present]. cbn beta iota.
    destruct (searchOrCreate_cooperative w Hw) as (v' & -> & Hv' & Hrem & Hst & _).
    exists v'. split; [reflexivity|]. split; [exact Hrem|].
    split; [exact Hv'|]. split; [exact Hst|]. rewrite Hrem.
    destruct (firstMatch (remote w)) as [id'|] eqn:Hm.
    + apply firstMatch_Some in Hm as (? & ? & _). auto.
    + split; [discriminate|]. simpl. rewrite String.eqb_refl. eauto.
Qed.

(** ** Reading and appending *)

Lemma format_storeAfter (w : World) : format (storeAfter w) = format (remote w).
Proof.
  unfold storeAfter. destruct (cacheAlive w); [reflexivity|].
  destruct (firstMatch (remote w)); reflexivity.
Qed.

Lemma ready_handle (id : string) (w : World) :
  ready id w -> handle w = id /\ storeAfter w = remote w.
Proof.
  intros (_ & Hid & Hne & [ss Hss]). apply nonEmpty_true in Hne.
  unfold handle, storeAfter, cacheAlive. rewrite Hid, Hne, Hss. split; reflexivity.
Qed.

Lemma oracle_initializeSheet (w : World) : oracle (snd (initializeSheet w)) = oracle w.
Proof. now apply (keeps_initializeSheet sameOracle). Qed.

Lemma readVia_cooperative {E} (tab prefix : string) (ofRow : list string -> E) (w : World) :
  cooperative w ->
  exists w',
    readVia tab prefix ofRow w
    = (match tabOf tab w with
       | Some rows => Fulfilled (ofRow <$> below (format (remote w)) rows)
       | None => Failed (noSuchTab prefix tab)
       end, w')
    /\ remote w' = storeAfter w
    /\ ready (handle w) w'.
Proof.
  intros Hw. unfold readVia, catch, bind.
  destruct (initializeSheet_cooperative w Hw) as (w1 & -> & Hrem & Hready).
  pose proof Hready as (Hc1 & Hst & Hne & [ss Hss]).
  rewrite ensureAuthenticated_cooperative by exact Hc1.
  rewrite request_cooperative by now apply cooperative_signed.
  unfold readFromRow2, tabOf. change (remote (signed w1)) with (remote w1).
  rewrite Hrem in Hss |- *. rewrite Hss, format_storeAfter.
  destruct (tabs ss !! tab) as [rows|].
  - eexists. split; [reflexivity|]. split; [reflexivity|].
    apply (ready_steady _ w1); auto.
    apply cooperative_setRemote, cooperative_answered, Hc1.
  - unfold badRange. rewrite rethrow_gapiFailure by discriminate.
    eexists. split; [reflexivity|]. split; [exact Hrem|].
    apply (ready_steady _ w1); auto.
    apply cooperative_answered, Hc1.
Qed.

Lemma writeVia_cooperative {E} (tab prefix : string) (complete : string * string -> E)
    (toRow : E -> list Cell) (w : World) :
  cooperative w ->
  exists w',
    ready (handle w) w'
    /\ match tabOf tab w with
       | Some rows =>
           exists n,
             writeVia tab prefix complete toRow w
             = (Fulfilled (complete (stampOf (oracle w n))), w')
             /\ remote w'
                = setDrive
                    (updateSheet (handle w)
                       (setTab tab (rows ++ [toRow (complete (stampOf (oracle w n)))])%list)
                       (drive (storeAfter w)))
                    (storeAfter w)
       | None =>
           writeVia tab prefix complete toRow w = (Failed (noSuchTab prefix tab), w')
           /\ remote w' = storeAfter w
       end.
Proof.
  intros Hw. unfold writeVia, catch, bind.
  pose proof (oracle_initializeSheet w) as Ho.
  destruct (initializeSheet_cooperative w Hw) as (w1 & Hinit & Hrem & Hready).
  rewrite Hinit in Ho |- *. cbn [snd] in Ho.
  pose proof Hready as (Hc1 & Hst & Hne & [ss Hss]).
  rewrite ensureAuthenticated_cooperative by exact Hc1.
  unfold stamp, bind, tock, ret. cbn beta iota. cbn [fst snd].
  set (w3 := mkWorld _ _ _ _ _).
  assert (cooperative w3) as Hc3 by (apply (cooperative_tock (signed w1)), cooperative_signed, Hc1).
  rewrite request_cooperative by exact Hc3.
  unfold appendRow, tabOf. change (remote w3) with (remote w1).
  rewrite Hrem in Hss |- *. rewrite Hss.
  change (oracle (signed w1)) with (oracle w1). rewrite Ho.
  fold (stampOf (oracle w (tick (signed w1)))).
  destruct (tabs ss !! tab) as [rows|].
  - eexists. split; [|exists (tick (signed w1)); split; reflexivity].
    split; [apply cooperative_setRemote, cooperative_tock, Hc3|].
    split; [exact Hst|]. split; [exact Hne|].
    cbn [remote setRemote setDrive drive].
    erewrite lookupSheet_updateSheet; [eauto|exact Hss|reflexivity].
  - unfold badRange. rewrite rethrow_gapiFailure by discriminate.
    eexists. split; [|split; [reflexivity|exact Hrem]].
    apply (ready_steady _ w1); auto. apply cooperative_tock, Hc3.
Qed.

(** ** Sample worlds *)

Lemma cooperative_freshWorld : cooperative (freshWorld allServed).
Proof. intros n _. split; reflexivity. Qed.

Lemma cooperative_readyWorld : cooperative readyWorld.
Proof. intros n _. split; reflexivity. Qed.

(** X9.  When every request is served and the stored session is valid,
    [initializeSheet] is fulfilled, and what it returns and leaves is a
    function of the cache and the store: the cached handle if it is not
    empty and its spreadsheet is there, else the first match of the search
    if its identifier is not empty, else a new spreadsheet, created only
    then.  The handle returned is not empty, is the one cached afterwards,
    names a spreadsheet of the store, and is the one [getSheetUrl] links
    to. *)
Theorem initializeSheet_under_cooperation (w : World) :
  cooperative w ->
  exists w',
    initializeSheet w = (Fulfilled (handle w), w')
    /\ remote w' = storeAfter w
    /\ ready (handle w) w'
    /\ SheetLink.getSheetUrl (auth w')
       = Some ("https://docs.google.com/spreadsheets/d/" ++ handle w ++ "/edit").
Proof.
  intros Hw. destruct (initializeSheet_cooperative w Hw) as (w' & Hrun & Hrem & Hready).
  exists w'. split; [exact Hrun|]. split; [exact Hrem|]. split; [exact Hready|].
  destruct Hready as (_ & Hst & Hne & _). apply nonEmpty_true in Hne.
  unfold SheetLink.getSheetUrl. fold (stored w'). rewrite Hst. simpl. rewrite Hne.
  reflexivity.
Qed.

Lemma initializeSheet_under_cooperation_witness :
  exists w',
    initializeSheet (freshWorld allServed) = (Fulfilled (handle (freshWorld allServed)), w')
    /\ remote w' = storeAfter (freshWorld allServed)
    /\ ready (handle (freshWorld allServed)) w'
    /\ SheetLink.getSheetUrl (auth w')
       = Some ("https://docs.google.com/spreadsheets/d/"
               ++ handle (freshWorld allServed) ++ "/edit").
Proof.
  apply (initializeSheet_under_cooperation (freshWorld allServed)).
  intros n _. split; reflexivity.
Defined.

(** X10.  Under the same conditions a second resolution changes nothing:
    it returns the handle of the first, by the verification alone, and
    leaves the store as the first left it. *)
Theorem initializeSheet_is_idempotent (w w1 : World) (id : string) :
  cooperative w ->
  initializeSheet w = (Fulfilled id, w1) ->
  exists w2,
    initializeSheet w1 = (Fulfilled id, w2)
    /\ remote w2 = remote w1
    /\ entered w1 = [(Verify, Yielded id)].
Proof.
  intros Hw Hrun.
  destruct (initializeSheet_cooperative w Hw) as (w' & Hrun' & _ & Hready).
  rewrite Hrun in Hrun'. injection Hrun' as -> ->.
  pose proof (initializeSheet_ready _ _ Hready) as H2.
  eexists. split; [exact H2|]. split; [reflexivity|].
  unfold entered. rewrite H2. cbn [snd tiers note answered signed tock setAuth].
  apply drop_app_length.
Qed.

Lemma initializeSheet_is_idempotent_witness :
  exists w2,
    initializeSheet (snd (initializeSheet (freshWorld allServed))) = (Fulfilled "sheet-0", w2)
    /\ remote w2 = remote (snd (initializeSheet (freshWorld allServed)))
    /\ entered (snd (initializeSheet (freshWorld allServed))) = [(Verify, Yielded "sheet-0")].
Proof.
  apply (initializeSheet_is_idempotent (freshWorld allServed)).
  - intros n _. split; reflexivity.
  - apply pair_of_fst. vm_compute. reflexivity.
Defined.

(** ** Creation *)

Lemma batchUpdate_blank (id : string) (d : list Spreadsheet) (n : N) (fmt : JsNum -> string) :
  batchUpdate id
    [ (FARMACIAS_TAB, CStr <$> FARMACIAS_HEADERS); (MEDICOS_TAB, CStr <$> MEDICOS_HEADERS) ]
    {| drive := blankSheet id :: d; minted := n; format := fmt |}
  = Normal {| drive := freshSheet id :: d; minted := n; format := fmt |}.
Proof.
  unfold batchUpdate. cbn [drive lookupSheet blankSheet spreadsheetId].
  rewrite String.eqb_refl. fold (blankSheet id). unfold blankSheet at 1.
  rewrite writeFirstRows_blank. cbn [updateSheet spreadsheetId setDrive drive].
  rewrite String.eqb_refl. reflexivity.
Qed.

(** X11.  Whenever [createSheet] is fulfilled, in any world, the store
    has gained exactly one spreadsheet, placed before the others, which are
    untouched: it carries the fixed title, is not trashed, and has the two
    tabs with one row each, the headers.  The identifier returned is its
    identifier; the cache is not written. *)
Theorem createSheet_leaves_headed_sheet (w w' : World) (id : string) :
  createSheet w = (Fulfilled id, w') ->
  id = nextId (remote w)
  /\ drive (remote w') = freshSheet id :: drive (remote w)
  /\ format (remote w') = format (remote w)
  /\ stored w' = stored w.
Proof.
  intros H. unfold createSheet in H.
  apply bind_fulfilled in H as ([] & wa & Hauth & H).
  apply catch_rethrow_fulfilled in H.
  apply bind_fulfilled in H as (sid & wb & Hreq & H).
  apply request_fulfilled in Hreq as (r & Hserve & ->).
  injection Hserve as <- <-.
  apply ensureAuthenticated_frame in Hauth as [Hst Hrem].
  change (remote (snd (tock wa))) with (remote wa) in *. rewrite Hrem in *.
  fold (nextId (remote w)) in H.
  change (nonEmpty (nextId (remote w))) with true in H. cbn [negb] in H.
  apply bind_fulfilled in H as ([] & wc & Hhead & H). injection H as <- <-.
  unfold writeHeaders in Hhead.
  apply bind_fulfilled in Hhead as ([] & wd & Hauth' & Hhead).
  apply catch_rethrow_fulfilled in Hhead.
  apply request_fulfilled in Hhead as (r' & Hserve & ->).
  apply ensureAuthenticated_frame in Hauth' as [Hst' Hrem'].
  rewrite Hrem' in Hserve. cbn [remote setRemote] in Hserve.
  fold (nextId (remote w)) in Hserve. fold (blankSheet (nextId (remote w))) in Hserve.
  rewrite batchUpdate_blank in Hserve. injection Hserve as <-.
  split; [reflexivity|]. split; [reflexivity|]. split; [reflexivity|].
  change (stored wd = stored w). rewrite Hst'. exact Hst.
Qed.

Lemma createSheet_leaves_headed_sheet_witness :
  "sheet-0" = nextId (remote (freshWorld allServed))
  /\ drive (remote (snd (createSheet (freshWorld allServed))))
     = freshSheet "sheet-0" :: drive (remote (freshWorld allServed))
  /\ format (remote (snd (createSheet (freshWorld allServed))))
     = format (remote (freshWorld allServed))
  /\ stored (snd (createSheet (freshWorld allServed))) = stored (freshWorld allServed).
Proof.
  apply (createSheet_leaves_headed_sheet (freshWorld allServed)
           (snd (createSheet (freshWorld allServed))) "sheet-0").
  apply pair_of_fst. vm_compute. reflexivity.
Defined.

Lemma ensureAuthenticated_valid (w : World) :
  AuthService.isAuthenticated (clock (oracle w (tick w))) (auth w) = true ->
  ensureAuthenticated w = (Fulfilled tt, signed w).
Proof.
  intros Hauth.
  unfold ensureAuthenticated, getAccessToken, bind, tock. cbn beta iota. cbn [auth].
  destruct (isAuthenticated_getAccessToken _ (signInEnv (oracle w (tick w))) _ Hauth)
    as [-> Hp].
  cbn beta iota. rewrite Hp. reflexivity.
Qed.

Lemma request_served {A} (serve : Remote -> Completion (A * Remote)) (w : World) :
  disposition (oracle w (tick w)) = Served ->
  request serve w
  = match serve (remote w) with
    | Normal (a, r) => (Fulfilled a, setRemote r (snd (tock w)))
    | Throw e => (Failed e, snd (tock w))
    end.
Proof.
  intros Hserved. unfold request, bind, tock. cbn beta iota. rewrite Hserved. reflexivity.
Qed.

Lemma request_refused {A} (serve : Remote -> Completion (A * Remote)) (w : World) e :
  disposition (oracle w (tick w)) = Refused e ->
  request serve w = (Failed e, snd (tock w)).
Proof.
  intros Hrefused. unfold request, bind, tock. cbn beta iota. rewrite Hrefused. reflexivity.
Qed.

(** X12.  [createSheet] is not atomic.  When the spreadsheet is created
    and the request that writes the headers is then refused with a message,
    [createSheet] rejects with the two prefixes in front of that message,
    and the spreadsheet stays in the store, with its two tabs empty. *)
Theorem createSheet_header_failure_leaves_blank_sheet
    (w : World) (code : N) (m status : string) :
  AuthService.isAuthenticated (clock (oracle w (tick w))) (auth w) = true ->
  disposition (oracle w (1 + tick w)) = Served ->
  AuthService.isAuthenticated (clock (oracle w (2 + tick w))) (auth w) = true ->
  disposition (oracle w (3 + tick w)) = Refused (gapiFailure code m status) ->
  m <> "" ->
  fst (createSheet w)
  = Failed (newError ("Failed to create sheet: " ++ "Failed to write headers: " ++ m))
  /\ drive (remote (snd (createSheet w))) = blankSheet (nextId (remote w)) :: drive (remote w).
Proof.
  intros Ha0 Hd1 Ha2 Hd3 Hm. unfold createSheet, bind, catch.
  rewrite ensureAuthenticated_valid by exact Ha0.
  rewrite request_served by exact Hd1.
  unfold createFile. change (remote (signed w)) with (remote w). fold (nextId (remote w)).
  change (nonEmpty (nextId (remote w))) with true. cbn [negb].
  unfold writeHeaders, bind, catch.
  rewrite ensureAuthenticated_valid by exact Ha2.
  rewrite request_refused with (e := gapiFailure code m status) by exact Hd3.
  rewrite rethrow_gapiFailure by exact Hm.
  rewrite rethrow_newError. split; reflexivity.
Qed.

Lemma createSheet_header_failure_leaves_blank_sheet_witness :
  fst (createSheet (freshWorld (servedExcept 3 unavailable)))
  = Failed (newError ("Failed to create sheet: " ++ "Failed to write headers: "
                      ++ "The service is currently unavailable."))
  /\ drive (remote (snd (createSheet (freshWorld (servedExcept 3 unavailable)))))
     = blankSheet (nextId (remote (freshWorld (servedExcept 3 unavailable))))
       :: drive (remote (freshWorld (servedExcept 3 unavailable))).
Proof.
  apply (createSheet_header_failure_leaves_blank_sheet
           (freshWorld (servedExcept 3 unavailable)) 503
           "The service is currently unavailable." "UNAVAILABLE").
  - reflexivity.
  - reflexivity.
  - reflexivity.
  - reflexivity.
  - discriminate.
Defined.

(** ** The readers *)

Lemma readers_unfold (w : World) :
  cooperative w ->
  (exists w',
     readFarmacias w
     = (match tabOf FARMACIAS_TAB w with
        | Some rows => Fulfilled (rowToFarmacia <$> below (format (remote w)) rows)
        | None => Failed (noSuchTab "Failed to read farmacias: " FARMACIAS_TAB)
        end, w')
     /\ remote w' = storeAfter w)
  /\ (exists w',
        readMedicos w
        = (match tabOf MEDICOS_TAB w with
           | Some rows => Fulfilled (rowToMedico <$> below (format (remote w)) rows)
           | None => Failed (noSuchTab "Failed to read medicos: " MEDICOS_TAB)
           end, w')
        /\ remote w' = storeAfter w).
Proof.
  intros Hw. split.
  - rewrite readFarmacias_via.
    destruct (readVia_cooperative FARMACIAS_TAB "Failed to read farmacias: " rowToFarmacia w Hw)
      as (w' & H & Hrem & _).
    eauto.
  - rewrite readMedicos_via.
    destruct (readVia_cooperative MEDICOS_TAB "Failed to read medicos: " rowToMedico w Hw)
      as (w' & H & Hrem & _).
    eauto.
Qed.



Lemma tabOf_fresh (tab : string) (w : World) :
  cacheAlive w = false -> firstMatch (remote w) = None ->
  tabOf tab w = tabs (freshSheet (nextId (remote w))) !! tab.
Proof.
  intros Hc Hm. unfold tabOf, handle, storeAfter. rewrite Hc, Hm.
  cbn [withFreshSheet drive lookupSheet freshSheet spreadsheetId].
  rewrite String.eqb_refl. reflexivity.
Qed.

(** X14.  The first read of an account that has no spreadsheet yet: with
    no usable handle cached and no match in the store, each reader, under
    cooperation, is fulfilled with the empty list, and leaves the store with
    one more spreadsheet, the one with the two header rows. *)
Theorem first_read_is_empty_and_creates_the_sheet (w : World) :
  cooperative w ->
  cacheAlive w = false ->
  firstMatch (remote w) = None ->
  fst (readFarmacias w) = Fulfilled []
  /\ fst (readMedicos w) = Fulfilled []
  /\ drive (remote (snd (readFarmacias w)))
     = freshSheet (nextId (remote w)) :: drive (remote w)
  /\ drive (remote (snd (readMedicos w)))
     = freshSheet (nextId (remote w)) :: drive (remote w).
Proof.
  intros Hw Hc Hm.
  destruct (readers_unfold w Hw) as [(wf & Hf & Hrf) (wm & Hm' & Hrm)].
  rewrite Hf, Hm'. cbn [fst snd]. rewrite Hrf, Hrm.
  rewrite !tabOf_fresh by assumption.
  unfold storeAfter. rewrite Hc, Hm. repeat split.
Qed.

Lemma first_read_is_empty_and_creates_the_sheet_witness :
  fst (readFarmacias (freshWorld allServed)) = Fulfilled []
  /\ fst (readMedicos (freshWorld allServed)) = Fulfilled []
  /\ drive (remote (snd (readFarmacias (freshWorld allServed))))
     = freshSheet (nextId (remote (freshWorld allServed)))
       :: drive (remote (freshWorld allServed))
  /\ drive (remote (snd (readMedicos (freshWorld allServed))))
     = freshSheet (nextId (remote (freshWorld allServed)))
       :: drive (remote (freshWorld allServed)).
Proof.
  apply (first_read_is_empty_and_creates_the_sheet (freshWorld allServed)).
  - intros n _. split; reflexivity.
  - reflexivity.
  - reflexivity.
Defined.

(** ** Appending *)


Lemma stampOf_nonEmpty (o : Oracle) : fst (stampOf o) <> "" /\ snd (stampOf o) <> "".
Proof.
  split; apply nonEmpty_true; simpl.
  - unfold generateId. rewrite !nonEmpty_app. simpl. apply orb_true_r.
  - unfold toISOString. rewrite nonEmpty_app. apply orb_true_r.
Qed.

Lemma tabOf_ready (id tab : string) (w : World) (ss : Spreadsheet) :
  ready id w -> lookupSheet id (drive (remote w)) = Some ss -> tabOf tab w = tabs ss !! tab.
Proof.
  intros Hr Hss. destruct (ready_handle id w Hr) as [Hh Hs].
  unfold tabOf. rewrite Hh, Hs, Hss. reflexivity.
Qed.

(** What a fulfilled append leaves, under cooperation: the row of the
    completed entity is the last of its tab, the other tabs are as they
    were, and so is the format of numbers. *)
Lemma writeVia_appends {E} (tab prefix : string) (complete : string * string -> E)
    (toRow : E -> list Cell) (w w1 : World) (e : E) (rows : list (list Cell)) :
  cooperative w ->
  tabOf tab w = Some rows ->
  writeVia tab prefix complete toRow w = (Fulfilled e, w1) ->
  cooperative w1
  /\ format (remote w1) = format (remote w)
  /\ tabOf tab w1 = Some (rows ++ [toRow e])%list
  /\ (forall tab', tab' <> tab -> tabOf tab' w1 = tabOf tab' w)
  /\ exists ids, e = complete ids /\ fst ids <> "" /\ snd ids <> "".
Proof.
  intros Hw Htab Hwrite.
  destruct (writeVia_cooperative tab prefix complete toRow w Hw) as (w' & Hready & H).
  rewrite Htab in H. destruct H as (n & Hrun & Hrem).
  rewrite Hwrite in Hrun. injection Hrun as -> ->.
  unfold tabOf in Htab.
  destruct (lookupSheet (handle w) (drive (storeAfter w))) as [ss|] eqn:Hss; [|discriminate].
  assert (lookupSheet (handle w) (drive (remote w'))
          = Some (setTab tab (rows ++ [toRow (complete (stampOf (oracle w n)))]) ss)) as Hss'.
  { rewrite Hrem. cbn [setDrive drive].
    apply lookupSheet_updateSheet; [exact Hss|reflexivity]. }
  split; [apply Hready|]. split; [rewrite Hrem; apply format_storeAfter|].
  split; [|split].
  - rewrite (tabOf_ready _ tab _ _ Hready Hss'). cbn [setTab tabs]. apply lookup_insert_eq.
  - intros tab' Hne. rewrite (tabOf_ready _ tab' _ _ Hready Hss'). cbn [setTab tabs].
    rewrite lookup_insert_ne by congruence.
    unfold tabOf. rewrite Hss. reflexivity.
  - exists (stampOf (oracle w n)). split; [reflexivity|]. apply stampOf_nonEmpty.
Qed.





Lemma via_other_tab {E F} (tab pw : string) (complete : string * string -> E)
    (toRow : E -> list Cell) (tab' pr : string) (ofRow : list string -> F)
    (w w1 : World) (e : E) :
  cooperative w -> tab' <> tab ->
  writeVia tab pw complete toRow w = (Fulfilled e, w1) ->
  fst (readVia tab' pr ofRow w1) = fst (readVia tab' pr ofRow w).
Proof.
  intros Hw Hne Hwrite.
  destruct (writeVia_cooperative tab pw complete toRow w Hw) as (w' & _ & H).
  destruct (tabOf tab w) as [rows|] eqn:Htab.
  - destruct (writeVia_appends _ _ _ _ _ _ _ _ Hw Htab Hwrite) as (Hw1 & Hfmt & _ & Hother & _).
    destruct (readVia_cooperative tab' pr ofRow w1 Hw1) as (w2 & -> & _).
    destruct (readVia_cooperative tab' pr ofRow w Hw) as (w3 & -> & _).
    cbn [fst]. rewrite (Hother tab' Hne), Hfmt. reflexivity.
  - destruct H as [H _]. rewrite Hwrite in H. discriminate.
Qed.

(** X16.  The two tabs are independent under cooperation: after a
    fulfilled append of a pharmacy the reader of the doctors answers what it
    answered (or would have answered) before, and after a fulfilled append
    of a doctor so does the reader of the pharmacies. *)
Theorem append_leaves_the_other_reader (w : World) :
  cooperative w ->
  (forall (d : Farmacia.Data) (e : Farmacia.t) (w1 : World),
     writeFarmacia d w = (Fulfilled e, w1) ->
     fst (readMedicos w1) = fst (readMedicos w))
  /\ (forall (d : Medico.Data) (e : Medico.t) (w1 : World),
        writeMedico d w = (Fulfilled e, w1) ->
        fst (readFarmacias w1) = fst (readFarmacias w)).
Proof.
  intros Hw. split.
  - intros d e w1 Hwrite. rewrite writeFarmacia_via in Hwrite. rewrite readMedicos_via.
    apply (via_other_tab FARMACIAS_TAB "Failed to write farmacia: " (completeFarmacia d)
             farmaciaToRow MEDICOS_TAB "Failed to read medicos: " rowToMedico w w1 e Hw);
      [discriminate|exact Hwrite].
  - intros d e w1 Hwrite. rewrite writeMedico_via in Hwrite. rewrite readFarmacias_via.
    apply (via_other_tab MEDICOS_TAB "Failed to write medico: " (completeMedico d)
             medicoToRow FARMACIAS_TAB "Failed to read farmacias: " rowToFarmacia w w1 e Hw);
      [discriminate|exact Hwrite].
Qed.

Lemma append_leaves_the_other_reader_witness :
  fst (readMedicos (snd (writeFarmacia sampleFarmacia readyWorld)))
  = fst (readMedicos readyWorld).
Proof.
  apply (proj1 (append_leaves_the_other_reader readyWorld
                  (fun n _ => conj eq_refl eq_refl))
           sampleFarmacia (completeFarmacia sampleFarmacia sampleIds)
           (snd (writeFarmacia sampleFarmacia readyWorld))).
  apply pair_of_fst. vm_compute. reflexivity.
Defined.

(** ** Without a session *)

Lemma ensureAuthenticated_signedOut (w : World) :
  signedOut w -> ensureAuthenticated w = (Failed (notAuthenticated ""), snd (tock w)).
Proof.
  intros Hout. unfold ensureAuthenticated, getAccessToken, bind, tock. cbn beta iota. cbn [auth].
  rewrite (TokenFacts.getAccessToken_without_session
             (clock (oracle w (tick w))) (signInEnv (oracle w (tick w))) (auth w) Hout).
  reflexivity.
Qed.

Lemma signedOut_same_auth (w w' : World) : auth w' = auth w -> signedOut w -> signedOut w'.
Proof. unfold signedOut. now intros ->. Qed.

Lemma verifySheetExists_signedOut (id : string) (w : World) :
  signedOut w -> verifySheetExists id w = (Failed (notAuthenticated ""), snd (tock w)).
Proof.
  intros Hout. unfold verifySheetExists, bind.
  now rewrite ensureAuthenticated_signedOut.
Qed.

Lemma findExistingSheet_signedOut (w : World) :
  signedOut w -> findExistingSheet w = (Failed (notAuthenticated ""), snd (tock w)).
Proof.
  intros Hout. unfold findExistingSheet, bind.
  now rewrite ensureAuthenticated_signedOut.
Qed.

Lemma createSheet_signedOut (w : World) :
  signedOut w -> createSheet w = (Failed (notAuthenticated ""), snd (tock w)).
Proof.
  intros Hout. unfold createSheet, bind.
  now rewrite ensureAuthenticated_signedOut.
Qed.

Lemma searchOrCreate_signedOut (v : World) :
  signedOut v ->
  exists v',
    searchOrCreate v = (Failed (notAuthenticated ""), v')
    /\ auth v' = auth v /\ remote v' = remote v.
Proof.
  intros Hv. unfold searchOrCreate, bind, catch, entering, ret, throw.
  rewrite findExistingSheet_signedOut by exact Hv.
  rewrite createSheet_signedOut by (eapply signedOut_same_auth; [|exact Hv]; reflexivity).
  eexists. split; [reflexivity|]. split; reflexivity.
Qed.

Lemma initializeSheet_signedOut (w : World) :
  signedOut w ->
  exists w',
    initializeSheet w = (Failed (notAuthenticated ""), w')
    /\ auth w' = auth w /\ remote w' = remote w.
Proof.
  intros Hout. rewrite initializeSheet_unfold.
  unfold bind at 1 2. unfold getStoredSheetId, ret.
  destruct (present (AuthService.getStoredSheetId (auth w))).
  - unfold catch at 1, bind at 1, entering at 1.
    rewrite verifySheetExists_signedOut by exact Hout. cbn beta iota.
    set (v := note Verify _ (snd (tock w))).
    destruct (searchOrCreate_signedOut v) as (v' & -> & Ha & Hr).
    { eapply signedOut_same_auth; [|exact Hout]. reflexivity. }
    exists v'. split; [reflexivity|]. split; [exact Ha|exact Hr].
  - cbn beta iota. apply searchOrCreate_signedOut, Hout.
Qed.

Lemma readVia_signedOut {E} (tab prefix : string) (ofRow : list string -> E) (w : World) :
  signedOut w ->
  exists w',
    readVia tab prefix ofRow w = (Failed (notAuthenticated prefix), w')
    /\ auth w' = auth w /\ remote w' = remote w.
Proof.
  intros Hout. unfold readVia, catch, bind.
  destruct (initializeSheet_signedOut w Hout) as (w' & -> & Ha & Hr).
  unfold notAuthenticated at 1. cbn [append]. rewrite rethrow_newError. eauto.
Qed.

Lemma writeVia_signedOut {E} (tab prefix : string) (complete : string * string -> E)
    (toRow : E -> list Cell) (w : World) :
  signedOut w ->
  exists w',
    writeVia tab prefix complete toRow w = (Failed (notAuthenticated prefix), w')
    /\ auth w' = auth w /\ remote w' = remote w.
Proof.
  intros Hout. unfold writeVia, catch, bind.
  destruct (initializeSheet_signedOut w Hout) as (w' & -> & Ha & Hr).
  unfold notAuthenticated at 1. cbn [append]. rewrite rethrow_newError. eauto.
Qed.

(** X17.  Without a stored session every operation of the service
    rejects, with its own prefix in front of "Not authenticated" (and
    [initializeSheet] with that message alone): no request reaches the
    store, no consent is asked for, and what the browser stores is left as
    it was. *)
Theorem operations_reject_without_session (w : World) :
  signedOut w ->
  (exists w', initializeSheet w = (Failed (newError "Not authenticated"), w')
              /\ auth w' = auth w /\ remote w' = remote w)
  /\ (exists w', readFarmacias w
                 = (Failed (newError "Failed to read farmacias: Not authenticated"), w')
                 /\ auth w' = auth w /\ remote w' = remote w)
  /\ (exists w', readMedicos w
                 = (Failed (newError "Failed to read medicos: Not authenticated"), w')
                 /\ auth w' = auth w /\ remote w' = remote w)
  /\ (forall d, exists w',
        writeFarmacia d w
        = (Failed (newError "Failed to write farmacia: Not authenticated"), w')
        /\ auth w' = auth w /\ remote w' = remote w)
  /\ (forall d, exists w',
        writeMedico d w
        = (Failed (newError "Failed to write medico: Not authenticated"), w')
        /\ auth w' = auth w /\ remote w' = remote w).
Proof.
  intros Hout. split; [|split; [|split; [|split]]].
  - apply initializeSheet_signedOut, Hout.
  - apply (readVia_signedOut FARMACIAS_TAB "Failed to read farmacias: " rowToFarmacia w Hout).
  - apply (readVia_signedOut MEDICOS_TAB "Failed to read medicos: " rowToMedico w Hout).
  - intros d. apply (writeVia_signedOut FARMACIAS_TAB "Failed to write farmacia: "
                       (completeFarmacia d) farmaciaToRow w Hout).
  - intros d. apply (writeVia_signedOut MEDICOS_TAB "Failed to write medico: "
                       (completeMedico d) medicoToRow w Hout).
Qed.

Lemma operations_reject_without_session_witness :
  exists w', readFarmacias strangerWorld
             = (Failed (newError "Failed to read farmacias: Not authenticated"), w')
             /\ auth w' = auth strangerWorld /\ remote w' = remote strangerWorld.
Proof.
  apply (operations_reject_without_session strangerWorld).
  reflexivity.
Defined.

End ServiceFacts.

(* ===================================================================== *)
(** * Identifiers *)
(* ===================================================================== *)

Module IdFacts.
Import Js Rows JsFacts.

Lemma digitValue_digit36 (d : N) : (d < 36)%N -> digitValue (digit36 d) = Some d.
Proof.
  intros H.
  assert (In d (map N.of_nat (seq 0 36))) as Hin.
  { apply in_map_iff. exists (N.to_nat d). split; [lia|]. apply in_seq. lia. }
  simpl in Hin.
  repeat (destruct Hin as [<-|Hin]; [reflexivity|]). contradiction.
Qed.

(** Reading in radix 36 what [toRadix36] wrote gives the number back, and
    goes on with what follows. *)
Lemma readDigits_toRadix36 (f : nat) (n : N) (acc rest : string) :
  (n < 2 ^ N.of_nat f)%N ->
  readDigits 36 (toRadix36 (S f) n acc ++ rest) None
  = readDigits 36 (acc ++ rest) (Some n).
Proof.
  revert n acc. induction f as [|f IH]; intros n acc Hn.
  - assert (n = 0%N) as -> by (simpl in Hn; lia). reflexivity.
  - rewrite Nat2N.inj_succ, N.pow_succ_r' in Hn.
    change (toRadix36 (S (S f)) n acc)
      with (if (n <? 36)%N then String (digit36 (n mod 36)) acc
            else toRadix36 (S f) (n / 36) (String (digit36 (n mod 36)) acc)).
    assert (n mod 36 < 36)%N as Hm by (apply N.mod_lt; lia).
    destruct (n <? 36)%N eqn:Hlt.
    + apply N.ltb_lt in Hlt. rewrite N.mod_small by exact Hlt.
      change (String (digit36 n) acc ++ rest) with (String (digit36 n) (acc ++ rest)).
      cbn [readDigits]. rewrite digitValue_digit36 by exact Hlt.
      apply N.ltb_lt in Hlt. rewrite Hlt. reflexivity.
    + apply N.ltb_ge in Hlt. rewrite IH.
      * change (String (digit36 (n mod 36)) acc ++ rest)
          with (String (digit36 (n mod 36)) (acc ++ rest)).
        cbn [readDigits]. rewrite digitValue_digit36 by exact Hm.
        apply N.ltb_lt in Hm. rewrite Hm. do 2 f_equal.
        pose proof (N.div_mod n 36 ltac:(lia)). lia.
      * apply N.Div0.div_lt_upper_bound. lia.
Qed.

Lemma readDigits_generateId (now : Z) (random36 : string) :
  0 <= now ->
  readDigits 36 (generateId now random36) None
  = (Some (Z.to_N now), "-" ++ substring 2 7 random36).
Proof.
  intros Hnow. unfold generateId, toString36.
  destruct (now <? 0) eqn:Hneg; [apply Z.ltb_lt in Hneg; lia|].
  change ("" ++ ?x) with x. rewrite readDigits_toRadix36.
  - replace (Z.abs_N now) with (Z.to_N now) by lia. reflexivity.
  - rewrite N2Nat.id. apply N.size_gt.
Qed.

(** X18.  From the epoch on, two identifiers coincide exactly when they
    were generated in the same millisecond with the same seven characters
    taken from the random number: the timestamp in front of the dash can be
    read back, so identifiers generated at different milliseconds always
    differ, whatever the random parts. *)
Theorem generateId_coincide_iff (now1 now2 : Z) (random1 random2 : string) :
  0 <= now1 -> 0 <= now2 ->
  (generateId now1 random1 = generateId now2 random2
   <-> now1 = now2 /\ substring 2 7 random1 = substring 2 7 random2).
Proof.
  intros H1 H2. split.
  - intros E. apply (f_equal (fun s => readDigits 36 s None)) in E.
    rewrite !readDigits_generateId in E by assumption.
    injection E as En Es. split; [lia|exact Es].
  - intros [-> Es]. unfold generateId. rewrite Es. reflexivity.
Qed.

Lemma generateId_coincide_iff_witness :
  generateId 1730000000000 "0.4fzyo82mvyr" = generateId 1730000000000 "0.4fzyo82zzzz"
  <-> 1730000000000 = 1730000000000
      /\ substring 2 7 "0.4fzyo82mvyr" = substring 2 7 "0.4fzyo82zzzz".
Proof.
  apply (generateId_coincide_iff 1730000000000 1730000000000
           "0.4fzyo82mvyr" "0.4fzyo82zzzz"); lia.
Defined.

End IdFacts.

(* ===================================================================== *)
(** * Rows as the sheet returns them *)
(* ===================================================================== *)

Module RowShapeFacts.
Import Js Rows SheetsService RowsSpec JsFacts RowsFacts.

Lemma trimRow_replicate (k : nat) : trimRow (replicate k "") = [].
Proof. induction k as [|k IH]; [reflexivity|]. simpl. now rewrite IH. Qed.

Lemma trimRow_padding (row : list string) (k : nat) :
  trimRow (row ++ replicate k "") = trimRow row.
Proof.
  induction row as [|c row IH]; simpl; [apply trimRow_replicate|]. now rewrite IH.
Qed.

(** X19.  The mappings read a row by position and see neither blanks
    nor surplus: a row padded with empty cells, as a row cut short by the
    range read would be, maps to the same entity, and so does a row
    followed by cells beyond the last column of its variant (25 for a
    pharmacy, 16 for a doctor). *)
Theorem row_mappings_ignore_padding (row extra : list string) (k : nat) :
  rowToFarmacia (row ++ replicate k "") = rowToFarmacia row
  /\ rowToMedico (row ++ replicate k "") = rowToMedico row
  /\ ((25 <= length row)%nat -> rowToFarmacia (row ++ extra) = rowToFarmacia row)
  /\ ((16 <= length row)%nat -> rowToMedico (row ++ extra) = rowToMedico row).
Proof.
  split; [|split; [|split]].
  - rewrite <- (rowToFarmacia_trimRow (row ++ _)), trimRow_padding.
    apply rowToFarmacia_trimRow.
  - rewrite <- (rowToMedico_trimRow (row ++ _)), trimRow_padding.
    apply rowToMedico_trimRow.
  - intros Hlen. unfold rowToFarmacia, at_.
    rewrite !lookup_app_l by lia. reflexivity.
  - intros Hlen. unfold rowToMedico, at_.
    rewrite !lookup_app_l by lia. reflexivity.
Qed.

Lemma row_mappings_ignore_padding_witness :
  rowToFarmacia (replicate 25 "x" ++ ["surplus"]) = rowToFarmacia (replicate 25 "x")
  /\ rowToMedico (replicate 16 "x" ++ ["surplus"]) = rowToMedico (replicate 16 "x").
Proof.
  split.
  - apply (proj1 (proj2 (proj2
             (row_mappings_ignore_padding (replicate 25 "x") ["surplus"] 0)))).
    simpl. lia.
  - apply (proj2 (proj2 (proj2
             (row_mappings_ignore_padding (replicate 16 "x") ["surplus"] 0)))).
    simpl. lia.
Defined.

Lemma keepsText_orUndefined (c : option string) : keepsText (orUndefined c) = true.
Proof. destruct c as [[|a s]|]; reflexivity. Qed.

Lemma farmaciaTexts_read (row : list string) :
  forallb keepsText (farmaciaTexts (Farmacia.data (rowToFarmacia row))) = true.
Proof.
  unfold rowToFarmacia, farmaciaTexts. cbn [Farmacia.data Farmacia.email Farmacia.phone
    Farmacia.territorio Farmacia.pais Farmacia.estado Farmacia.municipio Farmacia.colonia
    Farmacia.calle Farmacia.estatus Farmacia.codigoPostal Farmacia.ruta
    Farmacia.nombreCuenta Farmacia.plantillaClientes Farmacia.folioTienda
    Farmacia.cedulaProfesional Farmacia.grupoCadena Farmacia.especialidad
    Farmacia.categoriaMedico Farmacia.propietarioCuenta Farmacia.googleMapsUrl
    Farmacia.nombreBrick forallb].
  rewrite !keepsText_orUndefined. reflexivity.
Qed.

Lemma medicoTexts_read (row : list string) :
  forallb keepsText (medicoTexts (Medico.data (rowToMedico row))) = true.
Proof.
  unfold rowToMedico, medicoTexts. cbn [Medico.data Medico.email Medico.phone
    Medico.estado Medico.ciudad Medico.colonia Medico.calle Medico.estatus
    Medico.codigoPostal Medico.nombreCuenta Medico.especialidad Medico.nombreBrick
    Medico.googleMapsUrl forallb].
  rewrite !keepsText_orUndefined. reflexivity.
Qed.

(** X20.  What the mappings read from a row is in the form a row keeps:
    no optional text of the entity is the empty string, for any row; so an
    entity read from the sheet, written to a row again and read back is the
    same entity, provided its two coordinates, if any, are read back from
    their formatted cells as the same numbers. *)
Theorem read_entities_survive_rewriting (fmt : JsNum -> string) (row : list string) :
  forallb keepsText (farmaciaTexts (Farmacia.data (rowToFarmacia row))) = true
  /\ forallb keepsText (medicoTexts (Medico.data (rowToMedico row))) = true
  /\ (keepsNumber fmt (Farmacia.lat (Farmacia.data (rowToFarmacia row))) = true ->
      keepsNumber fmt (Farmacia.lng (Farmacia.data (rowToFarmacia row))) = true ->
      rowToFarmacia (trimRow (renderCell fmt <$> farmaciaToRow (rowToFarmacia row)))
      = rowToFarmacia row)
  /\ (keepsNumber fmt (Medico.lat (Medico.data (rowToMedico row))) = true ->
      keepsNumber fmt (Medico.lng (Medico.data (rowToMedico row))) = true ->
      rowToMedico (trimRow (renderCell fmt <$> medicoToRow (rowToMedico row)))
      = rowToMedico row).
Proof.
  split; [apply farmaciaTexts_read|]. split; [apply medicoTexts_read|]. split.
  - intros Hlat Hlng. apply farmacia_back. unfold farmaciaSurvives.
    now rewrite farmaciaTexts_read, Hlat, Hlng.
  - intros Hlat Hlng. apply medico_back. unfold medicoSurvives.
    now rewrite medicoTexts_read, Hlat, Hlng.
Qed.

Lemma read_entities_survive_rewriting_witness :
  rowToMedico (trimRow (renderCell numToString <$> medicoToRow (rowToMedico geocodedMedico)))
  = rowToMedico geocodedMedico.
Proof.
  apply (proj2 (proj2 (proj2 (read_entities_survive_rewriting numToString geocodedMedico)))).
  - vm_compute. reflexivity.
  - vm_compute. reflexivity.
Defined.

End RowShapeFacts.
